(** * nod.ai desktop client: backend supervisor and streaming chat session

  A shallow embedding of the application, first of all of the two
  pieces that carry state across asynchronous steps:

  - [Chat]: the chat page of the renderer
    (frontend/src/pages/chat/Chat.tsx together with the key and button
    wiring of components/Composer.tsx);
  - [Electron]: the main process of the Electron application (the file
    that defines [ensureProductionBackend], [resolveBackendCommand],
    [startBackend] and [cleanup]): extraction of the packaged backend,
    resolution of the backend command, start of the backend child and
    the termination handlers.  Line numbers are those of that file;
  - [Schedules]: invariants of the main process that hold on every
    schedule of its event loop;
  - [Conversation]: the download and delete handlers of the composer,
    "New chat", and what the message list shows;
  - [Settings]: the settings page (pages/settings/Settings.tsx) and the
    resize handler of the sidebar;
  - [Packaging]: the script that builds backend.tar.gz and the [.env]
    loader of the electron-builder configuration.

  JavaScript values are modelled as follows.  Strings are [string], the
  UTF-8 encoding of the text; [s.trim()] is [trim]; a string used as a
  condition is [truthy].  An
  array is a [list (option A)], [None] being a hole ([undefined]); an
  assignment [a[i] = v] past the end extends the array, as JavaScript
  does ([js_set]).  Objects used as maps are [gmap]. *)

From Stdlib Require Import Ascii ZArith.
From stdpp Require Import base strings list gmap.

(** ** JavaScript helpers *)

Module Js.

(** [String.prototype.trim].  A [string] holds the UTF-8 encoding of
    the text.  What [trim] strips are the WhiteSpace and LineTerminator code
    points of ECMAScript: U+0009 to U+000D and U+0020 (one byte, [white1]),
    U+00A0 (two bytes, [white2]), and U+1680, U+2000 to U+200A, U+2028,
    U+2029, U+202F, U+205F, U+3000 and U+FEFF (three bytes, [white3]). *)
Definition white1 (a : ascii) : bool := Ascii.is_space a.

Definition white2 (a b : ascii) : bool :=
  Ascii.eqb a "194" && Ascii.eqb b "160".

Definition white3 (a b c : ascii) : bool :=
  let n := N_of_ascii c in
  Ascii.eqb a "225" && Ascii.eqb b "154" && Ascii.eqb c "128"
  || Ascii.eqb a "226" && Ascii.eqb b "128"
     && ((128 <=? n)%N && (n <=? 138)%N
         || Ascii.eqb c "168" || Ascii.eqb c "169" || Ascii.eqb c "175")
  || Ascii.eqb a "226" && Ascii.eqb b "129" && Ascii.eqb c "159"
  || Ascii.eqb a "227" && Ascii.eqb b "128" && Ascii.eqb c "128"
  || Ascii.eqb a "239" && Ascii.eqb b "187" && Ascii.eqb c "191".

(** The white space at the front is dropped; [w2] and [w3] recognise
    the characters of two and of three bytes. *)
Fixpoint strip (w2 : ascii → ascii → bool) (w3 : ascii → ascii → ascii → bool)
    (s : string) : string :=
  match s with
  | String a s1 =>
      if white1 a then strip w2 w3 s1
      else match s1 with
           | String b s2 =>
               if w2 a b then strip w2 w3 s2
               else match s2 with
                    | String c s3 => if w3 a b c then strip w2 w3 s3 else s
                    | EmptyString => s
                    end
           | EmptyString => s
           end
  | EmptyString => EmptyString
  end.

Definition trimStart (s : string) : string := strip white2 white3 s.

(** At the end the bytes of a character are met last byte first. *)
Definition trimEnd (s : string) : string :=
  String.rev (strip (λ a b, white2 b a) (λ a b c, white3 c b a) (String.rev s)).

Definition trim (s : string) : string := trimEnd (trimStart s).

(** A string in condition position: the empty string is falsy. *)
Definition truthy (s : string) : bool :=
  match s with
  | EmptyString => false
  | String _ _ => true
  end.

(** [a[i] = v] on an array: in range it overwrites, past the end it
    grows the array and leaves holes in between. *)
Definition js_set {A} (i : nat) (v : A) (a : list (option A)) : list (option A) :=
  if decide (i < length a) then <[i := Some v]> a
  else a ++ replicate (i - length a) None ++ [Some v].

(** [a[i]] : a hole and an index out of range both read [undefined]. *)
Definition js_get {A} (i : nat) (a : list (option A)) : option A :=
  mjoin (a !! i).

End Js.

(** ** The chat page *)

Module Chat.
Import Js.

Inductive Role := user | assistant.

Record ChatMessage := { role : Role; content : string }.

(** The fields of a model entry that [send] reads. *)
Record Model := {
  id : string;
  provider : option string;
  downloaded : option bool
}.

(** The React state of [ChatPage], plus the heap of [AbortController]
    objects: [controllers !! c] is the [aborted] flag of the signal of
    controller [c]; [new AbortController()] appends a fresh one. *)
Record State := {
  models : list Model;
  model : string;
  messages : list (option ChatMessage);
  input : string;
  loading : bool;
  currentReasoning : string;
  chatId : option nat;
  assistantReasoning : gmap nat string;
  contentStarted : bool;
  abortController : option nat;
  controllers : list bool
}.

Definition setMessages (f : list (option ChatMessage) → list (option ChatMessage))
    (s : State) : State :=
  {| models := models s; model := model s; messages := f (messages s);
     input := input s; loading := loading s;
     currentReasoning := currentReasoning s; chatId := chatId s;
     assistantReasoning := assistantReasoning s;
     contentStarted := contentStarted s;
     abortController := abortController s;
     controllers := controllers s |}.

Definition setInput (v : string) (s : State) : State :=
  {| models := models s; model := model s; messages := messages s;
     input := v; loading := loading s;
     currentReasoning := currentReasoning s; chatId := chatId s;
     assistantReasoning := assistantReasoning s;
     contentStarted := contentStarted s;
     abortController := abortController s;
     controllers := controllers s |}.

Definition setLoading (v : bool) (s : State) : State :=
  {| models := models s; model := model s; messages := messages s;
     input := input s; loading := v;
     currentReasoning := currentReasoning s; chatId := chatId s;
     assistantReasoning := assistantReasoning s;
     contentStarted := contentStarted s;
     abortController := abortController s;
     controllers := controllers s |}.

Definition setCurrentReasoning (f : string → string) (s : State) : State :=
  {| models := models s; model := model s; messages := messages s;
     input := input s; loading := loading s;
     currentReasoning := f (currentReasoning s); chatId := chatId s;
     assistantReasoning := assistantReasoning s;
     contentStarted := contentStarted s;
     abortController := abortController s;
     controllers := controllers s |}.

Definition setChatId (v : option nat) (s : State) : State :=
  {| models := models s; model := model s; messages := messages s;
     input := input s; loading := loading s;
     currentReasoning := currentReasoning s; chatId := v;
     assistantReasoning := assistantReasoning s;
     contentStarted := contentStarted s;
     abortController := abortController s;
     controllers := controllers s |}.

Definition setAssistantReasoning (f : gmap nat string → gmap nat string)
    (s : State) : State :=
  {| models := models s; model := model s; messages := messages s;
     input := input s; loading := loading s;
     currentReasoning := currentReasoning s; chatId := chatId s;
     assistantReasoning := f (assistantReasoning s);
     contentStarted := contentStarted s;
     abortController := abortController s;
     controllers := controllers s |}.

Definition setContentStarted (v : bool) (s : State) : State :=
  {| models := models s; model := model s; messages := messages s;
     input := input s; loading := loading s;
     currentReasoning := currentReasoning s; chatId := chatId s;
     assistantReasoning := assistantReasoning s;
     contentStarted := v;
     abortController := abortController s;
     controllers := controllers s |}.

Definition setAbortController (v : option nat) (s : State) : State :=
  {| models := models s; model := model s; messages := messages s;
     input := input s; loading := loading s;
     currentReasoning := currentReasoning s; chatId := chatId s;
     assistantReasoning := assistantReasoning s;
     contentStarted := contentStarted s;
     abortController := v; controllers := controllers s |}.

(** [new AbortController()]: a fresh controller object. *)
Definition newAbortController (s : State) : nat * State :=
  (length (controllers s),
   {| models := models s; model := model s; messages := messages s;
      input := input s; loading := loading s;
      currentReasoning := currentReasoning s; chatId := chatId s;
      assistantReasoning := assistantReasoning s;
      contentStarted := contentStarted s;
      abortController := abortController s;
      controllers := controllers s ++ [false] |}).

(** [controller.abort()]. *)
Definition abort (c : nat) (s : State) : State :=
  {| models := models s; model := model s; messages := messages s;
     input := input s; loading := loading s;
     currentReasoning := currentReasoning s; chatId := chatId s;
     assistantReasoning := assistantReasoning s;
     contentStarted := contentStarted s;
     abortController := abortController s;
     controllers := <[c := true]> (controllers s) |}.

(** [signal.aborted] *)
Definition signal_aborted (c : nat) (s : State) : bool :=
  bool_decide (controllers s !! c = Some true).

(** What one invocation of [send] keeps in its closure after its
    synchronous prefix.  The [const] bindings of the render in which this
    [send] was created stay what they were for the whole invocation; the
    state setters act on the live state. *)
Record Session := {
  assistantIndex : nat;
  controller : nat;
  closure_currentReasoning : string;
  closure_contentStarted : bool;
  request_model : string;
  request_history : list (option ChatMessage);
  request_chatId : option nat
}.

(** [selectedModel?.provider === "opensource" &&
     selectedModel?.downloaded === false] *)
Definition needsDownload (m : option Model) : bool :=
  match m with
  | Some m =>
      bool_decide (provider m = Some "opensource")
      && bool_decide (downloaded m = Some false)
  | None => false
  end.

(** [send], lines 64-84: the guards and the synchronous prefix up to the
    call of [streamChat].  [render] is the state of the render that
    created this closure, [live] the state the setters act on.  [None]
    is an early [return]. *)
Definition send (render live : State) : option Session * State :=
  if negb (truthy (trim (input render))) || negb (truthy (model render))
  then (None, live)
  else
    let selectedModel :=
      find (λ m, bool_decide (id m = model render)) (models render) in
    if needsDownload selectedModel then (None, live)
    else
      let userMsg := {| role := user; content := trim (input render) |} in
      let live :=
        setMessages
          (λ prev, prev ++ [Some userMsg;
                            Some {| role := assistant; content := "" |}])
          live in
      let live := setCurrentReasoning (λ _, "") live in
      let live := setContentStarted false live in
      let live := setInput "" live in
      let live := setLoading true live in
      let assistantIndex := length (messages render) + 1 in
      let '(controller, live) := newAbortController live in
      let live := setAbortController (Some controller) live in
      (Some {| assistantIndex := assistantIndex;
               controller := controller;
               closure_currentReasoning := currentReasoning render;
               closure_contentStarted := contentStarted render;
               request_model := model render;
               request_history := messages render ++ [Some userMsg];
               request_chatId := chatId render |},
       live).

(** The [onContent] handler, lines 87-98. *)
Definition onContent (sess : Session) (chunk : string) (live : State) : State :=
  let live :=
    if negb (closure_contentStarted sess)
    then setContentStarted true live else live in
  setMessages
    (λ prev,
       let existing := js_get (assistantIndex sess) prev in
       let old := match existing with
                  | Some m => content m
                  | None => ""
                  end in
       js_set (assistantIndex sess)
         {| role := assistant; content := old +:+ chunk |} prev)
    live.

(** The [onReasoning] handler, line 99. *)
Definition onReasoning (chunk : string) (live : State) : State :=
  setCurrentReasoning (λ r, r +:+ chunk) live.

(** The [onMeta] handler, lines 100-103 (the refresh of the chat list
    is a request to the backend and leaves this state alone). *)
Definition onMeta (i : nat) (live : State) : State :=
  setChatId (Some i) live.

(** The [finally] block of [send], lines 112-119.  The [catch] block
    before it only logs. *)
Definition send_finally (sess : Session) (live : State) : State :=
  let live := setLoading false live in
  let live := setAbortController None live in
  if truthy (closure_currentReasoning sess) then
    let live :=
      setAssistantReasoning
        (λ prev, <[assistantIndex sess := closure_currentReasoning sess]> prev)
        live in
    setCurrentReasoning (λ _, "") live
  else live.

(** [stopStreaming], lines 122-128. *)
Definition stopStreaming (render live : State) : State :=
  match abortController render with
  | Some c =>
      if loading render then setLoading false (abort c live) else live
  | None => live
  end.

(** *** The stream and the page *)

(** The events of the wire, one constructor per channel (spec, 4.4). *)
Inductive WireEvent :=
| ContentDelta (chunk : string)
| ReasoningDelta (chunk : string)
| Metadata (conversation : nat)
| Unrecognized (tag : string).

(** Modelled from the spec: [streamChat] of lib/api, which Chat.tsx
    imports and which is not among the sources.  Per event it
    classifies the event into its channel and calls the handler of that
    channel, ignoring unrecognized tags; once the cancellation signal is
    aborted the transport read is aborted and no further delta is
    applied: the call throws ("Stream aborted"), which is [None] here. *)
Definition streamChat_event (sess : Session) (e : WireEvent) (live : State)
    : option State :=
  if signal_aborted (controller sess) live then None
  else Some match e with
            | ContentDelta chunk => onContent sess chunk live
            | ReasoningDelta chunk => onReasoning chunk live
            | Metadata i => onMeta i live
            | Unrecognized _ => live
            end.

(** The page: the live state and the invocations of [send] that are
    suspended in [await streamChat(...)]. *)
Record Page := { state : State; streams : list Session }.

(** What happens to the page.  React renders between two of these, so a
    handler invoked by one of them closes over the state as it is then. *)
Inductive Tick :=
| Type_ (v : string)           (* onChange of the input *)
| PressEnter                   (* onKeyDown, Enter without shift *)
| ClickButton                  (* the round button of the composer *)
| Arrive (c : nat) (e : WireEvent)  (* an event on the stream of controller c *)
| StreamEnds (c : nat).        (* that stream ends, or its transport fails *)

Definition call_send (p : Page) : Page :=
  match send (state p) (state p) with
  | (Some sess, st) => {| state := st; streams := streams p ++ [sess] |}
  | (None, st) => {| state := st; streams := streams p |}
  end.

Definition find_stream (c : nat) (p : Page) : option Session :=
  find (λ sess, bool_decide (controller sess = c)) (streams p).

Definition close_stream (c : nat) (p : Page) : list Session :=
  filter (λ sess, controller sess ≠ c) (streams p).

(** Composer.tsx: Enter calls [onSend] (lines 110-115); the button calls
    [sending ? onStop : onSend] and is disabled when
    [!sending && (!input.trim() || !model)]. *)
Definition tick (t : Tick) (p : Page) : Page :=
  match t with
  | Type_ v => {| state := setInput v (state p); streams := streams p |}
  | PressEnter => call_send p
  | ClickButton =>
      let st := state p in
      if loading st
      then {| state := stopStreaming st st; streams := streams p |}
      else if negb (truthy (trim (input st))) || negb (truthy (model st))
           then p
           else call_send p
  | Arrive c e =>
      match find_stream c p with
      | Some sess =>
          match streamChat_event sess e (state p) with
          | Some st => {| state := st; streams := streams p |}
          | None => {| state := send_finally sess (state p);
                       streams := close_stream c p |}
          end
      | None => p
      end
  | StreamEnds c =>
      match find_stream c p with
      | Some sess => {| state := send_finally sess (state p);
                        streams := close_stream c p |}
      | None => p
      end
  end.

Definition play (ts : list Tick) (p : Page) : Page :=
  foldl (λ p t, tick t p) p ts.

(** A page just mounted, with model [m] selected. *)
Definition mounted (m : string) : Page :=
  {| state := {| models := []; model := m; messages := []; input := "";
                 loading := false; currentReasoning := ""; chatId := None;
                 assistantReasoning := ∅; contentStarted := false;
                 abortController := None; controllers := [] |};
     streams := [] |}.

(** The text of the assistant turn at index [i]. *)
Definition content_at (i : nat) (p : Page) : option string :=
  content <$> js_get i (messages (state p)).

Definition contentDeltas (evs : list WireEvent) : list string :=
  omap (λ e, match e with ContentDelta c => Some c | _ => None end) evs.

Definition concat_str (l : list string) : string :=
  foldr String.append "" l.

(** The events of one stream, then its end. *)
Definition deliver (c : nat) (evs : list WireEvent) : list Tick :=
  (Arrive c <$> evs) ++ [StreamEnds c].

(** The text an assistant turn holds after one more event. *)
Definition apply_event (acc : string) (e : WireEvent) : string :=
  match e with
  | ContentDelta chunk => acc +:+ chunk
  | _ => acc
  end.

(** The invariant of an open, not cancelled stream: its assistant turn
    holds the text accumulated so far. *)
Definition streaming (sess : Session) (acc : string) (p : Page) : Prop :=
  find_stream (controller sess) p = Some sess
  ∧ signal_aborted (controller sess) (state p) = false
  ∧ js_get (assistantIndex sess) (messages (state p))
    = Some {| role := assistant; content := acc |}.

(** The session of [sess] is the active one: the stop button is wired to
    its controller. *)
Definition active (sess : Session) (p : Page) : Prop :=
  loading (state p) = true
  ∧ abortController (state p) = Some (controller sess)
  ∧ controller sess < length (controllers (state p)).

(** The stream of controller [c] is cancelled or already closed, and the
    transcript is [msgs]. *)
Definition cancelled (c : nat) (msgs : list (option ChatMessage)) (p : Page) : Prop :=
  messages (state p) = msgs
  ∧ loading (state p) = false
  ∧ (find_stream c p = None ∨ signal_aborted c (state p) = true).

(** A concrete conversation: on a page just mounted the user types a
    question and presses Enter. *)
Definition asked : State := state (tick (Type_ "Say hello") (mounted "m")).

Definition asked_session : Session :=
  {| assistantIndex := 1; controller := 0;
     closure_currentReasoning := ""; closure_contentStarted := false;
     request_model := "m";
     request_history := [Some {| role := user; content := "Say hello" |}];
     request_chatId := None |}.

Definition asked_started : State :=
  {| models := []; model := "m";
     messages := [Some {| role := user; content := "Say hello" |};
                  Some {| role := assistant; content := "" |}];
     input := ""; loading := true; currentReasoning := ""; chatId := None;
     assistantReasoning := ∅; contentStarted := false;
     abortController := Some 0; controllers := [false] |}.

End Chat.

(** ** The main process *)

Module Electron.
Import Js.

Inductive Platform := win32 | darwin | linux.

(** What the main process reads from its environment: whether
    [VITE_DEV_SERVER_URL] is set (the development profile),
    [process.platform] and [app.getVersion()]. *)
Record Config := {
  VITE_DEV_SERVER_URL : bool;
  platform : Platform;
  currentVersion : string
}.

Definition isWindows (cfg : Config) : bool :=
  match platform cfg with win32 => true | _ => false end.

(** *** The file system *)

Inductive Node := Dir | File (data : string).

(** The locations the main process builds with [path.join]: the packaged archive
    (resources/backend/[BACKEND_ARCHIVE_NAME]), paths below [runtimeDir]
    (userData/[BACKEND_RUNTIME_DIR]) and paths below the development
    [backendDir].  The relative part is written with "/"; the empty
    relative part is the directory itself. *)
Inductive Path :=
| archivePath
| runtimePath (rel : string)
| devPath (rel : string).

Definition join_rel (rel : string) (segments : list string) : string :=
  foldl (λ acc seg, if truthy acc then acc +:+ "/" +:+ seg else seg)
    rel segments.

Definition path_join (p : Path) (segments : list string) : Path :=
  match p with
  | archivePath => archivePath
  | runtimePath rel => runtimePath (join_rel rel segments)
  | devPath rel => devPath (join_rel rel segments)
  end.

Definition BACKEND_ARCHIVE_NAME : string := "backend.tar.gz".
Definition BACKEND_RUNTIME_DIR : string := "backend-runtime".
Definition BACKEND_VERSION_FILE : string := ".version".
Definition runtimeDir : Path := runtimePath "".
Definition versionFile : Path := path_join runtimeDir [BACKEND_VERSION_FILE].

(** The archive is the list of its entries in the order tar stores them,
    directory entries included; [None] when the file is missing.  The
    runtime directory is [None] when it does not exist. *)
Record Fs := {
  archive : option (list (string * Node));
  runtime : option (gmap string Node);
  devBackend : gmap string Node
}.

Definition existsSync (fs : Fs) (p : Path) : bool :=
  match p with
  | archivePath => bool_decide (is_Some (archive fs))
  | runtimePath rel =>
      match runtime fs with
      | Some d => if truthy rel then bool_decide (is_Some (d !! rel)) else true
      | None => false
      end
  | devPath rel =>
      if truthy rel then bool_decide (is_Some (devBackend fs !! rel)) else true
  end.

(** [fs.readFileSync(p, "utf-8")] below the runtime directory: it throws
    when there is no regular file at [p]. *)
Definition readFileSync (fs : Fs) (rel : string) : string + string :=
  match runtime fs with
  | Some d =>
      match d !! rel with
      | Some (File data) => inr data
      | Some Dir => inl "EISDIR"
      | None => inl "ENOENT"
      end
  | None => inl "ENOENT"
  end.

Definition set_runtime (r : option (gmap string Node)) (fs : Fs) : Fs :=
  {| archive := archive fs; runtime := r; devBackend := devBackend fs |}.

(** [fs.promises.rm(runtimeDir, { recursive: true, force: true })]. *)
Definition rm_rf (fs : Fs) : Fs := set_runtime None fs.

(** A removal that fails has removed some entries and left the others:
    [survive] tells which. *)
Definition rm_rf_partial (survive : string → bool) (fs : Fs) : Fs :=
  set_runtime (filter (λ kv, survive kv.1 = true) <$> runtime fs) fs.

(** [fs.promises.mkdir(runtimeDir, { recursive: true })]. *)
Definition mkdir_p (fs : Fs) : Fs :=
  set_runtime (Some (default ∅ (runtime fs))) fs.

(** [tar.x({ file: archivePath, cwd: runtimeDir })] into directory [d]:
    every entry is written at its path, in the order of the archive. *)
Definition unpack (entries : list (string * Node)) (d : gmap string Node)
    : gmap string Node :=
  foldl (λ d e, <[e.1 := e.2]> d) d entries.

(** [fs.promises.writeFile(versionFile, v, "utf-8")] into directory [d]. *)
Definition write_version (v : string) (d : gmap string Node) : gmap string Node :=
  <[BACKEND_VERSION_FILE := File v]> d.

(** *** The state of the process *)

Record BackendCommand := {
  command : Path;
  args : list string;
  cwd : Path;
  description : string
}.

(** Where the async arrow of [ensureProductionBackend] is suspended. *)
Inductive ExtractPc := AwaitRm | AwaitMkdir | AwaitUnpack | AwaitWriteFile.

(** A promise made by [ensureProductionBackend].  On a rejected one,
    [caught] tells whether the reaction registered with [.catch] has run. *)
Inductive Promise :=
| Pending (pc : ExtractPc)
| Fulfilled (v : Path)
| Rejected (err : string) (caught : bool).

Inductive Caller := WhenReady | Elsewhere.

(** An invocation of [startBackend]: suspended inside
    [resolveBackendCommand] at [await ensureProductionBackend()]; suspended
    at [await resolveBackendCommand()], whose promise has settled with [r];
    or returned, its own promise resolved ([inr]) or rejected ([inl]). *)
Inductive CallState :=
| InResolver (p : nat)
| AwaitingCommand (r : string + BackendCommand)
| Returned (r : string + unit).

Record Call := { caller : Caller; cstate : CallState }.

(** The operating system process behind a [ChildProcess] object:
    running, never started (the "error" event is due), or gone. *)
Inductive Child := Live | SpawnFailed | Gone.

Inductive Effect :=
| Rm (ok : bool)
| Mkdir (ok : bool)
| Unpack (ok : bool)
| WriteVersion (ok : bool) (v : string)
| Spawn (c : nat) (cmd : BackendCommand)
| Kill (c : nat) (signal : string)
| ConsoleError (msg : string)
| CreateWindow
| AppQuit
| HostExit.

(** The module-level variables of the main process ([backendProcess],
    [backendExtractPromise], [win]), the heap they point into
    ([promises], [children]), the suspended invocations of [startBackend]
    ([calls]), the file system, whether the host process has exited, and
    the effects so far, oldest first. *)
Record Main := {
  fs : Fs;
  backendProcess : option nat;
  backendExtractPromise : option nat;
  win : bool;
  promises : list Promise;
  calls : list Call;
  children : list Child;
  exited : bool;
  trace : list Effect
}.

Definition set_fs (f : Fs → Fs) (s : Main) : Main :=
  {| fs := f (fs s); backendProcess := backendProcess s;
     backendExtractPromise := backendExtractPromise s; win := win s;
     promises := promises s; calls := calls s; children := children s;
     exited := exited s; trace := trace s |}.

Definition set_backendProcess (v : option nat) (s : Main) : Main :=
  {| fs := fs s; backendProcess := v;
     backendExtractPromise := backendExtractPromise s; win := win s;
     promises := promises s; calls := calls s; children := children s;
     exited := exited s; trace := trace s |}.

Definition set_backendExtractPromise (v : option nat) (s : Main) : Main :=
  {| fs := fs s; backendProcess := backendProcess s;
     backendExtractPromise := v; win := win s;
     promises := promises s; calls := calls s; children := children s;
     exited := exited s; trace := trace s |}.

Definition set_win (v : bool) (s : Main) : Main :=
  {| fs := fs s; backendProcess := backendProcess s;
     backendExtractPromise := backendExtractPromise s; win := v;
     promises := promises s; calls := calls s; children := children s;
     exited := exited s; trace := trace s |}.

Definition set_promises (f : list Promise → list Promise) (s : Main) : Main :=
  {| fs := fs s; backendProcess := backendProcess s;
     backendExtractPromise := backendExtractPromise s; win := win s;
     promises := f (promises s); calls := calls s; children := children s;
     exited := exited s; trace := trace s |}.

Definition set_calls (f : list Call → list Call) (s : Main) : Main :=
  {| fs := fs s; backendProcess := backendProcess s;
     backendExtractPromise := backendExtractPromise s; win := win s;
     promises := promises s; calls := f (calls s); children := children s;
     exited := exited s; trace := trace s |}.

Definition set_children (f : list Child → list Child) (s : Main) : Main :=
  {| fs := fs s; backendProcess := backendProcess s;
     backendExtractPromise := backendExtractPromise s; win := win s;
     promises := promises s; calls := calls s; children := f (children s);
     exited := exited s; trace := trace s |}.

Definition set_exited (v : bool) (s : Main) : Main :=
  {| fs := fs s; backendProcess := backendProcess s;
     backendExtractPromise := backendExtractPromise s; win := win s;
     promises := promises s; calls := calls s; children := children s;
     exited := v; trace := trace s |}.

Definition emit (e : Effect) (s : Main) : Main :=
  {| fs := fs s; backendProcess := backendProcess s;
     backendExtractPromise := backendExtractPromise s; win := win s;
     promises := promises s; calls := calls s; children := children s;
     exited := exited s; trace := trace s ++ [e] |}.

(** A process that has just started. *)
Definition boot (fs0 : Fs) : Main :=
  {| fs := fs0; backendProcess := None; backendExtractPromise := None;
     win := false; promises := []; calls := []; children := [];
     exited := false; trace := [] |}.

(** *** Synchronous code: state and exceptions *)

Definition M (A : Type) : Type := Main → (string + A) * Main.

Definition ret {A} (a : A) : M A := λ s, (inr a, s).
Definition throw {A} (err : string) : M A := λ s, (inl err, s).
Definition bind {A B} (m : M A) (k : A → M B) : M B :=
  λ s, match m s with
       | (inr a, s') => k a s'
       | (inl err, s') => (inl err, s')
       end.
Definition try_catch {A} (body : M A) (handler : string → M A) : M A :=
  λ s, match body s with
       | (inr a, s') => (inr a, s')
       | (inl err, s') => handler err s'
       end.
Definition get {A} (f : Main → A) : M A := λ s, (inr (f s), s).
Definition modify (f : Main → Main) : M unit := λ s, (inr tt, f s).
(** [await] of a promise that has settled with [r]. *)
Definition settle {A} (r : string + A) : M A := λ s, (r, s).

Notation "x <- m ;; k" := (bind m (λ x, k))
  (at level 100, m at next level, right associativity).
Notation "m ;;; k" := (bind m (λ _, k))
  (at level 100, right associativity).

Definition run_ (m : M unit) (s : Main) : Main := (m s).2.

(** *** ensureProductionBackend *)

(** Lines 55-61: [needsExtract]. *)
Definition needsExtract (cfg : Config) : M bool :=
  fs0 <- get fs ;;
  if existsSync fs0 (path_join runtimeDir ["venv"]) then
    if existsSync fs0 versionFile then
      data <- settle (readFileSync fs0 BACKEND_VERSION_FILE) ;;
      let existingVersion := trim data in
      ret (negb (bool_decide (existingVersion = currentVersion cfg)))
    else ret true
  else ret true.

(** Lines 43-65: the async arrow from its start to where it first stops:
    suspended at [await fs.promises.rm(...)], returned [runtimeDir], or
    thrown. *)
Definition extract_begin (cfg : Config) : M Promise :=
  fs0 <- get fs ;;
  if negb (existsSync fs0 archivePath) then throw "Backend archive missing"
  else
    need <- needsExtract cfg ;;
    if need then ret (Pending AwaitRm) else ret (Fulfilled runtimeDir).

(** The promise of the async arrow; [.catch] (lines 78-80) registers its
    reaction on it, which is due when the promise is rejected. *)
Definition promise_of (r : string + Promise) : Promise :=
  match r with
  | inr p => p
  | inl err => Rejected err false
  end.

(** Lines 37-83.  The result is the promise the caller receives. *)
Definition ensureProductionBackend (cfg : Config) (s : Main) : nat * Main :=
  match backendExtractPromise s with
  | Some p => (p, s)
  | None =>
      let '(r, s) := extract_begin cfg s in
      let p := length (promises s) in
      let s := set_promises (λ ps, ps ++ [promise_of r]) s in
      (p, set_backendExtractPromise (Some p) s)
  end.

(** How an awaited file operation ends: well, or with a fault of the
    environment.  A failed removal leaves the entries [survive] selects; a
    failed unpack has written the first [written] entries. *)
Inductive IoOutcome :=
| IoOk
| IoFail (survive : string → bool) (written : nat).

Definition settle_promise (p : nat) (v : Promise) (s : Main) : Main :=
  set_promises (λ ps, <[p := v]> ps) s.

(** Lines 65-75: the awaited operation of promise [p] completes and the
    arrow runs on to its next await, to its return or to its failure. *)
Definition extract_resume (cfg : Config) (p : nat) (o : IoOutcome) (s : Main)
    : Main :=
  match promises s !! p with
  | Some (Pending AwaitRm) =>
      match o with
      | IoOk =>
          settle_promise p (Pending AwaitMkdir)
            (emit (Rm true) (set_fs rm_rf s))
      | IoFail survive _ =>
          settle_promise p (Rejected "rm failed" false)
            (emit (Rm false) (set_fs (rm_rf_partial survive) s))
      end
  | Some (Pending AwaitMkdir) =>
      match o with
      | IoOk =>
          settle_promise p (Pending AwaitUnpack)
            (emit (Mkdir true) (set_fs mkdir_p s))
      | IoFail _ _ =>
          settle_promise p (Rejected "mkdir failed" false)
            (emit (Mkdir false) s)
      end
  | Some (Pending AwaitUnpack) =>
      match archive (fs s), runtime (fs s), o with
      | Some entries, Some d, IoOk =>
          settle_promise p (Pending AwaitWriteFile)
            (emit (Unpack true)
               (set_fs (set_runtime (Some (unpack entries d))) s))
      | Some entries, Some d, IoFail _ written =>
          settle_promise p (Rejected "tar failed" false)
            (emit (Unpack false)
               (set_fs (set_runtime (Some (unpack (take written entries) d))) s))
      | _, _, _ =>
          settle_promise p (Rejected "tar failed" false)
            (emit (Unpack false) s)
      end
  | Some (Pending AwaitWriteFile) =>
      match runtime (fs s), o with
      | Some d, IoOk =>
          settle_promise p (Fulfilled runtimeDir)
            (emit (WriteVersion true (currentVersion cfg))
               (set_fs (set_runtime (Some (write_version (currentVersion cfg) d))) s))
      | _, _ =>
          settle_promise p (Rejected "writeFile failed" false)
            (emit (WriteVersion false (currentVersion cfg)) s)
      end
  | _ => s
  end.

(** Lines 78-80: the reaction registered with [.catch]. *)
Definition catch_reaction (p : nat) (s : Main) : Main :=
  match promises s !! p with
  | Some (Rejected err false) =>
      set_backendExtractPromise None (settle_promise p (Rejected err true) s)
  | _ => s
  end.

(** *** resolveBackendCommand *)

Definition uvicornArgs : list string :=
  ["-m"; "uvicorn"; "app.app:app"; "--host"; "127.0.0.1"; "--port"; "8000"].

Definition pythonIn (cfg : Config) (dir : Path) : Path :=
  if isWindows cfg then path_join dir ["venv"; "Scripts"; "python.exe"]
  else path_join dir ["venv"; "bin"; "python"].

Definition backendDir : Path := devPath "".

(** Lines 85-101: up to the return of the development profile, or up to
    [await ensureProductionBackend()]. *)
Definition resolveBackendCommand (cfg : Config) (s : Main) : CallState * Main :=
  if VITE_DEV_SERVER_URL cfg then
    (AwaitingCommand
       (inr {| command := pythonIn cfg backendDir; args := uvicornArgs;
               cwd := backendDir; description := "development venv" |}),
     s)
  else
    let '(p, s) := ensureProductionBackend cfg s in
    (InResolver p, s).

(** Lines 101-115: from the await on, the awaited promise having settled
    with [r]. *)
Definition resolveBackendCommand_resume (cfg : Config) (r : string + Path)
    : M BackendCommand :=
  dir <- settle r ;;
  let python := pythonIn cfg dir in
  fs0 <- get fs ;;
  if negb (existsSync fs0 python) then throw "Python runtime not found"
  else ret {| command := python; args := uvicornArgs; cwd := dir;
              description := "packaged backend runtime" |}.

(** *** startBackend *)

Definition createWindow (s : Main) : Main := emit CreateWindow (set_win true s).

(** The promise of an invocation of [startBackend] settles with [r].  The
    handler of [app.whenReady()] (lines 232-237) awaits it and goes on to
    [createWindow] when it resolves. *)
Definition return_call (who : Caller) (r : string + unit) (s : Main)
    : Call * Main :=
  ({| caller := who; cstate := Returned r |},
   match who, r with
   | WhenReady, inr _ => createWindow s
   | _, _ => s
   end).

(** Lines 119-125: the guard and the call of [resolveBackendCommand]. *)
Definition startBackend (cfg : Config) (who : Caller) (s : Main) : Main :=
  match backendProcess s with
  | Some _ =>
      let '(c, s) := return_call who (inr tt) s in
      set_calls (λ cs, cs ++ [c]) s
  | None =>
      let '(st, s) := resolveBackendCommand cfg s in
      set_calls (λ cs, cs ++ [{| caller := who; cstate := st |}]) s
  end.

(** [spawn(command, args, options)]: a new [ChildProcess] object.  When
    the executable does not exist no process starts and the object will
    emit "error".  [throws] is a synchronous failure of [spawn] itself. *)
Definition spawn (cmd : BackendCommand) (throws : bool) : M nat :=
  if throws then throw "spawn failed"
  else λ s,
    let c := length (children s) in
    let st := if existsSync (fs s) (command cmd) then Live else SpawnFailed in
    (inr c, emit (Spawn c cmd) (set_children (λ l, l ++ [st]) s)).

(** Lines 124-150: the [try] statement from the await on; the two
    listeners are registered on every child it spawns. *)
Definition startBackend_resume (r : string + BackendCommand) (throws : bool)
    : M unit :=
  try_catch
    (backendCommand <- settle r ;;
     c <- spawn backendCommand throws ;;
     modify (set_backendProcess (Some c)))
    (λ err, modify (emit (ConsoleError ("Error starting backend: " +:+ err)))).

(** Lines 137-140: the "error" listener. *)
Definition on_error (s : Main) : Main :=
  set_backendProcess None (emit (ConsoleError "Failed to start backend") s).

(** Lines 142-147: the "exit" listener. *)
Definition on_exit (code : option Z) (signal : option string) (s : Main) : Main :=
  let s :=
    match code with
    | Some n => if bool_decide (n ≠ 0%Z)
                then emit (ConsoleError "Backend process exited") s else s
    | None => s
    end in
  set_backendProcess None s.

(** *** Termination *)

(** [backendProcess.kill(signal)]; with a signal name that exists it does
    not throw. *)
Definition kill (c : nat) (signal : string) : M unit :=
  modify (emit (Kill c signal)).

(** Lines 190-201. *)
Definition cleanup : M unit :=
  bp <- get backendProcess ;;
  match bp with
  | Some c =>
      try_catch
        (kill c "SIGINT" ;;; modify (set_backendProcess None))
        (λ err,
           modify (emit (ConsoleError "Failed to kill backend process")) ;;;
           modify (set_backendProcess None))
  | None => ret tt
  end.

(** [process.exit()], and the end of the process in general: the "exit"
    listener of line 204 runs, then the host is gone. *)
Definition process_exit (s : Main) : Main :=
  set_exited true (emit HostExit (run_ cleanup s)).

(** Lines 205-212. *)
Definition on_SIGINT (s : Main) : Main := process_exit (run_ cleanup s).
Definition on_SIGTERM (s : Main) : Main := process_exit (run_ cleanup s).

(** Lines 222-224. *)
Definition on_before_quit (s : Main) : Main := run_ cleanup s.

(** [app.quit()] emits "before-quit" first; the process ends later. *)
Definition app_quit (s : Main) : Main := on_before_quit (emit AppQuit s).

(** Lines 214-220. *)
Definition on_window_all_closed (cfg : Config) (s : Main) : Main :=
  match platform cfg with
  | darwin => s
  | _ => set_win false (app_quit (run_ cleanup s))
  end.

(** *** The event loop *)

(** What the event loop of the main process runs, one at a time.
    [AppReady] is the handler of [app.whenReady()]; [CallStartBackend] is
    any other invocation of [startBackend]. *)
Inductive Action :=
| AppReady
| CallStartBackend
| IoDone (p : nat) (o : IoOutcome)
| RunCatch (p : nat)
| ResumeResolver (i : nat)
| ResumeStart (i : nat) (spawnThrows : bool)
| ChildError (c : nat)
| ChildExit (c : nat) (code : option Z) (signal : option string)
| SigInt
| SigTerm
| WindowAllClosed
| BeforeQuit
| ProcessExit.

Definition set_call (i : nat) (c : Call) (s : Main) : Main :=
  set_calls (λ cs, <[i := c]> cs) s.

Definition set_child (c : nat) (st : Child) (s : Main) : Main :=
  set_children (λ l, <[c := st]> l) s.

(** A continuation runs only when what it awaits has settled; on a
    rejected promise the [.catch] reaction, registered first, runs first.
    An action that is not due leaves the state as it is. *)
Definition exec (cfg : Config) (a : Action) (s : Main) : Main :=
  if exited s then s
  else match a with
  | AppReady => startBackend cfg WhenReady s
  | CallStartBackend => startBackend cfg Elsewhere s
  | IoDone p o => extract_resume cfg p o s
  | RunCatch p => catch_reaction p s
  | ResumeResolver i =>
      match calls s !! i with
      | Some {| caller := who; cstate := InResolver p |} =>
          let settled :=
            match promises s !! p with
            | Some (Fulfilled v) => Some (inr v)
            | Some (Rejected err true) => Some (inl err)
            | _ => None
            end in
          match settled with
          | Some r =>
              let '(cmd, s) := resolveBackendCommand_resume cfg r s in
              set_call i {| caller := who; cstate := AwaitingCommand cmd |} s
          | None => s
          end
      | _ => s
      end
  | ResumeStart i throws =>
      match calls s !! i with
      | Some {| caller := who; cstate := AwaitingCommand r |} =>
          let '(res, s) := startBackend_resume r throws s in
          let '(c, s) := return_call who res s in
          set_call i c s
      | _ => s
      end
  | ChildError c =>
      match children s !! c with
      | Some SpawnFailed => on_error (set_child c Gone s)
      | _ => s
      end
  | ChildExit c code signal =>
      match children s !! c with
      | Some Live => on_exit code signal (set_child c Gone s)
      | _ => s
      end
  | SigInt => on_SIGINT s
  | SigTerm => on_SIGTERM s
  | WindowAllClosed => on_window_all_closed cfg s
  | BeforeQuit => on_before_quit s
  | ProcessExit => process_exit s
  end.

Definition run (cfg : Config) (acts : list Action) (s : Main) : Main :=
  foldl (λ s a, exec cfg a s) s acts.

(** *** Observations *)

Definition is_unpack (e : Effect) : bool :=
  match e with Unpack _ => true | _ => false end.
Definition is_spawn (e : Effect) : bool :=
  match e with Spawn _ _ => true | _ => false end.
Definition is_write_version (e : Effect) : bool :=
  match e with WriteVersion _ _ => true | _ => false end.

Definition count (f : Effect → bool) (t : list Effect) : nat :=
  length (filter (λ e, f e = true) t).

(** The invocations of [startBackend] in a schedule.  The application
    itself has one, in the handler of [app.whenReady()]. *)
Definition is_start (a : Action) : bool :=
  match a with
  | AppReady | CallStartBackend => true
  | _ => false
  end.

Definition starts (acts : list Action) : nat :=
  length (filter (λ a, is_start a = true) acts).

(** The ways the host process goes down: the end of the process, SIGINT,
    SIGTERM, the last window closed (which quits everywhere but on
    macOS), and the application quitting. *)
Definition is_termination (cfg : Config) (a : Action) : bool :=
  match a with
  | ProcessExit | SigInt | SigTerm | BeforeQuit => true
  | WindowAllClosed => match platform cfg with darwin => false | _ => true end
  | _ => false
  end.

Definition pending (c : Call) : Prop :=
  match cstate c with
  | Returned _ => False
  | _ => True
  end.

(** The invariant of a process that starts its backend at most once:
    [budget] more starts may come; a child exists only once the one
    invocation has returned; a running child is the one the handle points
    to, or has been signalled already; and the host has not exited unless
    the state says so. *)
Definition supervised (budget : nat) (s : Main) : Prop :=
  length (calls s) + budget ≤ 1
  ∧ (children s ≠ [] → calls s ≠ [] ∧ ∀ c, c ∈ calls s → ¬ pending c)
  ∧ length (children s) ≤ 1
  ∧ (∀ c, children s !! c = Some Live →
          backendProcess s = Some c ∨ Kill c "SIGINT" ∈ trace s)
  ∧ (HostExit ∈ trace s → exited s = true).

(** *** The installed runtime *)

(** The marker and the payload of a runtime directory. *)
Definition marker (fs0 : Fs) : option Node :=
  runtime fs0 ≫= (λ d, d !! BACKEND_VERSION_FILE).

Definition payload (fs0 : Fs) : option Node :=
  runtime fs0 ≫= (λ d, d !! "venv").

(** The condition for a re-extraction: the payload is absent, or the
    marker is absent, or what the marker holds, trimmed, is not the
    current version. *)
Definition outdated (cfg : Config) (fs0 : Fs) : Prop :=
  payload fs0 = None ∨ marker fs0 = None
  ∨ ∃ data, marker fs0 = Some (File data) ∧ trim data ≠ currentVersion cfg.

(** The same condition with the content of the marker compared as it
    is, which is how the specification words it. *)
Definition outdated_as_stated (cfg : Config) (fs0 : Fs) : Prop :=
  payload fs0 = None ∨ marker fs0 = None
  ∨ ∃ data, marker fs0 = Some (File data) ∧ data ≠ currentVersion cfg.

(** Promise [p] is the arrow suspended at its first step, the removal. *)
Definition extracting (p : nat) (s : Main) : Prop :=
  promises s !! p = Some (Pending AwaitRm).

(** *** Invariants of the start *)

(** No invocation of [startBackend] has ended with its promise rejected. *)
Definition never_rejected (s : Main) : Prop :=
  ∀ c, c ∈ calls s → ∀ err, cstate c ≠ Returned (inl err).

(** The effects of the extraction. *)
Definition is_fs_effect (e : Effect) : bool :=
  match e with
  | Rm _ | Mkdir _ | Unpack _ | WriteVersion _ _ => true
  | _ => false
  end.

(** The start of the application before its spawn: the one invocation,
    of the [whenReady] handler, is in state [w]; there is no child, no
    window yet, and nothing but the extraction has had an effect. *)
Definition prestart (w : CallState) (s : Main) : Prop :=
  backendProcess s = None ∧ children s = []
  ∧ calls s = [{| caller := WhenReady; cstate := w |}]
  ∧ win s = false ∧ exited s = false
  ∧ Forall (λ e, is_fs_effect e = true) (trace s).

(** The file operations a promise still has before it. *)
Definition rank (p : Promise) : nat :=
  match p with
  | Pending AwaitRm => 4
  | Pending AwaitMkdir => 3
  | Pending AwaitUnpack => 2
  | Pending AwaitWriteFile => 1
  | _ => 0
  end.

(** The state in which the start of the application ends. *)
Definition started (s : Main) : Prop :=
  calls s = [{| caller := WhenReady; cstate := Returned (inr tt) |}]
  ∧ win s = true ∧ exited s = false
  ∧ (∀ p e b, backendExtractPromise s = Some p →
              promises s !! p ≠ Some (Rejected e b))
  ∧ ∃ pre, Forall (λ e, is_fs_effect e = true) pre
      ∧ ((∃ msg, trace s = pre ++ [ConsoleError msg; CreateWindow]
                 ∧ backendProcess s = None)
         ∨ (∃ cmd, trace s = pre ++ [Spawn 0 cmd; CreateWindow]
                   ∧ backendProcess s = Some 0)).

(** *** A concrete installation *)

Definition prod : Config :=
  {| VITE_DEV_SERVER_URL := false; platform := linux;
     currentVersion := "1.1.0" |}.

Definition dev : Config :=
  {| VITE_DEV_SERVER_URL := true; platform := linux;
     currentVersion := "1.1.0" |}.

Definition bundle : list (string * Node) :=
  [("app", Dir); ("app/app.py", File "app = FastAPI()");
   ("venv", Dir); ("venv/bin", Dir); ("venv/bin/python", File "ELF")].

(** A packaged installation whose runtime was extracted by version 1.0.0. *)
Definition fs_upgrade : Fs :=
  {| archive := Some bundle;
     runtime := Some (write_version "1.0.0" (unpack bundle ∅));
     devBackend := ∅ |}.

(** The same, the marker ending in a line feed. *)
Definition fs_marker_newline : Fs :=
  {| archive := Some bundle;
     runtime := Some (<[BACKEND_VERSION_FILE := File "1.1.0
"]> (unpack bundle ∅));
     devBackend := ∅ |}.

(** A packaged installation on its first launch. *)
Definition fs_first_launch : Fs :=
  {| archive := Some bundle; runtime := None; devBackend := ∅ |}.

(** A development checkout with its venv, and one without. *)
Definition fs_dev : Fs :=
  {| archive := None; runtime := None;
     devBackend := {[ "venv/bin/python" := File "ELF" ]} |}.

Definition fs_dev_no_venv : Fs :=
  {| archive := None; runtime := None; devBackend := ∅ |}.

(** A packaged installation whose archive is missing. *)
Definition fs_no_archive : Fs :=
  {| archive := None; runtime := None; devBackend := ∅ |}.

(** The start of the application when nothing else happens: the handler
    of [app.whenReady()], the file operations of the extraction with
    their outcomes, the [.catch] reaction, and the two continuations. *)
Definition startup (o1 o2 o3 o4 : IoOutcome) (spawnThrows : bool) : list Action :=
  [AppReady; IoDone 0 o1; IoDone 0 o2; IoDone 0 o3; IoDone 0 o4; RunCatch 0;
   ResumeResolver 0; ResumeStart 0 spawnThrows].

End Electron.

(** ** Invariants of the main process over all schedules *)

Module Schedules.
Import Js Electron.

(** A rejected promise whose [.catch] reaction (lines 78-80) has run. *)
Definition is_caught (P : Promise) : bool :=
  match P with
  | Rejected _ true => true
  | _ => false
  end.

(** Lines 38-40 with 78-80: a promise of [ensureProductionBackend] that
    its [.catch] reaction has not cleared is the one
    [backendExtractPromise] holds. *)
Definition guarded (s : Main) : Prop :=
  ∀ i P, promises s !! i = Some P → is_caught P = false →
         backendExtractPromise s = Some i.

(** The extraction has completed: the guard holds a fulfilled promise. *)
Definition extracted (s : Main) : Prop :=
  ∃ p v, backendExtractPromise s = Some p
         ∧ promises s !! p = Some (Fulfilled v).

(** Every command an invocation of [startBackend] is about to spawn
    names an executable that exists, the extraction having completed. *)
Definition command_ready (s : Main) : Prop :=
  ∀ i c cmd, calls s !! i = Some c → cstate c = AwaitingCommand (inr cmd) →
             existsSync (fs s) (command cmd) = true ∧ extracted s.

Definition is_kill (c : nat) (e : Effect) : bool :=
  match e with
  | Kill c' _ => bool_decide (c' = c)
  | _ => false
  end.

(** The handle points to a child that exists and has not been signalled;
    no child has been signalled twice; a child to come has not been
    signalled. *)
Definition signalled_once (s : Main) : Prop :=
  (∀ c, count (is_kill c) (trace s) ≤ 1)
  ∧ (∀ c, backendProcess s = Some c →
          c < length (children s) ∧ count (is_kill c) (trace s) = 0)
  ∧ (∀ c, length (children s) ≤ c → count (is_kill c) (trace s) = 0).

(** Every command that has been spawned names a path that exists, the
    extraction having completed. *)
Definition spawned_exist (s : Main) : Prop :=
  ∀ c cmd, Spawn c cmd ∈ trace s →
           existsSync (fs s) (command cmd) = true ∧ extracted s.

(** The two overlapping invocations of [startBackend] of C3, run to
    their end in the development profile. *)
Definition two_starts : list Action :=
  [CallStartBackend; CallStartBackend; ResumeStart 0 false; ResumeStart 1 false].

(** The ways the host goes down (lines 204-224). *)
Definition termination_paths : list Action :=
  [ProcessExit; SigInt; SigTerm; WindowAllClosed; BeforeQuit].

(** The interpreter [startBackend] would spawn is in place: that of the
    development tree, or that of a runtime whose extraction has
    completed. *)
Definition interpreter_in_place (cfg : Config) (s : Main) : Prop :=
  if VITE_DEV_SERVER_URL cfg
  then existsSync (fs s) (pythonIn cfg backendDir) = true
  else ∃ p v, backendExtractPromise s = Some p
              ∧ promises s !! p = Some (Fulfilled v)
              ∧ existsSync (fs s) (pythonIn cfg v) = true.

(** An invocation of [startBackend] in state [s] that runs to its end. *)
Definition start_to_end (s : Main) : list Action :=
  [CallStartBackend; ResumeResolver (length (calls s));
   ResumeStart (length (calls s)) false].

End Schedules.

(** ** The chat page: guards, downloads and the transcript *)

Module Conversation.
Import Js Chat.

(** A string of white space only, which is what [trim] empties. *)
Fixpoint blank (s : string) : bool :=
  match s with
  | String a s1 =>
      if white1 a then blank s1
      else match s1 with
           | String b s2 =>
               if white2 a b then blank s2
               else match s2 with
                    | String c s3 => white3 a b c && blank s3
                    | EmptyString => false
                    end
           | EmptyString => false
           end
  | EmptyString => true
  end.

Definition setModels (f : list Model → list Model) (s : State) : State :=
  {| models := f (models s); model := model s; messages := messages s;
     input := input s; loading := loading s;
     currentReasoning := currentReasoning s; chatId := chatId s;
     assistantReasoning := assistantReasoning s;
     contentStarted := contentStarted s;
     abortController := abortController s;
     controllers := controllers s |}.

(** *** Composer.tsx: download and delete *)

(** The state of the composer itself. *)
Record Composer := {
  downloading : bool;
  deleting : bool;
  showConfirmDialog : bool;
  showDeleteDialog : bool;
  alerts : list string
}.

(** The composer and the page whose [models] and [model] it is given. *)
Record Panel := { composer : Composer; page : State }.

(** [prev.map((m) => (m.id === model ? { ...m, downloaded: v } : m))],
    lines 57-59 and 77-79. *)
Definition mark_downloaded (model : string) (v : bool) (prev : list Model)
    : list Model :=
  (λ m, if bool_decide (id m = model)
        then {| id := id m; provider := provider m; downloaded := Some v |}
        else m) <$> prev.

(** Lines 50-52: [handleDownloadConfirm] up to [await downloadModel(model)];
    [None] is the early [return].  [render] is the panel of the render
    that created the closure. *)
Definition handleDownloadConfirm (render live : Panel) : option Panel :=
  if negb (truthy (model (page render))) || downloading (composer render)
  then None
  else Some {| composer :=
                 {| downloading := true;
                    deleting := deleting (composer live);
                    showConfirmDialog := false;
                    showDeleteDialog := showDeleteDialog (composer live);
                    alerts := alerts (composer live) |};
               page := page live |}.

(** Lines 54-66: from the await on; [failure] is the error
    [downloadModel] rejected with, if it did. *)
Definition handleDownloadConfirm_resume (render : Panel) (failure : option string)
    (live : Panel) : Panel :=
  let live :=
    match failure with
    | None =>
        {| composer := composer live;
           page := setModels (mark_downloaded (model (page render)) true)
                     (page live) |}
    | Some err =>
        {| composer :=
             {| downloading := downloading (composer live);
                deleting := deleting (composer live);
                showConfirmDialog := showConfirmDialog (composer live);
                showDeleteDialog := showDeleteDialog (composer live);
                alerts := alerts (composer live) ++ ["Download failed: " +:+ err] |};
           page := page live |}
    end in
  {| composer :=
       {| downloading := false;
          deleting := deleting (composer live);
          showConfirmDialog := showConfirmDialog (composer live);
          showDeleteDialog := showDeleteDialog (composer live);
          alerts := alerts (composer live) |};
     page := page live |}.

(** Lines 70-72: [handleDelete] up to [await deleteModel(model)]. *)
Definition handleDelete (render live : Panel) : option Panel :=
  if negb (truthy (model (page render))) || deleting (composer render)
  then None
  else Some {| composer :=
                 {| downloading := downloading (composer live);
                    deleting := true;
                    showConfirmDialog := showConfirmDialog (composer live);
                    showDeleteDialog := false;
                    alerts := alerts (composer live) |};
               page := page live |}.

(** Lines 74-86: from the await on. *)
Definition handleDelete_resume (render : Panel) (failure : option string)
    (live : Panel) : Panel :=
  let live :=
    match failure with
    | None =>
        {| composer := composer live;
           page := setModels (mark_downloaded (model (page render)) false)
                     (page live) |}
    | Some err =>
        {| composer :=
             {| downloading := downloading (composer live);
                deleting := deleting (composer live);
                showConfirmDialog := showConfirmDialog (composer live);
                showDeleteDialog := showDeleteDialog (composer live);
                alerts := alerts (composer live) ++ ["Delete failed: " +:+ err] |};
           page := page live |}
    end in
  {| composer :=
       {| downloading := downloading (composer live);
          deleting := false;
          showConfirmDialog := showConfirmDialog (composer live);
          showDeleteDialog := showDeleteDialog (composer live);
          alerts := alerts (composer live) |};
     page := page live |}.

(** Line 28 of Composer.tsx and line 68 of Chat.tsx. *)
Definition selectedModel (st : State) : option Model :=
  find (λ m, bool_decide (id m = model st)) (models st).

(** *** Chat.tsx: a new chat, and what the transcript shows *)

(** Lines 131-137 of Chat.tsx. *)
Definition onNewChat (live : State) : State :=
  setChatId None
    (setInput "" (setCurrentReasoning (λ _, "") (setMessages (λ _, []) live))).

(** Line 130. *)
Definition showWelcome (st : State) : bool :=
  bool_decide (length (messages st) = 0).

(** [messages.filter(Boolean)], line 17 of Messages.tsx: the holes of
    the array are dropped. *)
Definition visible (msgs : list (option ChatMessage)) : list ChatMessage :=
  omap (λ m, m) msgs.

(** *** Streams side by side *)

(** The events that arrive on the stream of controller [c]. *)
Definition arrivals (c : nat) (ts : list Tick) : list WireEvent :=
  omap (λ t, match t with
             | Arrive c' e => if bool_decide (c' = c) then Some e else None
             | _ => None
             end) ts.

(** The stream of [sess] is open and not cancelled. *)
Definition is_open (sess : Session) (p : Page) : Prop :=
  find_stream (controller sess) p = Some sess
  ∧ signal_aborted (controller sess) (state p) = false.

(** The invariant of the page: the transcript has no hole; the turn and
    the controller of every open stream exist; and no two open streams
    share a turn or a controller. *)
Definition well_formed (p : Page) : Prop :=
(None ∉ messages (state p))
  ∧ (∀ sess, sess ∈ streams p →
             assistantIndex sess < length (messages (state p))
             ∧ controller sess < length (controllers (state p)))
  ∧ (∀ s1 s2, s1 ∈ streams p → s2 ∈ streams p →
              controller s1 = controller s2 ∨ assistantIndex s1 = assistantIndex s2 →
              s1 = s2).

(** *** A concrete panel *)

(** An open-source model that has not been downloaded is selected and a
    message is typed. *)
Definition local_model (d : bool) : Model :=
  {| id := "llama"; provider := Some "opensource"; downloaded := Some d |}.

Definition idle_composer : Composer :=
  {| downloading := false; deleting := false; showConfirmDialog := true;
     showDeleteDialog := true; alerts := [] |}.

Definition panel (d : bool) : Panel :=
  {| composer := idle_composer;
     page := {| models := [local_model d]; model := "llama"; messages := [];
                input := "hi"; loading := false; currentReasoning := "";
                chatId := None; assistantReasoning := ∅;
                contentStarted := false; abortController := None;
                controllers := [] |} |}.

End Conversation.

(** ** The settings page and the sidebar *)

Module Settings.
Import Js.

(** The React state of [SettingsPage]; [saving] and [failure] are the
    [loading] and [error] of the source. *)
Record SettingsPage := {
  key : string;
  saved : bool;
  saving : bool;
  failure : option string
}.

Definition setKey (v : string) (s : SettingsPage) : SettingsPage :=
  {| key := v; saved := saved s; saving := saving s; failure := failure s |}.
Definition setSaved (v : bool) (s : SettingsPage) : SettingsPage :=
  {| key := key s; saved := v; saving := saving s; failure := failure s |}.
Definition setSaving (v : bool) (s : SettingsPage) : SettingsPage :=
  {| key := key s; saved := saved s; saving := v; failure := failure s |}.
Definition setFailure (v : option string) (s : SettingsPage) : SettingsPage :=
  {| key := key s; saved := saved s; saving := saving s; failure := v |}.

(** [save], lines 23-32: up to [await saveOpenRouterKey(trimmedKey)].
    The first component is the key of the request made, if one is. *)
Definition save (render live : SettingsPage) : option string * SettingsPage :=
  let trimmedKey := trim (key render) in
  if negb (truthy trimmedKey)
  then (None, setFailure (Some "API key is required") live)
  else (Some trimmedKey, setFailure None (setSaving true live)).

(** Lines 33-43: from the await on; [rejected] is the message of the
    error the request was rejected with, if it was.  Of the two timers,
    the first is the event [SavedExpires] below; the second leaves the
    page, after which nothing happens on it any more. *)
Definition save_resume (rejected : option string) (live : SettingsPage)
    : SettingsPage :=
  let live :=
    match rejected with
    | None => setSaved true live
    | Some msg => setFailure (Some msg) live
    end in
  setSaving false live.

(** The page with the requests of [saveOpenRouterKey] that have not
    settled yet, and the keys of all requests made. *)
Record Form := {
  fields : SettingsPage;
  inflight : list string;
  sent : list string
}.

Inductive FormEvent :=
| TypeKey (v : string)              (* onChange of the input, lines 140-143 *)
| EnterKey                          (* onKeyDown, lines 144-148 *)
| ClickSave                         (* the button, lines 171-172 *)
| Settles (rejected : option string) (* the oldest request settles *)
| SavedExpires.                     (* the timer of line 34 *)

Definition call_save (f : Form) : Form :=
  match save (fields f) (fields f) with
  | (Some k, st) =>
      {| fields := st; inflight := inflight f ++ [k]; sent := sent f ++ [k] |}
  | (None, st) => {| fields := st; inflight := inflight f; sent := sent f |}
  end.

(** Enter calls [save] unless [loading]; the button is disabled when
    [loading || !key.trim()]. *)
Definition form_step (e : FormEvent) (f : Form) : Form :=
  match e with
  | TypeKey v =>
      {| fields := setFailure None (setKey v (fields f));
         inflight := inflight f; sent := sent f |}
  | EnterKey => if saving (fields f) then f else call_save f
  | ClickSave =>
      if saving (fields f) || negb (truthy (trim (key (fields f))))
      then f else call_save f
  | Settles rejected =>
      match inflight f with
      | _ :: rest =>
          {| fields := save_resume rejected (fields f);
             inflight := rest; sent := sent f |}
      | [] => f
      end
  | SavedExpires =>
      {| fields := setSaved false (fields f);
         inflight := inflight f; sent := sent f |}
  end.

Definition form_run (es : list FormEvent) (f : Form) : Form :=
  foldl (λ f e, form_step e f) f es.

(** The page as it is mounted (lines 6-9). *)
Definition form_mounted : Form :=
  {| fields := {| key := ""; saved := false; saving := false; failure := None |};
     inflight := []; sent := [] |}.

(** Sidebar, [handleMouseMove] (lines 260-263): the width handed to
    [onWidthChange] for a pointer at [clientX], in CSS pixels. *)
Definition handleMouseMove (clientX : Z) : Z :=
  Z.max 200 (Z.min 500 clientX).

End Settings.

(** ** The packaging script and the build configuration

    [Packaging] embeds the script that builds backend.tar.gz (the file
    that defines [loadEnvFile], [hasMachOMagic], [shouldSkipEntry] and
    [packageBackend]) and the [.env] loader of the electron-builder
    configuration.  Line numbers are those of the script unless the
    configuration is named. *)

Module Packaging.
Import Js Electron.

(** *** Strings *)

(** [s.startsWith(p)]. *)
Definition startsWith (p s : string) : bool := String.prefix p s.

(** [s.includes(n)]. *)
Fixpoint includes (n s : string) : bool :=
  String.prefix n s
  || match s with
     | EmptyString => false
     | String _ s' => includes n s'
     end.

(** [s.split(sep)] for a separator of one character: the pieces between
    the separators, the empty ones included. *)
Fixpoint split_on (sep : ascii) (s : string) : list string :=
  match s with
  | EmptyString => [EmptyString]
  | String a s' =>
      if Ascii.eqb a sep then EmptyString :: split_on sep s'
      else match split_on sep s' with
           | x :: xs => String a x :: xs
           | [] => [String a EmptyString]
           end
  end.

(** [l.join(sep)]. *)
Fixpoint join (sep : string) (l : list string) : string :=
  match l with
  | [] => EmptyString
  | [x] => x
  | x :: xs => x +:+ sep +:+ join sep xs
  end.

(** *** The [.env] loaders *)

(** The line feed the loaders split the file at. *)
Definition LF : string := String "010" EmptyString.

(** The names every object inherits from [Object.prototype], which
    [process.env] has too, whatever the environment holds. *)
Definition inherited_names : list string :=
  ["constructor"; "__defineGetter__"; "__defineSetter__"; "hasOwnProperty";
   "__lookupGetter__"; "__lookupSetter__"; "isPrototypeOf";
   "propertyIsEnumerable"; "toString"; "valueOf"; "__proto__";
   "toLocaleString"].

(** [key in process.env], line 27: true of the variables that are set
    and of the inherited names. *)
Definition in_env (env : gmap string string) (key : string) : bool :=
  bool_decide (is_Some (env !! key)) || bool_decide (key ∈ inherited_names).

(** The body of the [forEach] of [loadEnvFile], lines 21-30, on
    [process.env]. *)
Definition loadEnvLine (env : gmap string string) (line : string)
    : gmap string string :=
  let trimmed := trim line in
  if negb (truthy trimmed) || startsWith "#" trimmed then env
  else match split_on "=" trimmed with
       | key :: rest =>
           if negb (truthy key) || bool_decide (length rest = 0) then env
           else
             let value := trim (join "=" rest) in
             if in_env env key then env
             else <[key := value]> env
       | [] => env
       end.

(** [loadEnvFile], lines 15-31; [file] is the content of [.env], if it
    exists. *)
Definition loadEnvFile (file : option string) (env : gmap string string)
    : gmap string string :=
  match file with
  | None => env
  | Some content => foldl loadEnvLine env (split_on "010" content)
  end.

(** The loader of the electron-builder configuration, lines 15-24 of
    that file. *)
Definition configEnvLine (env : gmap string string) (line : string)
    : gmap string string :=
  let trimmed := trim line in
  if truthy trimmed && negb (startsWith "#" trimmed) then
    match split_on "=" trimmed with
    | key :: valueParts =>
        if truthy key && negb (bool_decide (length valueParts = 0)) then
          let value := trim (join "=" valueParts) in
          <[trim key := value]> env
        else env
    | [] => env
    end
  else env.

Definition configEnv (file : option string) (env : gmap string string)
    : gmap string string :=
  match file with
  | None => env
  | Some content => foldl configEnvLine env (split_on "010" content)
  end.

(** *** Mach-O detection *)

Definition MACHO_MAGICS : list Z :=
  [0xfeedface; 0xfeedfacf; 0xcefaedfe; 0xcffaedfe; 0xcafebabe; 0xbebafeca]%Z.

Definition byteZ (b : Byte.byte) : Z := Z.of_N (Byte.to_N b).

(** [buffer.readUInt32BE(0)] and [buffer.readUInt32LE(0)] on four bytes. *)
Definition readUInt32BE (b0 b1 b2 b3 : Byte.byte) : Z :=
  (byteZ b0 * 2 ^ 24 + byteZ b1 * 2 ^ 16 + byteZ b2 * 2 ^ 8 + byteZ b3)%Z.

Definition readUInt32LE (b0 b1 b2 b3 : Byte.byte) : Z :=
  (byteZ b0 + byteZ b1 * 2 ^ 8 + byteZ b2 * 2 ^ 16 + byteZ b3 * 2 ^ 24)%Z.

(** [hasMachOMagic], lines 70-83.  [file] is the content of the file;
    [None] when it cannot be opened or read, which the [catch] turns into
    [false].  Fewer than four bytes read is [false] too. *)
Definition hasMachOMagic (file : option (list Byte.byte)) : bool :=
  match file with
  | Some (b0 :: b1 :: b2 :: b3 :: _) =>
      let be := readUInt32BE b0 b1 b2 b3 in
      let le := readUInt32LE b0 b1 b2 b3 in
      bool_decide (be ∈ MACHO_MAGICS) || bool_decide (le ∈ MACHO_MAGICS)
  | _ => false
  end.

(** The first four bytes of the files [hasMachOMagic] accepts. *)
Definition macho_headers : list (list Byte.byte) :=
  [[Byte.xfe; Byte.xed; Byte.xfa; Byte.xce];
   [Byte.xfe; Byte.xed; Byte.xfa; Byte.xcf];
   [Byte.xce; Byte.xfa; Byte.xed; Byte.xfe];
   [Byte.xcf; Byte.xfa; Byte.xed; Byte.xfe];
   [Byte.xca; Byte.xfe; Byte.xba; Byte.xbe];
   [Byte.xbe; Byte.xba; Byte.xfe; Byte.xca]].

(** *** The binaries to sign *)

Definition SIGN_EXTENSIONS : list string := [".so"; ".dylib"; ".a"].

Definition SIGN_BASENAMES : list string :=
  ["python"; "python3"; "python3.12"; "main"; "uvicorn"].

(** [s.toLowerCase()] on the letters of ASCII. *)
Definition lower (a : ascii) : ascii :=
  let n := nat_of_ascii a in
  if (65 <=? n) && (n <=? 90) then ascii_of_nat (n + 32) else a.

Fixpoint toLowerCase (s : string) : string :=
  match s with
  | EmptyString => EmptyString
  | String a s' => String (lower a) (toLowerCase s')
  end.

(** [path.basename(p)] and [path.extname(p)] of a path that does not
    end in "/": the last segment, and the part of it from its last dot on,
    which is empty when there is no dot, when the only dot leads the
    segment, and for "..". *)
Definition basename (p : string) : string :=
  default EmptyString (last (split_on "/" p)).

Definition extname (p : string) : string :=
  let base := basename p in
  match reverse (split_on "." base) with
  | [] | [_] => EmptyString
  | ext :: before =>
      if bool_decide (base = "..") || bool_decide (before = [EmptyString])
      then EmptyString
      else "." +:+ ext
  end.

(** [isLikelyMachO], lines 62-68. *)
Definition isLikelyMachO (filePath : string) : bool :=
  let ext := toLowerCase (extname filePath) in
  if bool_decide (ext ∈ SIGN_EXTENSIONS) then true
  else
    let base := basename filePath in
    if bool_decide (base ∈ SIGN_BASENAMES) then true else false.

(** What [readdir(dir, { withFileTypes: true })] lists, with what is
    below it: a regular file with its content ([None] when it cannot be
    read), a directory with its own listing, or an entry that is neither
    (a link, a socket). *)
#[warnings="-register-all"]
Inductive Entry :=
| FileEntry (name : string) (content : option (list Byte.byte))
| DirEntry (name : string) (entries : list Entry)
| OtherEntry (name : string).

Definition SKIPPED_DIRECTORIES : list string :=
  ["__pycache__"; "myenv"; "test_venv"].

(** One turn of the [for] loop, lines 91-108, in directory [current].
    The stack is kept with its top first; a directory is on it with its
    listing. *)
Definition visit (current : string)
    (acc : list (string * list Entry) * list string) (entry : Entry)
    : list (string * list Entry) * list string :=
  match entry with
  | DirEntry name entries =>
      if bool_decide (name ∈ SKIPPED_DIRECTORIES) then acc
      else ((current +:+ "/" +:+ name, entries) :: acc.1, acc.2)
  | FileEntry name content =>
      let fullPath := current +:+ "/" +:+ name in
      if negb (isLikelyMachO fullPath) then acc
      else if hasMachOMagic content then (acc.1, acc.2 ++ [fullPath])
           else acc
  | OtherEntry _ => acc
  end.

(** The [while] loop, lines 88-109; [fuel] bounds its turns. *)
Fixpoint collect_loop (fuel : nat) (stack : list (string * list Entry))
    (results : list string) : option (list string) :=
  match stack with
  | [] => Some results
  | (current, entries) :: stack =>
      match fuel with
      | 0 => None
      | S fuel =>
          let acc := foldl (visit current) (stack, results) entries in
          collect_loop fuel acc.1 acc.2
      end
  end.

(** [collectCandidateBinaries], lines 85-111, on the directory
    [rootDir] whose listing is [entries]. *)
Definition collectCandidateBinaries (fuel : nat) (rootDir : string)
    (entries : list Entry) : option (list string) :=
  collect_loop fuel [(rootDir, entries)] [].

(** The files below [current] a walk is to return: the regular files
    that look like Mach-O by name and by magic number, outside the
    directories that are skipped. *)
Fixpoint candidates (current : string) (entry : Entry) : list string :=
  match entry with
  | FileEntry name content =>
      if isLikelyMachO (current +:+ "/" +:+ name) && hasMachOMagic content
      then [current +:+ "/" +:+ name] else []
  | DirEntry name entries =>
      if bool_decide (name ∈ SKIPPED_DIRECTORIES) then []
      else (fix go (es : list Entry) : list string :=
              match es with
              | [] => []
              | e :: es => candidates (current +:+ "/" +:+ name) e ++ go es
              end) entries
  | OtherEntry _ => []
  end.

(** The directories a walk enters. *)
Fixpoint entered (entry : Entry) : nat :=
  match entry with
  | DirEntry name entries =>
      if bool_decide (name ∈ SKIPPED_DIRECTORIES) then 0
      else S ((fix go (es : list Entry) : nat :=
                 match es with
                 | [] => 0
                 | e :: es => entered e + go es
                 end) entries)
  | _ => 0
  end.

(** A virtual environment as the script finds it. *)
Definition venv_listing : list Entry :=
  [DirEntry "bin"
     [FileEntry "python"
        (Some [Byte.xcf; Byte.xfa; Byte.xed; Byte.xfe; Byte.x07]);
      FileEntry "activate" (Some [Byte.x23; Byte.x21]);
      OtherEntry "python3"];
   DirEntry "lib"
     [DirEntry "__pycache__"
        [FileEntry "x.so" (Some [Byte.xcf; Byte.xfa; Byte.xed; Byte.xfe])];
      FileEntry "_ssl.SO"
        (Some [Byte.xca; Byte.xfe; Byte.xba; Byte.xbe; Byte.x00]);
      FileEntry "notes.so" (Some [Byte.x7f; Byte.x45; Byte.x4c; Byte.x46]);
      FileEntry ".so" (Some [Byte.xcf; Byte.xfa; Byte.xed; Byte.xfe])];
   FileEntry "pyvenv.cfg" None].

(** *** The archive *)

(** [shouldSkipEntry], lines 165-172. *)
Definition shouldSkipEntry (relativePath : string) : bool :=
  startsWith "app/manager/myenv" relativePath
  || startsWith "app/manager/test_venv" relativePath
  || startsWith "venv/share/man" relativePath
  || includes "__pycache__" relativePath.

Definition requiredPaths : list string := ["app"; "venv"].

(** The entries handed to [tar.create], line 191. *)
Definition packedRoots : list string :=
  ["app"; "venv"; "requirements.txt"; "settings.py"; "settings.json"].

(** The backend directory is the list of what is in it, at any depth,
    by path relative to it, in the order in which tar walks it. *)
Definition existsIn (tree : list (string * Node)) (relativePath : string) : bool :=
  bool_decide (relativePath ∈ fst <$> tree).

(** [assertPathExists], lines 53-60. *)
Definition assertPathExists (tree : list (string * Node)) (relativePath : string)
    : string + unit :=
  if existsIn tree relativePath then inr tt
  else inl ("Missing backend path " +:+ relativePath).

(** [p] is [root] or lies below it. *)
Definition below (root p : string) : bool :=
  bool_decide (p = root) || startsWith (root +:+ "/") p.

(** [tar.create({ cwd, filter }, roots)]: every root is walked in turn
    and the entries at or below it that the filter accepts are added. *)
Definition tar_create (accept : string → bool) (roots : list string)
    (tree : list (string * Node)) : list (string * Node) :=
  roots ≫= (λ root, filter (λ e, below root e.1 && accept e.1 = true) tree).

(** [packageBackend], lines 174-197.  [signing] is how
    [signBackendBinaries] ends; signing rewrites files where they are and
    adds or removes none.  The archive of an earlier run, removed at line
    181, lies below none of the roots.  The result is the list of the
    entries of backend.tar.gz, or the error the script fails with. *)
Definition packageBackend (signing : string + unit) (tree : list (string * Node))
    : string + list (string * Node) :=
  match assertPathExists tree "app", assertPathExists tree "venv", signing with
  | inl err, _, _ => inl err
  | _, inl err, _ => inl err
  | _, _, inl err => inl err
  | inr _, inr _, inr _ =>
      inr (tar_create (λ pathName, negb (shouldSkipEntry pathName))
             (filter (λ entry, existsIn tree entry = true) packedRoots) tree)
  end.

(** The file system of an installation that ships the archive
    [entries] and has not been started yet. *)
Definition installed (entries : list (string * Node)) : Fs :=
  {| archive := Some entries; runtime := None; devBackend := ∅ |}.

(** The first launch of the packaged application, the four file
    operations of the extraction succeeding. *)
Definition first_launch : list Action :=
  AppReady :: (IoDone 0 <$> [IoOk; IoOk; IoOk; IoOk]).

(** A backend directory as the script finds it. *)
Definition backend_tree : list (string * Node) :=
  [("app", Dir); ("app/app.py", File "app = FastAPI()");
   ("app/__pycache__", Dir); ("app/__pycache__/app.pyc", File "pyc");
   ("app/manager", Dir); ("app/manager/myenv", Dir);
   ("app/manager/myenv/pyvenv.cfg", File "home");
   ("venv", Dir); ("venv/bin", Dir); ("venv/bin/python", File "ELF");
   ("venv/share", Dir); ("venv/share/man", Dir);
   ("venv/share/man/man1", Dir);
   ("requirements.txt", File "fastapi"); (".version", File "0.0.1");
   ("backend.tar.gz", File "old")].

End Packaging.

(** ** Facts about the chat page *)

Module ChatFacts.
Import Js Chat.

Lemma js_get_set {A} (i : nat) (v : A) (a : list (option A)) :
  js_get i (js_set i v a) = Some v.
Proof.
  unfold js_get, js_set. case_decide as Hi.
  - by rewrite list_lookup_insert_eq.
  - rewrite lookup_app_r by lia.
    rewrite lookup_app_r by (rewrite length_replicate; lia).
    rewrite length_replicate.
    by replace (i - length a - (i - length a)) with 0 by lia.
Qed.

Lemma append_cons (a : ascii) (s t : string) :
  String a s +:+ t = String a (s +:+ t).
Proof. reflexivity. Qed.

Lemma append_empty_l (s : string) : "" +:+ s = s.
Proof. reflexivity. Qed.

Lemma append_empty_r (s : string) : s +:+ "" = s.
Proof.
  induction s as [|a s IH]; [done|]. by rewrite append_cons, IH.
Qed.

Lemma append_assoc (a b c : string) : (a +:+ b) +:+ c = a +:+ (b +:+ c).
Proof.
  induction a as [|x a IH]; [done|]. by rewrite !append_cons, IH.
Qed.

(** What a successful [send] leaves behind. *)
Lemma send_started (st st1 : State) (sess : Session) :
  send st st = (Some sess, st1) →
  assistantIndex sess = length (messages st) + 1
  ∧ controller sess = length (controllers st)
  ∧ messages st1
    = messages st ++ [Some {| role := user; content := trim (input st) |};
                      Some {| role := assistant; content := "" |}]
  ∧ controllers st1 = controllers st ++ [false]
  ∧ loading st1 = true
  ∧ abortController st1 = Some (controller sess).
Proof.
  unfold send. intros H.
  destruct (negb (truthy (trim (input st))) || negb (truthy (model st)));
    [discriminate|].
  destruct (needsDownload _); [discriminate|].
  simpl in H. injection H as <- <-. simpl. done.
Qed.

Lemma apply_events_concat (evs : list WireEvent) (acc : string) :
  foldl apply_event acc evs = acc +:+ concat_str (contentDeltas evs).
Proof.
  revert acc. induction evs as [|e evs IH]; intros acc; simpl.
  - by rewrite append_empty_r.
  - rewrite IH. destruct e; simpl; try done.
    unfold contentDeltas, concat_str; simpl. by rewrite append_assoc.
Qed.

Lemma streaming_arrive (sess : Session) (acc : string) (p : Page) (e : WireEvent) :
  streaming sess acc p →
  streaming sess (apply_event acc e) (tick (Arrive (controller sess) e) p).
Proof.
  intros (Hf & Ha & Hg). unfold streaming, tick, streamChat_event.
  rewrite Hf, Ha. unfold find_stream in *. simpl.
  split; [done|]. split.
  - destruct e; simpl; try done.
    unfold onContent. by destruct (negb _).
  - destruct e; simpl; try done.
    rewrite js_get_set.
    destruct (negb _); simpl; by rewrite Hg.
Qed.

Lemma streaming_play (sess : Session) (evs : list WireEvent) (acc : string) (p : Page) :
  streaming sess acc p →
  streaming sess (foldl apply_event acc evs)
    (play (Arrive (controller sess) <$> evs) p).
Proof.
  revert acc p. induction evs as [|e evs IH]; intros acc p H; simpl; [done|].
  apply IH. by apply streaming_arrive.
Qed.

Lemma send_finally_messages (sess : Session) (st : State) :
  messages (send_finally sess st) = messages st.
Proof. unfold send_finally. by destruct (truthy _). Qed.

Lemma streaming_ends (sess : Session) (acc : string) (p : Page) :
  streaming sess acc p →
  content_at (assistantIndex sess) (tick (StreamEnds (controller sess)) p)
  = Some acc.
Proof.
  intros (Hf & _ & Hg). unfold tick, content_at. rewrite Hf. simpl.
  by rewrite send_finally_messages, Hg.
Qed.

Lemma send_streaming (st st1 : State) (sess : Session) :
  send st st = (Some sess, st1) →
  streaming sess "" {| state := st1; streams := [sess] |}.
Proof.
  intros H. destruct (send_started _ _ _ H) as (Hi & Hc & Hm & Hcs & _ & _).
  unfold streaming, find_stream, signal_aborted, js_get. simpl.
  rewrite bool_decide_eq_true_2 by done. split; [done|].
  rewrite Hcs, Hc, Hm, Hi. split.
  - apply bool_decide_eq_false_2.
    rewrite lookup_app_r by lia. rewrite Nat.sub_diag. simpl. congruence.
  - rewrite lookup_app_r by lia.
    by replace (length (messages st) + 1 - length (messages st)) with 1 by lia.
Qed.

Lemma play_app (ts1 ts2 : list Tick) (p : Page) :
  play (ts1 ++ ts2) p = play ts2 (play ts1 p).
Proof. unfold play. apply foldl_app. Qed.

Lemma play_one (t : Tick) (p : Page) : play [t] p = tick t p.
Proof. reflexivity. Qed.

(** C4. Streaming ordering: whatever events a session receives, once the
    stream has ended the assistant turn of that session holds the
    concatenation of its content deltas, in the order of arrival. *)
Theorem C4_content_is_concatenation_in_arrival_order
    (st st1 : State) (sess : Session) (evs : list WireEvent) :
  send st st = (Some sess, st1) →
  content_at (assistantIndex sess)
    (play (deliver (controller sess) evs) {| state := st1; streams := [sess] |})
  = Some (concat_str (contentDeltas evs)).
Proof.
  intros H. unfold deliver. rewrite play_app, play_one.
  rewrite (streaming_ends sess (foldl apply_event "" evs)).
  - by rewrite apply_events_concat.
  - apply streaming_play. by apply (send_streaming st).
Qed.

Lemma active_arrive (sess : Session) (acc : string) (p : Page) (e : WireEvent) :
  streaming sess acc p → active sess p →
  active sess (tick (Arrive (controller sess) e) p).
Proof.
  intros (Hf & Ha & _) (Hl & Hc & Hlen). unfold active, tick, streamChat_event.
  rewrite Hf, Ha.
  destruct e; simpl; try done.
  unfold onContent. by destruct (negb _).
Qed.

Lemma active_play (sess : Session) (evs : list WireEvent) (acc : string) (p : Page) :
  streaming sess acc p → active sess p →
  active sess (play (Arrive (controller sess) <$> evs) p).
Proof.
  revert acc p. induction evs as [|e evs IH]; intros acc p Hs Ha; [done|].
  simpl. apply (IH (apply_event acc e)).
  - by apply streaming_arrive.
  - by apply (active_arrive sess acc).
Qed.

Lemma send_active (st st1 : State) (sess : Session) :
  send st st = (Some sess, st1) →
  active sess {| state := st1; streams := [sess] |}.
Proof.
  intros H. destruct (send_started _ _ _ H) as (_ & Hc & _ & Hcs & Hl & Ha).
  unfold active. simpl. rewrite Hcs, Hc, length_app. simpl.
  repeat split; [done| by rewrite Ha, Hc |lia].
Qed.

(** A second cancellation finds nothing to cancel. *)
Lemma stopStreaming_idle (st : State) :
  loading st = false → stopStreaming st st = st.
Proof.
  intros H. unfold stopStreaming. rewrite H. by destruct (abortController st).
Qed.

(** The stop button on an active session: the signal is aborted, the
    transcript stays. *)
Lemma stop_cancels (sess : Session) (acc : string) (p : Page) :
  streaming sess acc p → active sess p →
  cancelled (controller sess) (messages (state p)) (tick ClickButton p).
Proof.
  intros _ (Hl & Hc & Hlen). unfold cancelled, tick, stopStreaming.
  rewrite Hl, Hc. simpl. repeat split. right.
  unfold signal_aborted. simpl. apply bool_decide_eq_true_2.
  by apply list_lookup_insert_eq.
Qed.

Lemma find_closed (c : nat) (p : Page) :
  find (λ sess, bool_decide (controller sess = c)) (close_stream c p) = None.
Proof.
  unfold close_stream. induction (streams p) as [|x l IH]; [done|].
  rewrite filter_cons. case_decide as Hx; [|done].
  simpl. by rewrite bool_decide_eq_false_2.
Qed.

Lemma cancelled_arrive (c : nat) (msgs : list (option ChatMessage)) (p : Page)
    (e : WireEvent) :
  cancelled c msgs p → cancelled c msgs (tick (Arrive c e) p).
Proof.
  intros H. pose proof H as (Hm & Hl & Hc). unfold tick.
  destruct (find_stream c p) as [sess|] eqn:Hf; [|exact H].
  destruct Hc as [?|Ha]; [congruence|].
  assert (controller sess = c) as Hcs.
  { unfold find_stream in Hf. apply find_some in Hf as [_ Hf].
    by apply bool_decide_eq_true_1 in Hf. }
  unfold streamChat_event. rewrite Hcs, Ha.
  unfold cancelled, find_stream. simpl.
  rewrite send_finally_messages, find_closed.
  repeat split; [done| |by left].
  unfold send_finally. by destruct (truthy _).
Qed.

Lemma cancelled_ends (c : nat) (msgs : list (option ChatMessage)) (p : Page) :
  cancelled c msgs p → cancelled c msgs (tick (StreamEnds c) p).
Proof.
  intros H. pose proof H as (Hm & Hl & Hc). unfold tick.
  destruct (find_stream c p) as [sess|] eqn:Hf; [|exact H].
  unfold cancelled, find_stream. simpl.
  rewrite send_finally_messages, find_closed.
  repeat split; [done| |by left].
  unfold send_finally. by destruct (truthy _).
Qed.

Lemma cancelled_play (c : nat) (msgs : list (option ChatMessage)) (evs : list WireEvent)
    (p : Page) :
  cancelled c msgs p → cancelled c msgs (play (deliver c evs) p).
Proof.
  unfold deliver. rewrite play_app, play_one. intros H.
  apply cancelled_ends. revert p H.
  induction evs as [|e evs IH]; intros p H; [done|].
  simpl. apply IH. by apply cancelled_arrive.
Qed.

(** C5. Cancellation preserves partial state: after the deltas [pre] the
    stop button is pressed; the assistant turn keeps the text of [pre],
    the events [post] that arrive afterwards change no message, and
    another cancellation, right after the first or after the session has
    unwound, changes no state. *)
Theorem C5_cancellation_keeps_partial_content
    (st st1 : State) (sess : Session) (pre post : list WireEvent) :
  send st st = (Some sess, st1) →
  let c := controller sess in
  let applied := play (Arrive c <$> pre) {| state := st1; streams := [sess] |} in
  let stopped := tick ClickButton applied in
  let unwound := play (deliver c post) stopped in
  content_at (assistantIndex sess) stopped
    = Some (concat_str (contentDeltas pre))
  ∧ messages (state unwound) = messages (state applied)
  ∧ content_at (assistantIndex sess) unwound
    = Some (concat_str (contentDeltas pre))
  ∧ stopStreaming (state stopped) (state stopped) = state stopped
  ∧ stopStreaming (state unwound) (state unwound) = state unwound.
Proof.
  intros H c applied stopped unwound.
  assert (streaming sess (foldl apply_event "" pre) applied) as Hs.
  { apply streaming_play. by apply (send_streaming st). }
  assert (active sess applied) as Ha.
  { apply (active_play sess pre ""); [by apply (send_streaming st)|].
    by apply (send_active st). }
  pose proof (stop_cancels _ _ _ Hs Ha) as Hstop.
  pose proof (cancelled_play _ _ post _ Hstop) as Hun.
  fold c stopped in Hstop. fold c stopped unwound in Hun.
  destruct Hs as (_ & _ & Hg).
  destruct Hstop as (Hm1 & Hl1 & _). destruct Hun as (Hm2 & Hl2 & _).
  rewrite apply_events_concat, append_empty_l in Hg.
  unfold content_at. rewrite Hm1, Hm2, Hg.
  repeat split; try done; by apply stopStreaming_idle.
Qed.

(** The deltas "Par", "ti", the stop button, then a late "al", through C5. *)
Lemma C5_parti :
  send asked asked = (Some asked_session, asked_started)
  ∧ content_at 1
      (play (deliver 0 [ContentDelta "al"])
         (tick ClickButton
            (play (Arrive 0 <$> [ContentDelta "Par"; ContentDelta "ti"])
               {| state := asked_started; streams := [asked_session] |})))
    = Some "Parti".
Proof.
  split; [reflexivity|].
  exact (proj1 (proj2 (proj2
    (C5_cancellation_keeps_partial_content asked asked_started asked_session
       [ContentDelta "Par"; ContentDelta "ti"] [ContentDelta "al"] eq_refl)))).
Defined.

(** Reasoning deltas leave every message alone. *)
Lemma onReasoning_messages (chunk : string) (st : State) :
  messages (onReasoning chunk st) = messages st.
Proof. reflexivity. Qed.

(** What the [finally] block attaches is the buffer as the closure of
    [send] saw it, whatever the live buffer holds by then. *)
Lemma send_finally_reasoning (sess : Session) (st : State) :
  assistantReasoning (send_finally sess st)
  = if truthy (closure_currentReasoning sess)
    then <[assistantIndex sess := closure_currentReasoning sess]>
           (assistantReasoning st)
    else assistantReasoning st.
Proof. unfold send_finally. by destruct (truthy _). Qed.

(** C6, on the code: the first session of a page receives the reasoning
    delta "think" and the content delta "ok" and ends.  The reasoning has
    stayed out of the messages, but nothing is attached to the assistant
    turn and the buffer still holds "think". *)
Theorem C6_reasoning_not_attached_at_termination :
  let p := play ([Type_ "Say hello"; PressEnter]
                ++ deliver 0 [ReasoningDelta "think"; ContentDelta "ok"])
             (mounted "m") in
  streams p = []
  ∧ loading (state p) = false
  ∧ content_at 1 p = Some "ok"
  ∧ assistantReasoning (state p) !! 1 = None
  ∧ currentReasoning (state p) = "think".
Proof. vm_compute. done. Qed.

(** The next session then attaches the reasoning of the previous one to
    its own turn, and drops its own. *)
Lemma C6_next_session_attaches_previous_reasoning :
  let p := play ([Type_ "Say hello"; PressEnter]
                ++ deliver 0 [ReasoningDelta "think"; ContentDelta "ok"]
                ++ [Type_ "And then?"; PressEnter]
                ++ deliver 1 [ReasoningDelta "plan"; ContentDelta "sure"])
             (mounted "m") in
  content_at 3 p = Some "sure"
  ∧ assistantReasoning (state p) !! 3 = Some "think"
  ∧ currentReasoning (state p) = "".
Proof. vm_compute. done. Qed.

(** [send] does not read [loading]. *)
Lemma send_ignores_loading (b : bool) (render live : State) :
  send (setLoading b render) live = send render live.
Proof. reflexivity. Qed.

(** C7, on the code: while the first session is streaming, the user types
    again and presses Enter.  [send] runs: a user turn and an assistant
    placeholder are appended and a second stream is open next to the
    first. *)
Theorem C7_second_send_while_loading_is_not_rejected :
  let p1 := play [Type_ "Say hello"; PressEnter; Arrive 0 (ContentDelta "Hel")]
              (mounted "m") in
  let p2 := play [Type_ "again"; PressEnter] p1 in
  loading (state p1) = true
  ∧ length (streams p1) = 1
  ∧ messages (state p2)
    = messages (state p1) ++ [Some {| role := user; content := "again" |};
                              Some {| role := assistant; content := "" |}]
  ∧ length (streams p2) = 2.
Proof. vm_compute. done. Qed.

(** The sequence "Hel", "lo", " world" of the specification, through C4. *)
Lemma C4_hello_world :
  send asked asked = (Some asked_session, asked_started)
  ∧ content_at 1
      (play (deliver 0 [ContentDelta "Hel"; ContentDelta "lo";
                       ContentDelta " world"])
         {| state := asked_started; streams := [asked_session] |})
    = Some "Hello world".
Proof.
  split; [reflexivity|].
  exact (C4_content_is_concatenation_in_arrival_order asked asked_started
           asked_session
           [ContentDelta "Hel"; ContentDelta "lo"; ContentDelta " world"]
           eq_refl).
Defined.

End ChatFacts.

(** ** Facts about the main process *)

Module ElectronFacts.
Import Js Electron.

(** *** Two starts, and a start without interpreter *)

(** C3, on the code: two invocations of [startBackend], the second made
    while the first is suspended at its await.  Both have passed the
    guard, both spawn: two children run and the handle knows the second
    only. *)
Theorem C3_two_concurrent_starts_spawn_two_children :
  let s := run dev [CallStartBackend; CallStartBackend;
                    ResumeStart 0 false; ResumeStart 1 false] (boot fs_dev) in
  count is_spawn (trace s) = 2
  ∧ children s = [Live; Live]
  ∧ backendProcess s = Some 1.
Proof. vm_compute. done. Qed.

(** The same in the production profile: the two invocations share one
    extraction, and spawn twice all the same. *)
Lemma C3_production_profile_too :
  let s := run prod ([CallStartBackend; CallStartBackend]
                     ++ (IoDone 0 <$> [IoOk; IoOk; IoOk; IoOk])
                     ++ [ResumeResolver 0; ResumeResolver 1;
                         ResumeStart 0 false; ResumeStart 1 false])
             (boot fs_first_launch) in
  count is_unpack (trace s) = 1
  ∧ count is_spawn (trace s) = 2
  ∧ children s = [Live; Live]
  ∧ backendProcess s = Some 1.
Proof. vm_compute. done. Qed.

(** C8, on the code: in the development profile the interpreter is
    missing.  [startBackend] calls [spawn] all the same and holds a
    handle; the failure only shows later, as the "error" event of the
    child. *)
Theorem C8_development_profile_spawns_without_interpreter :
  existsSync fs_dev_no_venv (pythonIn dev backendDir) = false
  ∧ let s := run dev [AppReady; ResumeStart 0 false] (boot fs_dev_no_venv) in
    count is_spawn (trace s) = 1
    ∧ backendProcess s = Some 0
    ∧ children s = [SpawnFailed]
    ∧ trace (exec dev (ChildError 0) s)
      = trace s ++ [ConsoleError "Failed to start backend"].
Proof. vm_compute. done. Qed.

(** *** The supervision invariant *)

Lemma cleanup_run (s : Main) :
  run_ cleanup s
  = match backendProcess s with
    | Some c => set_backendProcess None (emit (Kill c "SIGINT") s)
    | None => s
    end.
Proof. unfold run_, cleanup, bind, get. simpl. by destruct (backendProcess s). Qed.

Lemma supervised_budget (n m : nat) (s : Main) :
  n ≤ m → supervised m s → supervised n s.
Proof. intros Hn (H1 & H). split; [lia|done]. Qed.

Lemma ensure_frame (cfg : Config) (s : Main) :
  let s' := (ensureProductionBackend cfg s).2 in
  children s' = children s ∧ backendProcess s' = backendProcess s
  ∧ calls s' = calls s ∧ exited s' = exited s ∧ trace s' = trace s
  ∧ win s' = win s ∧ fs s' = fs s.
Proof.
  unfold ensureProductionBackend.
  destruct (backendExtractPromise s); [done|].
  unfold extract_begin, needsExtract, bind, get, throw, ret, settle.
  repeat case_match; simplify_eq/=; done.
Qed.

Lemma extract_resume_frame (cfg : Config) (p : nat) (o : IoOutcome) (s : Main) :
  let s' := extract_resume cfg p o s in
  children s' = children s ∧ backendProcess s' = backendProcess s
  ∧ calls s' = calls s ∧ exited s' = exited s ∧ win s' = win s
  ∧ backendExtractPromise s' = backendExtractPromise s
  ∧ (trace s' = trace s
     ∨ ∃ e, trace s' = trace s ++ [e] ∧ e ≠ HostExit ∧ is_spawn e = false).
Proof.
  unfold extract_resume.
  repeat case_match; simpl; repeat split; eauto; right; eexists; split; done.
Qed.

Lemma supervised_frame (n : nat) (s s' : Main) :
  children s' = children s → backendProcess s' = backendProcess s →
  calls s' = calls s → exited s' = exited s →
  (trace s' = trace s ∨ ∃ e, trace s' = trace s ++ [e] ∧ e ≠ HostExit) →
  supervised n s → supervised n s'.
Proof.
  intros Hc Hb Hk He Ht (H1 & H2 & H3 & H4 & H5).
  unfold supervised. rewrite Hc, Hb, Hk, He.
  split; [done|]. split; [done|]. split; [done|].
  destruct Ht as [->|(e & -> & Hne)]; [done|]. split.
  - intros c Hl. destruct (H4 c Hl); [by left|right].
    apply elem_of_app. by left.
  - intros [?|Hin%list_elem_of_singleton]%elem_of_app; [auto|congruence].
Qed.

Lemma supervised_no_child_while_pending (n : nat) (s : Main) (i : nat) (c : Call) :
  supervised n s → calls s !! i = Some c → pending c → children s = [].
Proof.
  intros (_ & H2 & _) Hi Hp.
  destruct (children s) as [|x l] eqn:Hc; [done|].
  destruct H2 as [_ H2]; [done|].
  destruct (H2 c); [|done]. apply list_elem_of_lookup. eauto.
Qed.

Lemma startBackend_supervised (cfg : Config) (who : Caller) (n : nat) (s : Main) :
  supervised (1 + n) s → supervised n (startBackend cfg who s).
Proof.
  intros (H1 & H2 & H3 & H4 & H5).
  assert (calls s = [] ∧ n = 0) as [Hk ->].
  { destruct (calls s); simpl in *; [split; [done|lia]|lia]. }
  assert (children s = []) as Hc.
  { destruct (children s); [done|]. destruct H2 as [? _]; done. }
  unfold startBackend.
  destruct (backendProcess s) as [b|] eqn:Hb.
  - unfold supervised. destruct who; simpl; rewrite ?Hk, ?Hc, ?Hb; simpl.
    + repeat split; try done; try lia.
      intros [?|Hin%list_elem_of_singleton]%elem_of_app; [auto|congruence].
    + repeat split; try done; lia.
  - unfold resolveBackendCommand.
    destruct (VITE_DEV_SERVER_URL cfg).
    + unfold supervised. simpl. rewrite Hk, Hc, Hb. simpl.
      repeat split; try done; lia.
    + pose proof (ensure_frame cfg s) as (F1 & F2 & F3 & F4 & F5 & _).
      destruct (ensureProductionBackend cfg s) as [p s']. simpl in *.
      unfold supervised. simpl. rewrite F1, F2, F3, F4, F5, Hk, Hc, Hb. simpl.
      repeat split; try done; lia.
Qed.

Lemma single_call (s : Main) (i : nat) (c : Call) (n : nat) :
  length (calls s) + n ≤ 1 → calls s !! i = Some c → i = 0 ∧ calls s = [c].
Proof.
  intros Hl Hi. destruct (calls s) as [|x [|y l]]; simpl in *; [done| |lia].
  destruct i; simpl in *; [|done]. by simplify_eq.
Qed.

Lemma resume_resolver_supervised (cfg : Config) (i : nat) (n : nat) (s : Main) :
  exited s = false →
  supervised n s → supervised n (exec cfg (ResumeResolver i) s).
Proof.
  intros Hx H. unfold exec. rewrite Hx.
  destruct (calls s !! i) as [[who [p| |]]|] eqn:Hi; try done.
  assert (children s = []) as Hc.
  { by apply (supervised_no_child_while_pending n s i _ H Hi). }
  destruct H as (H1 & H2 & H3 & H4 & H5).
  destruct (single_call _ _ _ _ H1 Hi) as [-> Hk].
  assert (∀ r, supervised n
            (let '(cmd, s0) := resolveBackendCommand_resume cfg r s in
             set_call 0 {| caller := who; cstate := AwaitingCommand cmd |} s0))
    as Hr.
  { intros r. unfold resolveBackendCommand_resume, bind, settle, get, throw, ret.
    unfold supervised.
    repeat case_match; simplify_eq/=; rewrite ?Hc, ?Hk in *; simpl;
      repeat split; try done. }
  destruct (promises s !! p) as [[|v|err [|]]|]; try apply Hr; by repeat split.
Qed.

Lemma emit_supervised (n : nat) (e : Effect) (s : Main) :
  e ≠ HostExit → supervised n s → supervised n (emit e s).
Proof. intros He. apply supervised_frame; try done. right. eauto. Qed.

Lemma startBackend_resume_cases (r : string + BackendCommand) (t : bool) (s : Main) :
  (∃ msg, startBackend_resume r t s = (inr tt, emit (ConsoleError msg) s))
  ∨ (∃ cmd st,
       startBackend_resume r t s
       = (inr tt,
          set_backendProcess (Some (length (children s)))
            (emit (Spawn (length (children s)) cmd)
               (set_children (λ l, l ++ [st]) s)))
       ∧ r = inr cmd ∧ t = false
       ∧ st = if existsSync (fs s) (command cmd) then Live else SpawnFailed).
Proof.
  unfold startBackend_resume, try_catch, bind, settle, spawn, throw, modify.
  destruct r as [err|cmd]; [left; by eexists|].
  destruct t; [left; by eexists|]. right. by eexists _, _.
Qed.

Lemma return_call_supervised (n : nat) (who : Caller) (s : Main) :
  supervised n s →
  supervised n (return_call who (inr tt) s).2
  ∧ calls (return_call who (inr tt) s).2 = calls s
  ∧ (return_call who (inr tt) s).1
    = {| caller := who; cstate := Returned (inr tt) |}.
Proof.
  intros H. unfold return_call. destruct who; simpl; [|done].
  split; [|done]. unfold createWindow.
  apply (supervised_frame n s); try done. right. by eexists.
Qed.

Lemma set_call_supervised (n : nat) (c : Call) (s : Main) :
  ¬ pending c → supervised n s → supervised n (set_call 0 c s).
Proof.
  intros Hp (H1 & H2 & H3 & H4 & H5). unfold supervised, set_call. simpl.
  rewrite length_insert. repeat split; try done.
  - destruct (calls s); [|done]. destruct H2; done.
  - intros x Hx. destruct (calls s) as [|y [|z l]]; simpl in *; [|..].
    + by apply elem_of_nil in Hx.
    + by apply list_elem_of_singleton in Hx as ->.
    + lia.
Qed.

Lemma resume_start_supervised (cfg : Config) (i : nat) (t : bool) (n : nat) (s : Main) :
  exited s = false →
  supervised n s → supervised n (exec cfg (ResumeStart i t) s).
Proof.
  intros Hx H. unfold exec. rewrite Hx.
  destruct (calls s !! i) as [[who [|r|]]|] eqn:Hi; try done.
  assert (children s = []) as Hc.
  { by apply (supervised_no_child_while_pending n s i _ H Hi). }
  pose proof H as (H1 & H2 & H3 & H4 & H5).
  destruct (single_call _ _ _ _ H1 Hi) as [-> Hk].
  assert (∀ s', supervised n s' →
            supervised n (let '(c, s0) := return_call who (inr tt) s' in
                          set_call 0 c s0)) as Hret.
  { intros s' Hs'. destruct (return_call_supervised n who s' Hs') as (R1 & R2 & R3).
    destruct (return_call who (inr ()) s') as [c s0]. simpl in *. subst c.
    apply set_call_supervised; [|done]. simpl. tauto. }
  destruct (startBackend_resume_cases r t s)
    as [(msg & ->)|(cmd & st & -> & _ & _ & _)].
  - apply Hret. by apply emit_supervised.
  - unfold return_call, createWindow, set_call, supervised.
    rewrite Hk in H1.
    destruct who; simpl; rewrite Hc, Hk; simpl in *.
    all: split; [lia|]; split; [|split; [lia|split]].
    all: try (intros _; split; [done|];
              intros x ->%list_elem_of_singleton; simpl; tauto).
    all: try (intros [|c] Hl; simplify_eq/=; by left).
    + intros [[?|?%list_elem_of_singleton]%elem_of_app
             |?%list_elem_of_singleton]%elem_of_app; [auto|congruence..].
    + intros [?|?%list_elem_of_singleton]%elem_of_app; [auto|congruence].
Qed.

Lemma only_child (s : Main) (c : nat) (x : Child) :
  length (children s) ≤ 1 → children s !! c = Some x → c = 0 ∧ children s = [x].
Proof.
  intros Hl Hc. destruct (children s) as [|y [|z l]]; simpl in *; [done| |lia].
  destruct c; simpl in *; [|done]. by simplify_eq.
Qed.

Lemma child_gone_supervised (n : nat) (s : Main) (c : nat) (x : Child)
    (t : list Effect) :
  children s !! c = Some x →
  (∀ e, e ∈ t → e ≠ HostExit) →
  supervised n s →
  supervised n
    {| fs := fs s; backendProcess := None;
       backendExtractPromise := backendExtractPromise s; win := win s;
       promises := promises s; calls := calls s;
       children := <[c := Gone]> (children s);
       exited := exited s; trace := trace s ++ t |}.
Proof.
  intros Hc Ht (H1 & H2 & H3 & H4 & H5).
  destruct (only_child _ _ _ H3 Hc) as [-> Hk].
  unfold supervised. simpl. rewrite Hk in *. simpl.
  repeat split; try done; try lia.
  - apply H2. done.
  - apply H2. done.
  - by intros [|c] Hl; simplify_eq/=.
  - intros [?|Hin]%elem_of_app; [auto|]. by destruct (Ht _ Hin).
Qed.

Lemma cleanup_supervised (n : nat) (s : Main) :
  supervised n s → supervised n (run_ cleanup s).
Proof.
  intros (H1 & H2 & H3 & H4 & H5). rewrite cleanup_run.
  destruct (backendProcess s) as [b|] eqn:Hb; [|by rewrite <- Hb in H4].
  unfold supervised. simpl. repeat split; try done.
  - apply H2. done.
  - apply H2. done.
  - intros c Hl. right. destruct (H4 c Hl) as [?|?]; simplify_eq.
    + apply elem_of_app. right. by apply list_elem_of_singleton.
    + apply elem_of_app. by left.
  - intros [?|?%list_elem_of_singleton]%elem_of_app; [auto|congruence].
Qed.

Lemma process_exit_supervised (n : nat) (s : Main) :
  supervised n s → supervised n (process_exit s).
Proof.
  intros H. apply cleanup_supervised in H. unfold process_exit.
  destruct H as (H1 & H2 & H3 & H4 & H5). unfold supervised. simpl.
  repeat split; try done.
  - apply H2. done.
  - apply H2. done.
  - intros c Hl. destruct (H4 c Hl); [by left|right].
    apply elem_of_app. by left.
Qed.

Lemma exec_supervised (cfg : Config) (a : Action) (n : nat) (s : Main) :
  supervised ((if is_start a then 1 else 0) + n) s →
  supervised n (exec cfg a s).
Proof.
  intros H.
  assert (supervised n s) as H0.
  { eapply supervised_budget; [|exact H]. lia. }
  destruct (exited s) eqn:Hx; [by unfold exec; rewrite Hx|].
  destruct a; try (unfold exec; rewrite Hx); simpl in H.
  - by apply startBackend_supervised.
  - by apply startBackend_supervised.
  - pose proof (extract_resume_frame cfg p o s) as (F1 & F2 & F3 & F4 & _ & _ & F5).
    eapply supervised_frame; eauto.
    destruct F5 as [?|(e & ? & ? & _)]; eauto.
  - unfold catch_reaction. repeat case_match; done.
  - pose proof (resume_resolver_supervised cfg i n s Hx H0) as Hr.
    unfold exec in Hr. by rewrite Hx in Hr.
  - pose proof (resume_start_supervised cfg i spawnThrows n s Hx H0) as Hr.
    unfold exec in Hr. by rewrite Hx in Hr.
  - destruct (children s !! c) as [[| |]|] eqn:Hc; try done.
    apply (child_gone_supervised n s c _ [ConsoleError "Failed to start backend"] Hc);
      [|done].
    by intros e ->%list_elem_of_singleton.
  - destruct (children s !! c) as [[| |]|] eqn:Hc; try done.
    unfold on_exit.
    destruct code as [z|]; [destruct (bool_decide (z ≠ 0%Z))|].
    + apply (child_gone_supervised n s c _ [ConsoleError "Backend process exited"] Hc);
        [|done].
      by intros e ->%list_elem_of_singleton.
    + pose proof (child_gone_supervised n s c _ [] Hc) as Hg.
      rewrite app_nil_r in Hg. apply Hg; [|done]. by intros e ?%elem_of_nil.
    + pose proof (child_gone_supervised n s c _ [] Hc) as Hg.
      rewrite app_nil_r in Hg. apply Hg; [|done]. by intros e ?%elem_of_nil.
  - by apply process_exit_supervised, cleanup_supervised.
  - by apply process_exit_supervised, cleanup_supervised.
  - unfold on_window_all_closed. destruct (platform cfg); try done.
    all: apply (supervised_frame n (app_quit (run_ cleanup s))); try done;
      [by left|];
      apply cleanup_supervised, emit_supervised; [done|];
      by apply cleanup_supervised.
  - by apply cleanup_supervised.
  - by apply process_exit_supervised.
Qed.

Lemma run_supervised (cfg : Config) (acts : list Action) (n : nat) (s : Main) :
  supervised (starts acts + n) s → supervised n (run cfg acts s).
Proof.
  revert s. induction acts as [|a acts IH]; intros s H; [done|].
  simpl. apply IH. apply exec_supervised.
  unfold starts in *. rewrite filter_cons in H.
  case_decide as Ha; simpl in Ha.
  - rewrite Ha. eapply supervised_budget; [|exact H]. simpl. lia.
  - destruct (is_start a); done.
Qed.

Lemma boot_supervised (fs0 : Fs) : supervised 1 (boot fs0).
Proof.
  unfold supervised. simpl. split; [lia|]. split; [done|]. split; [lia|].
  split; [done|]. by intros ?%elem_of_nil.
Qed.

Lemma termination_trace (cfg : Config) (a : Action) (s : Main) :
  exited s = false → is_termination cfg a = true →
  ∃ t, trace (exec cfg a s) = trace s ++ t
       ∧ ∀ c, backendProcess s = Some c → ∃ t', t = Kill c "SIGINT" :: t'.
Proof.
  intros Hx Ht. unfold exec. rewrite Hx.
  destruct a; simpl in Ht; try discriminate;
    unfold on_SIGINT, on_SIGTERM, on_window_all_closed, app_quit,
      on_before_quit, process_exit;
    try (destruct (platform cfg); try discriminate);
    rewrite !cleanup_run; destruct (backendProcess s) as [b|] eqn:Hb; simpl;
    rewrite ?Hb; simpl; rewrite <- ?app_assoc;
    eexists; (split; [try reflexivity; by rewrite app_nil_r|]);
    intros c ?; simplify_eq/=; eauto.
Qed.

(** The shutdown of a process that starts its backend once.  In every
    state the process reaches with at most one invocation of
    [startBackend], on every way the host goes down (end of the process,
    SIGINT, SIGTERM, the last window closed where that quits,
    before-quit), a backend child that is running has [kill("SIGINT")]
    sent to it, and no exit of the host comes before that signal.  Two
    invocations that overlap leave the first child outside the handle, and
    then this fails. *)
Theorem single_start_child_is_signalled_before_host_exit
    (cfg : Config) (fs0 : Fs) (acts : list Action) (a : Action) (c : nat) :
  starts acts ≤ 1 →
  exited (run cfg acts (boot fs0)) = false →
  children (run cfg acts (boot fs0)) !! c = Some Live →
  is_termination cfg a = true →
  ∃ before after,
    trace (exec cfg a (run cfg acts (boot fs0)))
    = before ++ Kill c "SIGINT" :: after
    ∧ HostExit ∉ before.
Proof.
  intros Hs Hx Hl Ht. set (s := run cfg acts (boot fs0)) in *.
  assert (supervised 0 s) as (_ & _ & _ & H4 & H5).
  { apply run_supervised. eapply supervised_budget; [|apply boot_supervised]. lia. }
  destruct (termination_trace cfg a s Hx Ht) as (t & Htr & Hk).
  destruct (H4 c Hl) as [Hb|Hin].
  - destruct (Hk c Hb) as (t' & ->).
    exists (trace s), t'. split; [done|]. intros ?. by rewrite H5 in Hx.
  - apply list_elem_of_split in Hin as (l1 & l2 & Hsplit).
    exists l1, (l2 ++ t). split.
    + by rewrite Htr, Hsplit, <- app_assoc.
    + intros Hin. rewrite H5 in Hx; [done|]. rewrite Hsplit.
      apply elem_of_app. by left.
Qed.

Lemma sigterm_after_startup :
  starts (startup IoOk IoOk IoOk IoOk false) ≤ 1
  ∧ exited (run prod (startup IoOk IoOk IoOk IoOk false) (boot fs_first_launch)) = false
  ∧ children (run prod (startup IoOk IoOk IoOk IoOk false) (boot fs_first_launch)) !! 0
    = Some Live
  ∧ is_termination prod SigTerm = true
  ∧ ∃ before after,
      trace (exec prod SigTerm
               (run prod (startup IoOk IoOk IoOk IoOk false) (boot fs_first_launch)))
      = before ++ Kill 0 "SIGINT" :: after
      ∧ HostExit ∉ before.
Proof.
  assert (starts (startup IoOk IoOk IoOk IoOk false) ≤ 1) as H1
    by (vm_compute; lia).
  split; [exact H1|]. split; [reflexivity|]. split; [reflexivity|].
  split; [reflexivity|].
  exact (single_start_child_is_signalled_before_host_exit prod fs_first_launch
           (startup IoOk IoOk IoOk IoOk false) SigTerm 0
           H1 eq_refl eq_refl eq_refl).
Defined.

(** *** The start of the application

    From here on the operations of the file system stay folded under
    [simpl]. *)

#[local] Arguments existsSync : simpl never.
#[local] Arguments readFileSync : simpl never.
#[local] Arguments unpack : simpl never.
#[local] Arguments write_version : simpl never.
#[local] Arguments rm_rf_partial : simpl never.
#[local] Arguments mkdir_p : simpl never.
#[local] Arguments trim : simpl never.

(** **** No invocation of [startBackend] is ever rejected *)

Lemma startBackend_resume_resolves (r : string + BackendCommand) (t : bool) (s : Main) :
  (startBackend_resume r t s).1 = inr tt.
Proof.
  by destruct (startBackend_resume_cases r t s)
    as [(msg & ->)|(cmd & st & -> & _)].
Qed.

Lemma never_rejected_app (s s' : Main) (c : Call) :
  calls s' = calls s ++ [c] → (∀ err, cstate c ≠ Returned (inl err)) →
  never_rejected s → never_rejected s'.
Proof.
  unfold never_rejected. intros -> Hc H x.
  intros [?|Hx%list_elem_of_singleton]%elem_of_app; [auto|by subst].
Qed.

Lemma never_rejected_insert (s s' : Main) (i : nat) (c : Call) :
  calls s' = <[i := c]> (calls s) → (∀ err, cstate c ≠ Returned (inl err)) →
  never_rejected s → never_rejected s'.
Proof.
  unfold never_rejected. intros -> Hc H x Hx.
  apply list_elem_of_lookup in Hx as [j Hj].
  destruct (decide (i = j)) as [->|Hne].
  - destruct (decide (j < length (calls s))).
    + rewrite list_lookup_insert_eq in Hj by done. by simplify_eq.
    + rewrite list_insert_ge in Hj by lia.
      apply H, list_elem_of_lookup. eauto.
  - rewrite list_lookup_insert_ne in Hj by done.
    apply H, list_elem_of_lookup. eauto.
Qed.

Lemma never_rejected_same (s s' : Main) :
  calls s' = calls s → never_rejected s → never_rejected s'.
Proof. unfold never_rejected. by intros ->. Qed.

Lemma resolver_resume_pure (cfg : Config) (r : string + Path) (s : Main) :
  (resolveBackendCommand_resume cfg r s).2 = s.
Proof.
  unfold resolveBackendCommand_resume, bind, settle, get, throw, ret.
  by repeat case_match; simplify_eq/=.
Qed.

Lemma exec_never_rejected (cfg : Config) (a : Action) (s : Main) :
  never_rejected s → never_rejected (exec cfg a s).
Proof.
  intros H. unfold exec. destruct (exited s); [done|].
  assert (∀ who, never_rejected (startBackend cfg who s)) as Hstart.
  { intros who. unfold startBackend.
    destruct (backendProcess s).
    - unfold return_call.
      destruct who; simpl;
        (eapply never_rejected_app; [reflexivity|done|done]).
    - unfold resolveBackendCommand. destruct (VITE_DEV_SERVER_URL cfg).
      + eapply never_rejected_app; [reflexivity|done|done].
      + pose proof (ensure_frame cfg s) as (_ & _ & F3 & _).
        destruct (ensureProductionBackend cfg s) as [p s']. simpl in *.
        apply (never_rejected_app s _ {| caller := who; cstate := InResolver p |});
          [|done..].
        simpl. by rewrite F3. }
  destruct a; try apply Hstart.
  - pose proof (extract_resume_frame cfg p o s) as (_ & _ & F3 & _).
    by eapply never_rejected_same.
  - unfold catch_reaction. by repeat case_match.
  - destruct (calls s !! i) as [[who [p| |]]|]; try done.
    assert (∀ r, never_rejected
              (let '(cmd, s0) := resolveBackendCommand_resume cfg r s in
               set_call i {| caller := who; cstate := AwaitingCommand cmd |} s0))
      as Hr.
    { intros r. pose proof (resolver_resume_pure cfg r s) as Hp.
      destruct (resolveBackendCommand_resume cfg r s) as [cmd s0].
      simpl in Hp. subst s0.
      eapply never_rejected_insert; [reflexivity|done|done]. }
    destruct (promises s !! p) as [[|v|e [|]]|]; try done; apply Hr.
  - destruct (calls s !! i) as [[who [|r|]]|]; try done.
    destruct (startBackend_resume_cases r spawnThrows s)
      as [(msg & ->)|(cmd & st & -> & _)].
    all: unfold return_call; destruct who; simpl.
    all: eapply never_rejected_insert; [reflexivity|done|done].
  - by repeat case_match.
  - unfold on_exit. by repeat case_match.
  - unfold on_SIGINT, process_exit. rewrite !cleanup_run. by repeat case_match.
  - unfold on_SIGTERM, process_exit. rewrite !cleanup_run. by repeat case_match.
  - unfold on_window_all_closed, app_quit, on_before_quit.
    rewrite !cleanup_run. by repeat case_match.
  - unfold on_before_quit. rewrite !cleanup_run. by repeat case_match.
  - unfold process_exit. rewrite !cleanup_run. by repeat case_match.
Qed.

(** **** From the [whenReady] handler to the window *)

Lemma ready_dev (cfg : Config) (fs0 : Fs) :
  VITE_DEV_SERVER_URL cfg = true →
  ∃ cmd, prestart (AwaitingCommand (inr cmd)) (exec cfg AppReady (boot fs0))
         ∧ promises (exec cfg AppReady (boot fs0)) = []
         ∧ backendExtractPromise (exec cfg AppReady (boot fs0)) = None.
Proof.
  intros Hd. unfold exec, startBackend, resolveBackendCommand. simpl.
  rewrite Hd. eexists. by repeat split.
Qed.

Lemma ready_prod (cfg : Config) (fs0 : Fs) :
  VITE_DEV_SERVER_URL cfg = false →
  prestart (InResolver 0) (exec cfg AppReady (boot fs0))
  ∧ ∃ P, promises (exec cfg AppReady (boot fs0)) = [P]
         ∧ backendExtractPromise (exec cfg AppReady (boot fs0)) = Some 0
         ∧ ∀ e, P ≠ Rejected e true.
Proof.
  intros Hd. unfold exec, startBackend, resolveBackendCommand. simpl.
  rewrite Hd. unfold ensureProductionBackend. simpl.
  unfold extract_begin, needsExtract, bind, get, throw, ret, settle. simpl.
  repeat case_match; simplify_eq/=; (split; [by repeat split|]);
    eexists; by repeat split.
Qed.

Lemma io_prestart (cfg : Config) (w : CallState) (p : nat) (o : IoOutcome) (s : Main) :
  prestart w s → prestart w (exec cfg (IoDone p o) s).
Proof.
  intros (H1 & H2 & H3 & H4 & H5 & H6). unfold exec. rewrite H5.
  unfold extract_resume, prestart.
  repeat case_match; simpl; repeat split; try done.
  all: apply Forall_app; split; [done|]; by apply Forall_singleton.
Qed.

Lemma catch_prestart (cfg : Config) (w : CallState) (p : nat) (s : Main) :
  prestart w s → prestart w (exec cfg (RunCatch p) s).
Proof.
  intros (H1 & H2 & H3 & H4 & H5 & H6). unfold exec. rewrite H5.
  unfold catch_reaction, prestart. by repeat case_match.
Qed.

Lemma io_rank (cfg : Config) (o : IoOutcome) (P : Promise) (s : Main) :
  exited s = false → promises s = [P] → (∀ e, P ≠ Rejected e true) →
  ∃ P', promises (exec cfg (IoDone 0 o) s) = [P']
        ∧ rank P' ≤ pred (rank P)
        ∧ (∀ e, P' ≠ Rejected e true)
        ∧ backendExtractPromise (exec cfg (IoDone 0 o) s)
          = backendExtractPromise s.
Proof.
  intros Hx HP Hn. unfold exec. rewrite Hx. unfold extract_resume. rewrite HP.
  simpl. repeat case_match; simplify_eq/=; rewrite ?HP; simpl;
    eexists; repeat split; try done; simpl; lia.
Qed.

Lemma catch_guard (cfg : Config) (P : Promise) (s : Main) :
  exited s = false → promises s = [P] → rank P = 0 →
  backendExtractPromise s = Some 0 → (∀ e, P ≠ Rejected e true) →
  let s' := exec cfg (RunCatch 0) s in
  (∃ v, promises s' = [Fulfilled v] ∧ backendExtractPromise s' = Some 0)
  ∨ (∃ e, promises s' = [Rejected e true] ∧ backendExtractPromise s' = None).
Proof.
  intros Hx HP Hr Hg Hn. unfold exec. rewrite Hx. unfold catch_reaction.
  rewrite HP. simpl.
  destruct P as [[]|v|e [|]]; simpl in *; try lia.
  - left. eauto.
  - by destruct (Hn e).
  - right. exists e. by rewrite HP.
Qed.

Lemma resolver_prestart (cfg : Config) (s : Main) :
  prestart (InResolver 0) s →
  (∃ v, promises s = [Fulfilled v]) ∨ (∃ e, promises s = [Rejected e true]) →
  ∃ r, prestart (AwaitingCommand r) (exec cfg (ResumeResolver 0) s)
       ∧ promises (exec cfg (ResumeResolver 0) s) = promises s
       ∧ backendExtractPromise (exec cfg (ResumeResolver 0) s)
         = backendExtractPromise s.
Proof.
  intros (H1 & H2 & H3 & H4 & H5 & H6) HP. unfold exec. rewrite H5, H3. simpl.
  assert (∀ r, ∃ r',
            let s' := (let '(cmd, s0) := resolveBackendCommand_resume cfg r s in
                       set_call 0 {| caller := WhenReady;
                                     cstate := AwaitingCommand cmd |} s0) in
            prestart (AwaitingCommand r') s'
            ∧ promises s' = promises s
            ∧ backendExtractPromise s' = backendExtractPromise s) as Hr.
  { intros r. pose proof (resolver_resume_pure cfg r s) as Hp.
    destruct (resolveBackendCommand_resume cfg r s) as [cmd s0].
    simpl in Hp. subst s0. exists cmd. unfold prestart. simpl.
    rewrite H3. by repeat split. }
  destruct HP as [(v & Hv)|(e & Hv)].
  - assert (promises s !! 0 = Some (Fulfilled v)) as -> by (by rewrite Hv).
    apply Hr.
  - assert (promises s !! 0 = Some (Rejected e true)) as -> by (by rewrite Hv).
    apply Hr.
Qed.

Lemma resolver_skipped (cfg : Config) (r : string + BackendCommand) (s : Main) :
  prestart (AwaitingCommand r) s → exec cfg (ResumeResolver 0) s = s.
Proof.
  intros (H1 & H2 & H3 & H4 & H5 & H6). unfold exec. by rewrite H5, H3.
Qed.

Lemma start_result (cfg : Config) (r : string + BackendCommand) (t : bool) (s : Main) :
  prestart (AwaitingCommand r) s →
  let s' := exec cfg (ResumeStart 0 t) s in
  calls s' = [{| caller := WhenReady; cstate := Returned (inr tt) |}]
  ∧ win s' = true ∧ exited s' = false
  ∧ promises s' = promises s
  ∧ backendExtractPromise s' = backendExtractPromise s
  ∧ ((∃ msg, trace s' = trace s ++ [ConsoleError msg; CreateWindow]
             ∧ backendProcess s' = None)
     ∨ (∃ cmd, trace s' = trace s ++ [Spawn 0 cmd; CreateWindow]
               ∧ backendProcess s' = Some 0)).
Proof.
  intros (H1 & H2 & H3 & H4 & H5 & H6). unfold exec. rewrite H5, H3. simpl.
  destruct (startBackend_resume_cases r t s)
    as [(msg & ->)|(cmd & st & -> & _)]; simpl; rewrite ?H3, ?H2; simpl.
  - repeat split; try done. left. exists msg. by rewrite <- app_assoc.
  - repeat split; try done. right. exists cmd. by rewrite <- app_assoc.
Qed.

(** The production profile fails fast: when the interpreter is not in
    the extracted tree, the invocation ends without a call of [spawn],
    the error logged. *)
Lemma production_profile_fails_fast
    (cfg : Config) (s : Main) (i p : nat) (who : Caller) (dir : Path) (t : bool) :
  exited s = false →
  calls s !! i = Some {| caller := who; cstate := InResolver p |} →
  promises s !! p = Some (Fulfilled dir) →
  existsSync (fs s) (pythonIn cfg dir) = false →
  let s' := run cfg [ResumeResolver i; ResumeStart i t] s in
  calls s' !! i = Some {| caller := who; cstate := Returned (inr tt) |}
  ∧ count is_spawn (trace s') = count is_spawn (trace s)
  ∧ children s' = children s
  ∧ backendProcess s' = backendProcess s
  ∧ ConsoleError "Error starting backend: Python runtime not found" ∈ trace s'.
Proof.
  intros Hx Hi Hp He. unfold run. simpl foldl.
  assert (i < length (calls s)) as Hlt by (by eapply lookup_lt_Some).
  assert (exec cfg (ResumeResolver i) s
          = set_call i {| caller := who;
                          cstate := AwaitingCommand
                                      (inl "Python runtime not found") |} s)
    as ->.
  { unfold exec. rewrite Hx, Hi, Hp.
    unfold resolveBackendCommand_resume, bind, settle, get, throw. simpl.
    by rewrite He. }
  set (s1 := set_call i _ s).
  assert (exec cfg (ResumeStart i t) s1
          = set_call i {| caller := who; cstate := Returned (inr tt) |}
              (return_call who (inr tt)
                 (emit (ConsoleError
                          "Error starting backend: Python runtime not found")
                    s1)).2) as ->.
  { unfold exec. subst s1. simpl. rewrite Hx.
    rewrite list_lookup_insert_eq by done. by destruct who. }
  subst s1. unfold return_call, count.
  destruct who; simpl; rewrite ?length_insert, list_lookup_insert_eq
    by (rewrite ?length_insert; done);
    rewrite !filter_app; simpl; rewrite ?app_nil_r;
    repeat split; try done; set_solver.
Qed.

Lemma count_fs_effects (t : list Effect) :
  Forall (λ e, is_fs_effect e = true) t → count is_spawn t = 0.
Proof.
  unfold count. induction 1 as [|e t He _ IH]; [done|].
  rewrite filter_cons. destruct e; simpl in *; try done.
Qed.

Lemma count_app (f : Effect → bool) (t1 t2 : list Effect) :
  count f (t1 ++ t2) = count f t1 + count f t2.
Proof. unfold count. by rewrite filter_app, length_app. Qed.

Lemma start_passes_guard (cfg : Config) (s : Main) :
  exited s = false → backendProcess s = None →
  ∃ c, calls (exec cfg CallStartBackend s) = calls s ++ [c] ∧ pending c.
Proof.
  intros Hx Hb. unfold exec, startBackend. rewrite Hx, Hb.
  unfold resolveBackendCommand. destruct (VITE_DEV_SERVER_URL cfg).
  - by eexists.
  - pose proof (ensure_frame cfg s) as (_ & _ & F3 & _).
    destruct (ensureProductionBackend cfg s) as [p s']. simpl in *.
    eexists. by rewrite F3.
Qed.

Lemma idle_io (cfg : Config) (p : nat) (o : IoOutcome) (s : Main) :
  promises s = [] → exec cfg (IoDone p o) s = s.
Proof.
  intros H. unfold exec, extract_resume. rewrite H. by destruct (exited s).
Qed.

Lemma idle_catch (cfg : Config) (p : nat) (s : Main) :
  promises s = [] → exec cfg (RunCatch p) s = s.
Proof.
  intros H. unfold exec, catch_reaction. rewrite H. by destruct (exited s).
Qed.

Lemma rank_bound (P : Promise) : rank P ≤ 4.
Proof. destruct P as [[]| |]; simpl; lia. Qed.

Lemma startup_started (cfg : Config) (fs0 : Fs) (o1 o2 o3 o4 : IoOutcome) (t : bool) :
  started (run cfg (startup o1 o2 o3 o4 t) (boot fs0)).
Proof.
  unfold startup, run. simpl foldl.
  set (s1 := exec cfg AppReady (boot fs0)).
  destruct (VITE_DEV_SERVER_URL cfg) eqn:Hd.
  - destruct (ready_dev cfg fs0 Hd) as (cmd & Hp & HP & Hg). fold s1 in Hp, HP, Hg.
    rewrite (idle_io cfg 0 o1 s1), (idle_io cfg 0 o2 s1),
      (idle_io cfg 0 o3 s1), (idle_io cfg 0 o4 s1), (idle_catch cfg 0 s1)
      by done.
    rewrite (resolver_skipped cfg (inr cmd)) by done.
    destruct (start_result cfg _ t s1 Hp) as (R1 & R2 & R3 & R4 & R5 & R6).
    unfold started. rewrite R5, Hg. repeat split; try done.
    exists (trace s1). split; [apply Hp|done].
  - destruct (ready_prod cfg fs0 Hd) as (Hp1 & P1 & HP1 & Hg1 & Hn1).
    fold s1 in Hp1, HP1, Hg1.
    set (s2 := exec cfg (IoDone 0 o1) s1).
    destruct (io_rank cfg o1 P1 s1) as (P2 & HP2 & Hr2 & Hn2 & Hg2);
      [apply Hp1|done..|]. fold s2 in HP2, Hg2.
    pose proof (io_prestart cfg _ 0 o1 s1 Hp1) as Hp2. fold s2 in Hp2.
    set (s3 := exec cfg (IoDone 0 o2) s2).
    destruct (io_rank cfg o2 P2 s2) as (P3 & HP3 & Hr3 & Hn3 & Hg3);
      [apply Hp2|done..|]. fold s3 in HP3, Hg3.
    pose proof (io_prestart cfg _ 0 o2 s2 Hp2) as Hp3. fold s3 in Hp3.
    set (s4 := exec cfg (IoDone 0 o3) s3).
    destruct (io_rank cfg o3 P3 s3) as (P4 & HP4 & Hr4 & Hn4 & Hg4);
      [apply Hp3|done..|]. fold s4 in HP4, Hg4.
    pose proof (io_prestart cfg _ 0 o3 s3 Hp3) as Hp4. fold s4 in Hp4.
    set (s5 := exec cfg (IoDone 0 o4) s4).
    destruct (io_rank cfg o4 P4 s4) as (P5 & HP5 & Hr5 & Hn5 & Hg5);
      [apply Hp4|done..|]. fold s5 in HP5, Hg5.
    pose proof (io_prestart cfg _ 0 o4 s4 Hp4) as Hp5. fold s5 in Hp5.
    pose proof (rank_bound P1) as Hb.
    set (s6 := exec cfg (RunCatch 0) s5).
    pose proof (catch_prestart cfg _ 0 s5 Hp5) as Hp6. fold s6 in Hp6.
    assert ((∃ v, promises s6 = [Fulfilled v] ∧ backendExtractPromise s6 = Some 0)
            ∨ (∃ e, promises s6 = [Rejected e true]
                    ∧ backendExtractPromise s6 = None)) as Hs6.
    { apply (catch_guard cfg P5 s5); try done; [apply Hp5|lia|congruence]. }
    destruct (resolver_prestart cfg s6 Hp6) as (r & Hp7 & HP7 & Hg7).
    { destruct Hs6 as [(v & ? & _)|(e & ? & _)]; eauto. }
    set (s7 := exec cfg (ResumeResolver 0) s6) in *.
    destruct (start_result cfg _ t s7 Hp7) as (R1 & R2 & R3 & R4 & R5 & R6).
    unfold started. rewrite R4, R5, HP7, Hg7. repeat split; try done.
    + intros p e b Hg Hl.
      destruct Hs6 as [(v & HP & Hgv)|(e' & HP & Hgv)]; rewrite HP, Hgv in *;
        by simplify_eq.
    + exists (trace s7). split; [apply Hp7|done].
Qed.

(** C10. [startBackend] never throws or rejects.  Whatever the schedule,
    no invocation ends rejected.  At the start of the application,
    whatever the archive, the runtime directory, the file operations and
    [spawn] do, the invocation of the [whenReady] handler resolves and the
    window is created; when nothing was spawned the failure has been
    logged, the handle is null, the extraction guard holds no rejected
    promise, and another [startBackend] gets past the guard.  A child that
    fails to start or exits resets the handle to null. *)
Theorem C10_startBackend_never_rejects (cfg : Config) (fs0 : Fs) :
  (∀ acts, never_rejected (run cfg acts (boot fs0)))
  ∧ (∀ o1 o2 o3 o4 t,
       let s := run cfg (startup o1 o2 o3 o4 t) (boot fs0) in
       calls s = [{| caller := WhenReady; cstate := Returned (inr tt) |}]
       ∧ win s = true
       ∧ CreateWindow ∈ trace s
       ∧ (count is_spawn (trace s) = 0 →
            backendProcess s = None
            ∧ (∃ msg, ConsoleError msg ∈ trace s)
            ∧ (∀ p e b, backendExtractPromise s = Some p →
                        promises s !! p ≠ Some (Rejected e b))
            ∧ ∃ c, calls (exec cfg CallStartBackend s) = calls s ++ [c]
                   ∧ pending c))
  ∧ (∀ s c, exited s = false → children s !! c = Some SpawnFailed →
       backendProcess (exec cfg (ChildError c) s) = None
       ∧ trace (exec cfg (ChildError c) s)
         = trace s ++ [ConsoleError "Failed to start backend"])
  ∧ (∀ s c code signal, exited s = false → children s !! c = Some Live →
       backendProcess (exec cfg (ChildExit c code signal) s) = None).
Proof.
  split; [|split; [|split]].
  - intros acts. unfold run.
    assert (never_rejected (boot fs0)) as H by (by intros c ?%elem_of_nil).
    revert H. generalize (boot fs0).
    induction acts as [|a acts IH]; intros s H; [done|].
    simpl. by apply IH, exec_never_rejected.
  - intros o1 o2 o3 o4 t s.
    destruct (startup_started cfg fs0 o1 o2 o3 o4 t)
      as (S1 & S2 & S3 & S4 & pre & Hpre & S5).
    fold s in S1, S2, S3, S4, S5.
    split; [done|]. split; [done|]. split.
    { destruct S5 as [(msg & -> & _)|(cmd & -> & _)]; set_solver. }
    intros Hcount.
    destruct S5 as [(msg & Ht & Hb)|(cmd & Ht & _)].
    + split; [done|]. split; [exists msg; rewrite Ht; set_solver|].
      split; [done|]. by apply start_passes_guard.
    + rewrite Ht, count_app, (count_fs_effects _ Hpre) in Hcount.
      by vm_compute in Hcount.
  - intros s c Hx Hc. unfold exec. by rewrite Hx, Hc.
  - intros s c code signal Hx Hc. unfold exec. rewrite Hx, Hc.
    unfold on_exit. by repeat case_match.
Qed.

(** A packaged application without its archive, through C10: nothing is
    spawned, the handle is null, the invocation has resolved and the
    window is there. *)
Lemma C10_missing_archive :
  let s := run prod (startup IoOk IoOk IoOk IoOk false) (boot fs_no_archive) in
  count is_spawn (trace s) = 0
  ∧ backendProcess s = None
  ∧ calls s = [{| caller := WhenReady; cstate := Returned (inr tt) |}]
  ∧ win s = true.
Proof.
  destruct (C10_startBackend_never_rejects prod fs_no_archive) as (_ & H & _).
  destruct (H IoOk IoOk IoOk IoOk false) as (H1 & H2 & _ & H4).
  split; [reflexivity|]. split; [exact (proj1 (H4 eq_refl))|].
  split; [exact H1|exact H2].
Defined.

(** *** The extraction *)

Lemma existsSync_venv (fs0 : Fs) :
  existsSync fs0 (path_join runtimeDir ["venv"])
  = bool_decide (is_Some (payload fs0)).
Proof.
  unfold existsSync, payload. simpl. by destruct (runtime fs0) as [d|].
Qed.

Lemma existsSync_versionFile (fs0 : Fs) :
  existsSync fs0 versionFile = bool_decide (is_Some (marker fs0)).
Proof.
  unfold existsSync, marker. simpl. by destruct (runtime fs0) as [d|].
Qed.

Lemma readFileSync_marker (fs0 : Fs) :
  readFileSync fs0 BACKEND_VERSION_FILE
  = match marker fs0 with
    | Some (File data) => inr data
    | Some Dir => inl "EISDIR"
    | None => inl "ENOENT"
    end.
Proof.
  unfold readFileSync, marker. by destruct (runtime fs0) as [d|].
Qed.

Lemma extract_begin_spec (cfg : Config) (s : Main) (entries : list (string * Node)) :
  archive (fs s) = Some entries →
  marker (fs s) ≠ Some Dir →
  ∃ P, extract_begin cfg s = (inr P, s)
       ∧ (P = Pending AwaitRm ∨ P = Fulfilled runtimeDir)
       ∧ (P = Pending AwaitRm ↔ outdated cfg (fs s)).
Proof.
  intros Ha Hm.
  unfold extract_begin, needsExtract, bind, get, throw, ret, settle.
  assert (existsSync (fs s) archivePath = true) as ->.
  { unfold existsSync. rewrite Ha. by apply bool_decide_eq_true_2. }
  simpl. rewrite existsSync_venv, existsSync_versionFile, readFileSync_marker.
  unfold outdated.
  destruct (payload (fs s)) as [v|] eqn:Hp; simpl.
  2:{ eexists. split; [done|]. split; [by left|]. split; [by left|done]. }
  destruct (marker (fs s)) as [[|data]|] eqn:Hk; simpl; [done| |].
  2:{ eexists. split; [done|]. split; [by left|]. split; [by right; left|done]. }
  destruct (decide (trim data = currentVersion cfg)) as [He|Hne].
  - rewrite bool_decide_eq_true_2 by done. simpl.
    eexists. split; [done|]. split; [by right|]. split; [done|].
    intros [?|[?|(d & ? & ?)]]; simplify_eq.
  - rewrite bool_decide_eq_false_2 by done. simpl.
    eexists. split; [done|]. split; [by left|]. split; [|done].
    intros _. right. right. eauto.
Qed.

Lemma ensure_fresh (cfg : Config) (s : Main) (entries : list (string * Node)) :
  backendExtractPromise s = None →
  archive (fs s) = Some entries →
  marker (fs s) ≠ Some Dir →
  let p := length (promises s) in
  let s1 := (ensureProductionBackend cfg s).2 in
  (ensureProductionBackend cfg s).1 = p
  ∧ fs s1 = fs s ∧ trace s1 = trace s ∧ exited s1 = exited s
  ∧ backendExtractPromise s1 = Some p
  ∧ length (promises s1) = S p
  ∧ (extracting p s1 ∨ promises s1 !! p = Some (Fulfilled runtimeDir))
  ∧ (extracting p s1 ↔ outdated cfg (fs s)).
Proof.
  intros Hg Ha Hm p s1.
  destruct (extract_begin_spec cfg s entries Ha Hm) as (P & Hb & HP & Hiff).
  subst s1. unfold ensureProductionBackend, extracting. rewrite Hg, Hb. simpl.
  rewrite length_app, list_lookup_middle by done. simpl.
  repeat split; try done; try lia.
  - destruct HP as [->| ->]; eauto.
  - intros [= ->]. by apply Hiff.
  - intros Ho. f_equal. by apply Hiff.
Qed.

(** **** The steps of the extraction

    One lemma per awaited operation and outcome: what the promise, the
    file system and the trace are once the operation has completed. *)

Section Steps.
Context (cfg : Config) (p : nat) (s : Main).
Hypothesis Hx : exited s = false.

Ltac io_step Hp :=
  unfold exec, extract_resume, catch_reaction; rewrite Hx, Hp; simpl;
  rewrite ?length_insert, ?list_lookup_insert_eq
    by (eapply lookup_lt_Some; eauto);
  repeat split; done.

Lemma rm_ok :
  promises s !! p = Some (Pending AwaitRm) →
  let s' := exec cfg (IoDone p IoOk) s in
  promises s' !! p = Some (Pending AwaitMkdir)
  ∧ fs s' = rm_rf (fs s) ∧ trace s' = trace s ++ [Rm true]
  ∧ exited s' = false
  ∧ backendExtractPromise s' = backendExtractPromise s.
Proof. intros Hp. io_step Hp. Qed.

Lemma rm_fail (survive : string → bool) (n : nat) :
  promises s !! p = Some (Pending AwaitRm) →
  let s' := exec cfg (IoDone p (IoFail survive n)) s in
  promises s' !! p = Some (Rejected "rm failed" false)
  ∧ fs s' = rm_rf_partial survive (fs s) ∧ trace s' = trace s ++ [Rm false]
  ∧ exited s' = false
  ∧ backendExtractPromise s' = backendExtractPromise s.
Proof. intros Hp. io_step Hp. Qed.

Lemma mkdir_ok :
  promises s !! p = Some (Pending AwaitMkdir) →
  let s' := exec cfg (IoDone p IoOk) s in
  promises s' !! p = Some (Pending AwaitUnpack)
  ∧ fs s' = mkdir_p (fs s) ∧ trace s' = trace s ++ [Mkdir true]
  ∧ exited s' = false
  ∧ backendExtractPromise s' = backendExtractPromise s.
Proof. intros Hp. io_step Hp. Qed.

Lemma mkdir_fail (survive : string → bool) (n : nat) :
  promises s !! p = Some (Pending AwaitMkdir) →
  let s' := exec cfg (IoDone p (IoFail survive n)) s in
  promises s' !! p = Some (Rejected "mkdir failed" false)
  ∧ fs s' = fs s ∧ trace s' = trace s ++ [Mkdir false]
  ∧ exited s' = false
  ∧ backendExtractPromise s' = backendExtractPromise s.
Proof. intros Hp. io_step Hp. Qed.

Lemma unpack_ok (entries : list (string * Node)) (d : gmap string Node) :
  promises s !! p = Some (Pending AwaitUnpack) →
  archive (fs s) = Some entries → runtime (fs s) = Some d →
  let s' := exec cfg (IoDone p IoOk) s in
  promises s' !! p = Some (Pending AwaitWriteFile)
  ∧ fs s' = set_runtime (Some (unpack entries d)) (fs s)
  ∧ trace s' = trace s ++ [Unpack true]
  ∧ exited s' = false
  ∧ backendExtractPromise s' = backendExtractPromise s.
Proof.
  intros Hp Ha Hr. unfold exec, extract_resume. rewrite Hx, Hp, Ha, Hr. simpl.
  rewrite list_lookup_insert_eq by (eapply lookup_lt_Some; eauto).
  repeat split; done.
Qed.

Lemma unpack_fail (survive : string → bool) (n : nat)
    (entries : list (string * Node)) (d : gmap string Node) :
  promises s !! p = Some (Pending AwaitUnpack) →
  archive (fs s) = Some entries → runtime (fs s) = Some d →
  let s' := exec cfg (IoDone p (IoFail survive n)) s in
  promises s' !! p = Some (Rejected "tar failed" false)
  ∧ fs s' = set_runtime (Some (unpack (take n entries) d)) (fs s)
  ∧ trace s' = trace s ++ [Unpack false]
  ∧ exited s' = false
  ∧ backendExtractPromise s' = backendExtractPromise s.
Proof.
  intros Hp Ha Hr. unfold exec, extract_resume. rewrite Hx, Hp, Ha, Hr. simpl.
  rewrite list_lookup_insert_eq by (eapply lookup_lt_Some; eauto).
  repeat split; done.
Qed.

Lemma write_ok (d : gmap string Node) :
  promises s !! p = Some (Pending AwaitWriteFile) →
  runtime (fs s) = Some d →
  let s' := exec cfg (IoDone p IoOk) s in
  promises s' !! p = Some (Fulfilled runtimeDir)
  ∧ fs s' = set_runtime (Some (write_version (currentVersion cfg) d)) (fs s)
  ∧ trace s' = trace s ++ [WriteVersion true (currentVersion cfg)]
  ∧ exited s' = false
  ∧ backendExtractPromise s' = backendExtractPromise s.
Proof.
  intros Hp Hr. unfold exec, extract_resume. rewrite Hx, Hp, Hr. simpl.
  rewrite list_lookup_insert_eq by (eapply lookup_lt_Some; eauto).
  repeat split; done.
Qed.

Lemma catch_ok (e : string) :
  promises s !! p = Some (Rejected e false) →
  let s' := exec cfg (RunCatch p) s in
  promises s' !! p = Some (Rejected e true)
  ∧ fs s' = fs s ∧ trace s' = trace s
  ∧ exited s' = false
  ∧ backendExtractPromise s' = None
  ∧ length (promises s') = length (promises s).
Proof. intros Hp. io_step Hp. Qed.

End Steps.

Lemma unpack_lookup_notin (entries : list (string * Node)) (d : gmap string Node)
    (k : string) :
  k ∉ (fst <$> entries) → unpack entries d !! k = d !! k.
Proof.
  unfold unpack. revert d.
  induction entries as [|[k' n] l IH]; intros d Hk; [done|].
  simpl in *. apply not_elem_of_cons in Hk as [Hne Hk].
  rewrite IH by done. by rewrite lookup_insert_ne.
Qed.

Lemma take_fst_notin (entries : list (string * Node)) (n : nat) (k : string) :
  k ∉ (fst <$> entries) → k ∉ (fst <$> take n entries).
Proof.
  intros Hk Hin. apply Hk. rewrite fmap_take in Hin.
  by apply (subseteq_take n) in Hin.
Qed.

Lemma partial_lookup (survive : string → bool) (fs0 : Fs) (k : string) :
  let after := runtime (rm_rf_partial survive fs0) ≫= (λ d, d !! k) in
  after = None ∨ after = runtime fs0 ≫= (λ d, d !! k).
Proof.
  unfold rm_rf_partial. simpl. destruct (runtime fs0) as [d|]; simpl; [|by left].
  destruct (filter _ d !! k) as [x|] eqn:E; [|by left].
  right. by apply map_lookup_filter_Some in E as [-> _].
Qed.

Lemma marker_partial (survive : string → bool) (fs0 : Fs) :
  marker (rm_rf_partial survive fs0) = None
  ∨ marker (rm_rf_partial survive fs0) = marker fs0.
Proof. apply (partial_lookup survive fs0 BACKEND_VERSION_FILE). Qed.

Lemma payload_partial (survive : string → bool) (fs0 : Fs) :
  payload (rm_rf_partial survive fs0) = None
  ∨ payload (rm_rf_partial survive fs0) = payload fs0.
Proof. apply (partial_lookup survive fs0 "venv"). Qed.

Lemma outdated_partial (cfg : Config) (survive : string → bool) (fs0 : Fs) :
  outdated cfg fs0 → outdated cfg (rm_rf_partial survive fs0).
Proof.
  unfold outdated.
  destruct (payload_partial survive fs0) as [Hp|Hp];
    destruct (marker_partial survive fs0) as [Hm|Hm]; rewrite Hp, Hm;
    intros [H|[H|(data & H & Hne)]]; eauto.
Qed.

Lemma outdated_unmarked (cfg : Config) (fs0 : Fs) :
  marker fs0 = None → outdated cfg fs0.
Proof. intros H. right. by left. Qed.

Lemma extraction_run (cfg : Config) (p : nat) (s1 : Main)
    (entries : list (string * Node)) :
  exited s1 = false → extracting p s1 → archive (fs s1) = Some entries →
  let s2 := run cfg (IoDone p <$> [IoOk; IoOk; IoOk; IoOk]) s1 in
  trace s2 = trace s1 ++ [Rm true; Mkdir true; Unpack true;
                          WriteVersion true (currentVersion cfg)]
  ∧ runtime (fs s2)
    = Some (write_version (currentVersion cfg) (unpack entries ∅))
  ∧ promises s2 !! p = Some (Fulfilled runtimeDir)
  ∧ exited s2 = false.
Proof.
  intros E4 Ho Ha. unfold run. simpl foldl.
  destruct (rm_ok cfg p s1 E4 Ho) as (A1 & A2 & A3 & A4 & A5).
  set (a := exec cfg (IoDone p IoOk) s1) in *.
  destruct (mkdir_ok cfg p a A4 A1) as (B1 & B2 & B3 & B4 & B5).
  set (b := exec cfg (IoDone p IoOk) a) in *.
  destruct (unpack_ok cfg p b B4 entries ∅ B1) as (C1 & C2 & C3 & C4 & C5).
  { by rewrite B2, A2. }
  { by rewrite B2, A2. }
  set (c := exec cfg (IoDone p IoOk) b) in *.
  destruct (write_ok cfg p c C4 (unpack entries ∅) C1) as (D1 & D2 & D3 & D4 & D5).
  { by rewrite C2. }
  set (d := exec cfg (IoDone p IoOk) c) in *.
  rewrite D3, C3, B3, A3, D2, <- !app_assoc. done.
Qed.

(** C1, amended.  With no extraction pending or cached in the process,
    the archive present and not itself holding a marker entry, and the
    marker, if there is one, a regular file: [ensureProductionBackend]
    starts a destructive re-extraction if and only if the payload is
    absent, or the marker is absent, or the content of the marker,
    trimmed, differs from the current version, and it touches nothing
    before that decision.  The re-extraction removes the runtime
    directory, recreates it, unpacks the archive and writes the marker
    last.  When the removal, the creation or the unpacking fails, no
    marker has been written, a marker still in the directory is the one
    that was there before, the guard is reset, the directory still meets
    the condition, and the next call starts the re-extraction again. *)
Theorem C1_version_gated_extraction
    (cfg : Config) (s : Main) (entries : list (string * Node)) :
  exited s = false →
  backendExtractPromise s = None →
  archive (fs s) = Some entries →
  BACKEND_VERSION_FILE ∉ (fst <$> entries) →
  marker (fs s) ≠ Some Dir →
  let p := length (promises s) in
  let s1 := (ensureProductionBackend cfg s).2 in
  (extracting p s1 ↔ outdated cfg (fs s))
  ∧ (¬ outdated cfg (fs s) → promises s1 !! p = Some (Fulfilled runtimeDir))
  ∧ fs s1 = fs s ∧ trace s1 = trace s
  ∧ (outdated cfg (fs s) →
       let s2 := run cfg (IoDone p <$> [IoOk; IoOk; IoOk; IoOk]) s1 in
       trace s2 = trace s ++ [Rm true; Mkdir true; Unpack true;
                              WriteVersion true (currentVersion cfg)]
       ∧ runtime (fs s2)
         = Some (write_version (currentVersion cfg) (unpack entries ∅))
       ∧ promises s2 !! p = Some (Fulfilled runtimeDir))
  ∧ (outdated cfg (fs s) →
       ∀ (k : nat) (survive : string → bool) (written : nat), k < 3 →
       let s2 := run cfg ((IoDone p <$> (replicate k IoOk
                                         ++ [IoFail survive written]))
                          ++ [RunCatch p]) s1 in
       count is_write_version (trace s2) = count is_write_version (trace s)
       ∧ (marker (fs s2) = None ∨ marker (fs s2) = marker (fs s))
       ∧ backendExtractPromise s2 = None
       ∧ outdated cfg (fs s2)
       ∧ extracting (length (promises s2)) (ensureProductionBackend cfg s2).2).
Proof.
  intros Hx Hg Ha Hv Hm p s1.
  destruct (ensure_fresh cfg s entries Hg Ha Hm)
    as (_ & E2 & E3 & E4 & E5 & E6 & E7 & E8).
  fold p s1 in E2, E3, E4, E5, E6, E7, E8. rewrite Hx in E4.
  split; [done|]. split.
  { intros Hn. destruct E7 as [E7|E7]; [|done]. by apply E8 in E7. }
  split; [done|]. split; [done|].
  assert (∀ s2 : Main,
            exited s2 = false → backendExtractPromise s2 = None →
            archive (fs s2) = Some entries →
            (marker (fs s2) = None ∨ marker (fs s2) = marker (fs s)) →
            outdated cfg (fs s2) →
            (marker (fs s2) = None ∨ marker (fs s2) = marker (fs s))
            ∧ backendExtractPromise s2 = None
            ∧ outdated cfg (fs s2)
            ∧ extracting (length (promises s2)) (ensureProductionBackend cfg s2).2)
    as Hnext.
  { intros s2 Hx2 Hg2 Ha2 Hm2 Ho2. repeat split; try done.
    destruct (ensure_fresh cfg s2 entries Hg2 Ha2) as (_ & _ & _ & _ & _ & _ & _ & N8).
    - destruct Hm2 as [->| ->]; done.
    - by apply N8. }
  split.
  - intros Ho. apply E8 in Ho.
    destruct (extraction_run cfg p s1 entries E4 Ho) as (R1 & R2 & R3 & _).
    { by rewrite E2. }
    cbv zeta. by rewrite R1, E3.
  - intros Ho k survive written Hk s2.
    apply E8 in Ho. subst s2. unfold run. rewrite fmap_app, foldl_app, foldl_app.
    destruct k as [|[|[|k]]]; [| | |lia]; simpl foldl.
    + destruct (rm_fail cfg p s1 E4 survive written Ho) as (A1 & A2 & A3 & A4 & A5).
      set (a := exec cfg (IoDone p (IoFail survive written)) s1) in *.
      destruct (catch_ok cfg p a A4 _ A1) as (K1 & K2 & K3 & K4 & K5 & K6).
      set (z := exec cfg (RunCatch p) a) in *.
      split.
      { rewrite K3, A3, E3, count_app. simpl. unfold count at 2. simpl. lia. }
      apply Hnext; try done.
      * by rewrite K2, A2, E2.
      * rewrite K2, A2, E2. apply marker_partial.
      * rewrite K2, A2, E2. apply outdated_partial. by apply E8.
    + destruct (rm_ok cfg p s1 E4 Ho) as (A1 & A2 & A3 & A4 & A5).
      set (a := exec cfg (IoDone p IoOk) s1) in *.
      destruct (mkdir_fail cfg p a A4 survive written A1) as (B1 & B2 & B3 & B4 & B5).
      set (b := exec cfg (IoDone p (IoFail survive written)) a) in *.
      destruct (catch_ok cfg p b B4 _ B1) as (K1 & K2 & K3 & K4 & K5 & K6).
      set (z := exec cfg (RunCatch p) b) in *.
      assert (marker (fs z) = None) as Hz by (by rewrite K2, B2, A2).
      split.
      { rewrite K3, B3, A3, E3, !count_app. simpl. unfold count at 2 3. simpl. lia. }
      apply Hnext; try done.
      * by rewrite K2, B2, A2, E2.
      * by left.
      * by apply outdated_unmarked.
    + destruct (rm_ok cfg p s1 E4 Ho) as (A1 & A2 & A3 & A4 & A5).
      set (a := exec cfg (IoDone p IoOk) s1) in *.
      destruct (mkdir_ok cfg p a A4 A1) as (B1 & B2 & B3 & B4 & B5).
      set (b := exec cfg (IoDone p IoOk) a) in *.
      destruct (unpack_fail cfg p b B4 survive written entries ∅ B1)
        as (C1 & C2 & C3 & C4 & C5).
      { by rewrite B2, A2, E2. }
      { by rewrite B2, A2. }
      set (c := exec cfg (IoDone p (IoFail survive written)) b) in *.
      destruct (catch_ok cfg p c C4 _ C1) as (K1 & K2 & K3 & K4 & K5 & K6).
      set (z := exec cfg (RunCatch p) c) in *.
      assert (marker (fs z) = None) as Hz.
      { rewrite K2, C2. unfold marker. simpl.
        rewrite unpack_lookup_notin by (by apply take_fst_notin). done. }
      split.
      { rewrite K3, C3, B3, A3, E3, !count_app. simpl.
        unfold count at 2 3 4. simpl. lia. }
      apply Hnext; try done.
      * by rewrite K2, C2, B2, A2, E2.
      * by left.
      * by apply outdated_unmarked.
Qed.

(** The upgrade of the specification, 1.0.0 to 1.1.0, through C1. *)
Lemma C1_upgrade_from_1_0_0 :
  exited (boot fs_upgrade) = false
  ∧ backendExtractPromise (boot fs_upgrade) = None
  ∧ archive (fs (boot fs_upgrade)) = Some bundle
  ∧ (BACKEND_VERSION_FILE ∉ fst <$> bundle)
  ∧ marker (fs (boot fs_upgrade)) ≠ Some Dir
  ∧ extracting 0 (ensureProductionBackend prod (boot fs_upgrade)).2
  ∧ runtime (fs (run prod (IoDone 0 <$> [IoOk; IoOk; IoOk; IoOk])
                   (ensureProductionBackend prod (boot fs_upgrade)).2))
    = Some (write_version "1.1.0" (unpack bundle ∅)).
Proof.
  assert (BACKEND_VERSION_FILE ∉ (fst <$> bundle)) as Hv by compute_done.
  assert (marker (fs (boot fs_upgrade)) ≠ Some Dir) as Hm
    by (intros H; vm_compute in H; discriminate).
  assert (outdated prod (fs (boot fs_upgrade))) as Ho.
  { right. right. exists "1.0.0". split; [reflexivity|].
    intros H. vm_compute in H. discriminate. }
  pose proof (C1_version_gated_extraction prod (boot fs_upgrade) bundle
                eq_refl eq_refl eq_refl Hv Hm) as (H1 & _ & _ & _ & H5 & _).
  do 3 (split; [reflexivity|]). split; [exact Hv|]. split; [exact Hm|].
  split; [by apply H1|]. exact (proj1 (proj2 (H5 Ho))).
Defined.

(** C1 as it is stated fails on the code in two places.  A marker that
    holds the current version followed by a line feed differs from the
    current version, and there is no re-extraction: the comparison is made
    on the trimmed content.  And when the removal, the first step, fails
    having removed nothing, the run has failed before the marker write and
    the directory is not left unmarked: it still carries its marker. *)
Lemma C1_counterexample :
  (let s1 := (ensureProductionBackend prod (boot fs_marker_newline)).2 in
   outdated_as_stated prod fs_marker_newline
   ∧ ¬ extracting 0 s1
   ∧ promises s1 !! 0 = Some (Fulfilled runtimeDir)
   ∧ trace s1 = [])
  ∧ (let s1 := (ensureProductionBackend prod (boot fs_upgrade)).2 in
     let s2 := run prod [IoDone 0 (IoFail (λ _, true) 0); RunCatch 0] s1 in
     extracting 0 s1
     ∧ promises s2 !! 0 = Some (Rejected "rm failed" true)
     ∧ marker (fs s2) ≠ None
     ∧ marker (fs s2) = Some (File "1.0.0")).
Proof.
  split.
  - split; [|by vm_compute].
    right. right. eexists. split; [by vm_compute|]. by vm_compute.
  - by vm_compute.
Qed.

(** **** Two calls *)





Lemma unpack_keeps (entries : list (string * Node)) (d : gmap string Node)
    (k : string) :
  is_Some (d !! k) → is_Some (unpack entries d !! k).
Proof.
  unfold unpack. revert d.
  induction entries as [|[k' n] l IH]; intros d Hk; [done|].
  simpl. apply IH. destruct (decide (k' = k)) as [->|Hne].
  - rewrite lookup_insert_eq. eauto.
  - by rewrite lookup_insert_ne.
Qed.

Lemma unpack_lookup_in (entries : list (string * Node)) (d : gmap string Node)
    (k : string) :
  k ∈ fst <$> entries → is_Some (unpack entries d !! k).
Proof.
  revert d. induction entries as [|[k' n] l IH]; intros d Hk.
  - by apply elem_of_nil in Hk.
  - simpl in Hk. apply elem_of_cons in Hk as [->|Hk].
    + apply (unpack_keeps l). rewrite lookup_insert_eq. eauto.
    + by apply (IH (<[k' := n]> d)).
Qed.

(** After a complete extraction, the next launch of the application (a
    new process, its guard empty) finds nothing to extract, provided the
    archive brings a venv and the version is written without surrounding
    white space. *)
Lemma extracted_is_current (cfg : Config) (fs0 : Fs) (entries : list (string * Node)) :
  "venv" ∈ fst <$> entries →
  trim (currentVersion cfg) = currentVersion cfg →
  runtime fs0 = Some (write_version (currentVersion cfg) (unpack entries ∅)) →
  ¬ outdated cfg fs0.
Proof.
  intros Hv Ht Hr. unfold outdated, payload, marker.
  rewrite Hr. simpl. unfold write_version. rewrite lookup_insert_eq.
  rewrite lookup_insert_ne by done.
  destruct (unpack_lookup_in entries ∅ "venv" Hv) as [x ->].
  intros [?|[?|(data & ? & ?)]]; by simplify_eq.
Qed.



End ElectronFacts.

(** ** Facts about the main process over all schedules *)

Module ScheduleFacts.
Import Js Electron Schedules ElectronFacts.

#[local] Arguments existsSync : simpl never.
#[local] Arguments readFileSync : simpl never.
#[local] Arguments unpack : simpl never.
#[local] Arguments write_version : simpl never.
#[local] Arguments rm_rf_partial : simpl never.
#[local] Arguments mkdir_p : simpl never.
#[local] Arguments trim : simpl never.

Lemma extract_begin_pure (cfg : Config) (s : Main) :
  (extract_begin cfg s).2 = s.
Proof.
  unfold extract_begin, needsExtract, bind, get, throw, ret, settle.
  by repeat case_match; simplify_eq/=.
Qed.

Lemma ensure_cases (cfg : Config) (s : Main) :
  (∃ p, backendExtractPromise s = Some p
        ∧ ensureProductionBackend cfg s = (p, s))
  ∨ (backendExtractPromise s = None
     ∧ ∃ P, ensureProductionBackend cfg s
            = (length (promises s),
               set_backendExtractPromise (Some (length (promises s)))
                 (set_promises (λ ps, ps ++ [P]) s))).
Proof.
  unfold ensureProductionBackend.
  destruct (backendExtractPromise s) eqn:Hg; [left; eauto|right].
  split; [done|]. pose proof (extract_begin_pure cfg s) as Hp.
  destruct (extract_begin cfg s) as [r s0]. simpl in Hp. subst s0. by eexists.
Qed.

(** What an invocation of [startBackend] does up to its first await: it
    adds its own record; the window opens when it returns at once to the
    [whenReady] handler; a promise is made only when the guard of
    [ensureProductionBackend] is clear. *)
Lemma startBackend_cases (cfg : Config) (who : Caller) (s : Main) :
  let s' := startBackend cfg who s in
  ∃ c t, calls s' = calls s ++ [c] ∧ caller c = who
    ∧ trace s' = trace s ++ t ∧ (t = [] ∨ t = [CreateWindow])
    ∧ fs s' = fs s ∧ children s' = children s
    ∧ backendProcess s' = backendProcess s ∧ exited s' = exited s
    ∧ ((promises s' = promises s
        ∧ backendExtractPromise s' = backendExtractPromise s
        ∧ (cstate c = Returned (inr tt)
           ∨ (VITE_DEV_SERVER_URL cfg = true ∧ ∃ r, cstate c = AwaitingCommand r)
           ∨ (∃ p, backendExtractPromise s = Some p ∧ cstate c = InResolver p)))
       ∨ (backendExtractPromise s = None ∧ VITE_DEV_SERVER_URL cfg = false
          ∧ ∃ P, promises s' = promises s ++ [P]
                 ∧ backendExtractPromise s' = Some (length (promises s))
                 ∧ cstate c = InResolver (length (promises s)))).
Proof.
  unfold startBackend. destruct (backendProcess s) as [b|] eqn:Hb.
  - unfold return_call, createWindow. destruct who; simpl.
    + eexists _, [CreateWindow]. rewrite Hb. repeat split; eauto.
    + eexists _, []. rewrite Hb, app_nil_r. repeat split; eauto.
  - unfold resolveBackendCommand.
    destruct (VITE_DEV_SERVER_URL cfg) eqn:Hv.
    + eexists _, []. simpl. rewrite Hb, app_nil_r.
      repeat split; eauto 8.
    + destruct (ensure_cases cfg s) as [(p & Hg & ->)|(Hg & P & ->)].
      * eexists _, []. simpl. rewrite Hb, app_nil_r.
        repeat split; eauto 10.
      * eexists _, []. simpl. rewrite Hb, app_nil_r.
        repeat split; eauto 10.
Qed.

(** The continuations, the listeners of the child and the termination
    handlers leave the file system and the extraction alone. *)
Lemma exec_extraction_frame (cfg : Config) (a : Action) (s : Main) :
  match a with
  | AppReady | CallStartBackend | IoDone _ _ | RunCatch _ => True
  | _ => let s' := exec cfg a s in
         fs s' = fs s ∧ promises s' = promises s
         ∧ backendExtractPromise s' = backendExtractPromise s
         ∧ count is_fs_effect (trace s') = count is_fs_effect (trace s)
  end.
Proof.
  destruct a; try done; unfold exec; destruct (exited s); try done.
  - destruct (calls s !! i) as [[who [p| |]]|]; try done.
    assert (∀ r, let s' :=
              (let '(cmd, s0) := resolveBackendCommand_resume cfg r s in
               set_call i {| caller := who; cstate := AwaitingCommand cmd |} s0) in
            fs s' = fs s ∧ promises s' = promises s
            ∧ backendExtractPromise s' = backendExtractPromise s
            ∧ count is_fs_effect (trace s') = count is_fs_effect (trace s)) as Hr.
    { intros r. pose proof (resolver_resume_pure cfg r s) as Hp.
      destruct (resolveBackendCommand_resume cfg r s) as [cmd s0].
      simpl in Hp. by subst s0. }
    destruct (promises s !! p) as [[|v|e [|]]|]; try done; apply Hr.
  - destruct (calls s !! i) as [[who [|r|]]|]; try done.
    destruct (startBackend_resume_cases r spawnThrows s)
      as [(msg & ->)|(cmd & st & -> & _)].
    all: unfold return_call, createWindow, count; destruct who; simpl.
    all: rewrite ?filter_app; simpl; rewrite ?length_app; simpl; repeat split; lia.
  - destruct (children s !! c) as [[| |]|]; try done.
    unfold on_error, count. simpl. rewrite filter_app, length_app. simpl.
    repeat split; lia.
  - destruct (children s !! c) as [[| |]|]; try done.
    unfold on_exit, count. destruct code as [z|]; [case_bool_decide|]; simpl.
    all: rewrite ?filter_app, ?length_app; simpl; repeat split; lia.
  - unfold on_SIGINT, process_exit, count. rewrite !cleanup_run.
    repeat case_match; simplify_eq/=.
    all: rewrite ?filter_app, ?length_app; simpl; repeat split; lia.
  - unfold on_SIGTERM, process_exit, count. rewrite !cleanup_run.
    repeat case_match; simplify_eq/=.
    all: rewrite ?filter_app, ?length_app; simpl; repeat split; lia.
  - unfold on_window_all_closed, app_quit, on_before_quit, count.
    rewrite !cleanup_run.
    repeat case_match; simplify_eq/=.
    all: rewrite ?filter_app, ?length_app; simpl; repeat split; lia.
  - unfold on_before_quit, count. rewrite !cleanup_run.
    repeat case_match; simplify_eq/=.
    all: rewrite ?filter_app, ?length_app; simpl; repeat split; lia.
  - unfold process_exit, count. rewrite !cleanup_run.
    repeat case_match; simplify_eq/=.
    all: rewrite ?filter_app, ?length_app; simpl; repeat split; lia.
Qed.

Lemma guarded_boot (fs0 : Fs) : guarded (boot fs0).
Proof. intros i P Hi. done. Qed.

Lemma guarded_frame (s s' : Main) :
  promises s' = promises s → backendExtractPromise s' = backendExtractPromise s →
  guarded s → guarded s'.
Proof. unfold guarded. by intros -> ->. Qed.

Lemma guarded_settle (s s' : Main) (p : nat) (pc : ExtractPc) (P : Promise) :
  promises s !! p = Some (Pending pc) →
  promises s' = <[p := P]> (promises s) →
  backendExtractPromise s' = backendExtractPromise s →
  guarded s → guarded s'.
Proof.
  unfold guarded. intros Hp -> -> H i Q Hi Hq.
  destruct (decide (i = p)) as [->|Hne].
  - by apply (H p (Pending pc)).
  - rewrite list_lookup_insert_ne in Hi by done. eauto.
Qed.

Lemma extract_resume_guarded (cfg : Config) (p : nat) (o : IoOutcome) (s : Main) :
  guarded s → guarded (extract_resume cfg p o s).
Proof.
  intros H. unfold extract_resume.
  destruct (promises s !! p) as [[pc| |]|] eqn:Hp; try done.
  destruct pc, o; repeat case_match;
    (eapply guarded_settle; [exact Hp|reflexivity|reflexivity|exact H]).
Qed.

Lemma catch_guarded (p : nat) (s : Main) :
  guarded s → guarded (catch_reaction p s).
Proof.
  intros H. unfold catch_reaction.
  destruct (promises s !! p) as [[|v|e [|]]|] eqn:Hp; try done.
  pose proof (H p _ Hp eq_refl) as Hg.
  intros i Q Hi Hq. simpl in *.
  destruct (decide (i = p)) as [->|Hne].
  - rewrite list_lookup_insert_eq in Hi by (by eapply lookup_lt_Some).
    by simplify_eq.
  - rewrite list_lookup_insert_ne in Hi by done.
    pose proof (H i Q Hi Hq). congruence.
Qed.

Lemma startBackend_guarded (cfg : Config) (who : Caller) (s : Main) :
  guarded s → guarded (startBackend cfg who s).
Proof.
  intros H.
  destruct (startBackend_cases cfg who s)
    as (c & t & _ & _ & _ & _ & _ & _ & _ & _
        & [(Hp & Hg & _)|(Hn & _ & P & Hp & Hg & _)]).
  - by eapply guarded_frame.
  - intros i Q Hi Hq. rewrite Hp in Hi. rewrite Hg.
    apply lookup_app_Some in Hi as [Hi|[Hl Hi]].
    + pose proof (H i Q Hi Hq). congruence.
    + apply list_lookup_singleton_Some in Hi as [Hi _]. f_equal. lia.
Qed.

Lemma exec_guarded (cfg : Config) (a : Action) (s : Main) :
  guarded s → guarded (exec cfg a s).
Proof.
  intros H. pose proof (exec_extraction_frame cfg a s) as F.
  destruct a; try (destruct F as (_ & F1 & F2 & _); by eapply guarded_frame).
  all: unfold exec; destruct (exited s); try done.
  - by apply startBackend_guarded.
  - by apply startBackend_guarded.
  - by apply extract_resume_guarded.
  - by apply catch_guarded.
Qed.

Lemma run_guarded (cfg : Config) (acts : list Action) (s : Main) :
  guarded s → guarded (run cfg acts s).
Proof.
  revert s. induction acts as [|a acts IH]; intros s H; [done|].
  simpl. by apply IH, exec_guarded.
Qed.

(** At most one extraction is in flight.  In every state the process
    reaches, on every schedule, a promise of [ensureProductionBackend]
    that is pending, fulfilled, or rejected with its [.catch] reaction
    still to run is the one [backendExtractPromise] holds; so there are
    never two of them. *)
Theorem at_most_one_extraction_in_flight
    (cfg : Config) (fs0 : Fs) (acts : list Action) (i : nat) (P : Promise) :
  promises (run cfg acts (boot fs0)) !! i = Some P →
  is_caught P = false →
  backendExtractPromise (run cfg acts (boot fs0)) = Some i
  ∧ ∀ j Q, promises (run cfg acts (boot fs0)) !! j = Some Q →
           is_caught Q = false → j = i.
Proof.
  intros Hi HP.
  pose proof (run_guarded cfg acts (boot fs0) (guarded_boot fs0)) as H.
  split; [by apply (H i P)|].
  intros j Q Hj HQ. pose proof (H i P Hi HP). pose proof (H j Q Hj HQ).
  congruence.
Qed.

Lemma one_extraction_while_two_starts_wait :
  promises (run prod [AppReady; CallStartBackend; IoDone 0 IoOk]
              (boot fs_first_launch)) !! 0 = Some (Pending AwaitMkdir)
  ∧ is_caught (Pending AwaitMkdir) = false
  ∧ backendExtractPromise (run prod [AppReady; CallStartBackend; IoDone 0 IoOk]
                             (boot fs_first_launch)) = Some 0
  ∧ ∀ j Q, promises (run prod [AppReady; CallStartBackend; IoDone 0 IoOk]
                       (boot fs_first_launch)) !! j = Some Q →
           is_caught Q = false → j = 0.
Proof.
  split; [reflexivity|]. split; [reflexivity|].
  exact (at_most_one_extraction_in_flight prod fs_first_launch
           [AppReady; CallStartBackend; IoDone 0 IoOk] 0 (Pending AwaitMkdir)
           eq_refl eq_refl).
Defined.

(** *** What the extraction leaves alone *)

Lemma extract_resume_fs (cfg : Config) (p : nat) (o : IoOutcome) (s : Main) :
  archive (fs (extract_resume cfg p o s)) = archive (fs s)
  ∧ devBackend (fs (extract_resume cfg p o s)) = devBackend (fs s).
Proof. unfold extract_resume. by repeat case_match. Qed.

Lemma exec_fs_cases (cfg : Config) (a : Action) (s : Main) :
  fs (exec cfg a s) = fs s
  ∨ ∃ p o pc, a = IoDone p o ∧ exited s = false
              ∧ promises s !! p = Some (Pending pc)
              ∧ exec cfg a s = extract_resume cfg p o s.
Proof.
  pose proof (exec_extraction_frame cfg a s) as F.
  destruct a; try (left; by destruct F as (F & _)).
  all: unfold exec; destruct (exited s) eqn:Hx; try (by left).
  - left. by destruct (startBackend_cases cfg WhenReady s)
      as (c & t & _ & _ & _ & _ & ? & _).
  - left. by destruct (startBackend_cases cfg Elsewhere s)
      as (c & t & _ & _ & _ & _ & ? & _).
  - destruct (promises s !! p) as [[pc| |]|] eqn:Hp.
    + right. by eexists _, _, _.
    + left. unfold extract_resume. by rewrite Hp.
    + left. unfold extract_resume. by rewrite Hp.
    + left. unfold extract_resume. by rewrite Hp.
  - left. unfold catch_reaction. by repeat case_match.
Qed.

Lemma run_keeps_archive (cfg : Config) (acts : list Action) (s : Main) :
  archive (fs (run cfg acts s)) = archive (fs s)
  ∧ devBackend (fs (run cfg acts s)) = devBackend (fs s).
Proof.
  revert s. induction acts as [|a acts IH]; intros s; [done|].
  simpl. destruct (IH (exec cfg a s)) as [-> ->].
  destruct (exec_fs_cases cfg a s) as [->|(p & o & pc & _ & _ & _ & ->)]; [done|].
  apply extract_resume_fs.
Qed.

(** *** The development profile *)

Lemma exec_dev_idle (cfg : Config) (a : Action) (s : Main) :
  VITE_DEV_SERVER_URL cfg = true →
  promises s = [] →
  let s' := exec cfg a s in
  promises s' = [] ∧ fs s' = fs s
  ∧ backendExtractPromise s' = backendExtractPromise s
  ∧ count is_fs_effect (trace s') = count is_fs_effect (trace s).
Proof.
  intros Hv Hp. pose proof (exec_extraction_frame cfg a s) as F.
  cbv zeta in *.
  destruct a; try (destruct F as (F1 & F2 & F3 & F4); by rewrite F1, F2, F3, F4).
  all: unfold exec; destruct (exited s); try done.
  1,2: match goal with |- context [startBackend ?cf ?w ?st] =>
         destruct (startBackend_cases cf w st)
           as (c & t & _ & _ & Ht & Ht' & Hf & _ & _ & _
               & [(Hq & Hg & _)|(_ & ? & _)]); [|congruence] end;
       simpl; rewrite Hq, Ht; unfold count; rewrite filter_app, length_app;
       destruct Ht' as [-> | ->]; simpl; repeat split; try done; lia.
  - unfold extract_resume. by rewrite Hp.
  - unfold catch_reaction. by rewrite Hp.
Qed.

(** In the development profile the main process never extracts: on
    every schedule it makes no promise of [ensureProductionBackend],
    performs no file operation and leaves the file system as it found
    it. *)
Theorem development_profile_never_extracts
    (cfg : Config) (fs0 : Fs) (acts : list Action) :
  VITE_DEV_SERVER_URL cfg = true →
  let s := run cfg acts (boot fs0) in
  fs s = fs0 ∧ promises s = [] ∧ backendExtractPromise s = None
  ∧ count is_fs_effect (trace s) = 0.
Proof.
  intros Hv.
  assert (∀ s, promises s = [] →
            let s' := run cfg acts s in
            promises s' = [] ∧ fs s' = fs s
            ∧ backendExtractPromise s' = backendExtractPromise s
            ∧ count is_fs_effect (trace s') = count is_fs_effect (trace s)) as H.
  { induction acts as [|a acts IH]; intros s Hp; [done|].
    simpl. destruct (exec_dev_idle cfg a s Hv Hp) as (E1 & E2 & E3 & E4).
    destruct (IH _ E1) as (I1 & I2 & I3 & I4).
    rewrite I2, I3, I4. done. }
  destruct (H (boot fs0) eq_refl) as (H1 & H2 & H3 & H4). done.
Qed.

Lemma development_start_without_extraction :
  VITE_DEV_SERVER_URL dev = true
  ∧ let s := run dev [AppReady; IoDone 0 IoOk; ResumeStart 0 false; SigTerm]
               (boot fs_dev) in
    fs s = fs_dev ∧ promises s = [] ∧ backendExtractPromise s = None
    ∧ count is_fs_effect (trace s) = 0.
Proof.
  split; [reflexivity|].
  exact (development_profile_never_extracts dev fs_dev
           [AppReady; IoDone 0 IoOk; ResumeStart 0 false; SigTerm] eq_refl).
Defined.

(** *** After the extraction *)

Lemma exec_extracted (cfg : Config) (a : Action) (s : Main) :
  guarded s → extracted s →
  let s' := exec cfg a s in
  fs s' = fs s ∧ promises s' = promises s
  ∧ backendExtractPromise s' = backendExtractPromise s
  ∧ count is_fs_effect (trace s') = count is_fs_effect (trace s).
Proof.
  intros G (p & v & Hg & Hp). pose proof (exec_extraction_frame cfg a s) as F.
  cbv zeta in *.
  destruct a; try done.
  all: unfold exec; destruct (exited s); try done.
  1,2: match goal with |- context [startBackend ?cf ?w ?st] =>
         destruct (startBackend_cases cf w st)
           as (c & t & _ & _ & Ht & Ht' & Hf & _ & _ & _
               & [(Hq & Hg' & _)|(? & _)]); [|congruence] end;
       simpl; rewrite Ht; unfold count; rewrite filter_app, length_app;
       destruct Ht' as [-> | ->]; simpl; repeat split; try done; lia.
  - unfold extract_resume.
    destruct (promises s !! p0) as [[pc| |]|] eqn:Hp0; try done.
    pose proof (G p0 _ Hp0 eq_refl). congruence.
  - unfold catch_reaction.
    destruct (promises s !! p0) as [[|w|e [|]]|] eqn:Hp0; try done.
    pose proof (G p0 _ Hp0 eq_refl). congruence.
Qed.

Lemma run_extracted (cfg : Config) (acts : list Action) (s : Main) :
  guarded s → extracted s →
  let s' := run cfg acts s in
  fs s' = fs s ∧ promises s' = promises s
  ∧ backendExtractPromise s' = backendExtractPromise s
  ∧ count is_fs_effect (trace s') = count is_fs_effect (trace s).
Proof.
  revert s. induction acts as [|a acts IH]; intros s G E; [done|].
  simpl. destruct (exec_extracted cfg a s G E) as (E1 & E2 & E3 & E4).
  destruct (IH (exec cfg a s)) as (I1 & I2 & I3 & I4).
  - by apply exec_guarded.
  - destruct E as (p & v & Hg & Hp). exists p, v. by rewrite E2, E3.
  - by rewrite I1, I2, I3, I4.
Qed.

(** A completed extraction is final.  Once the promise the guard holds
    is fulfilled, whatever happens afterwards (further starts, late
    completions, exits of the child, restarts) performs no file operation:
    the file system, the promise and the guard stay as they are for the
    rest of the process. *)
Theorem completed_extraction_is_final
    (cfg : Config) (fs0 : Fs) (before after : list Action) (p : nat) (v : Path) :
  backendExtractPromise (run cfg before (boot fs0)) = Some p →
  promises (run cfg before (boot fs0)) !! p = Some (Fulfilled v) →
  let s := run cfg before (boot fs0) in
  let s' := run cfg after s in
  fs s' = fs s ∧ promises s' = promises s
  ∧ backendExtractPromise s' = Some p
  ∧ count is_fs_effect (trace s') = count is_fs_effect (trace s).
Proof.
  intros Hg Hp s s'.
  destruct (run_extracted cfg after s) as (H1 & H2 & H3 & H4).
  - apply run_guarded, guarded_boot.
  - by exists p, v.
  - subst s s'. by rewrite H1, H2, H3, H4.
Qed.

Lemma late_starts_after_first_launch :
  backendExtractPromise
    (run prod (startup IoOk IoOk IoOk IoOk false) (boot fs_first_launch)) = Some 0
  ∧ promises
      (run prod (startup IoOk IoOk IoOk IoOk false) (boot fs_first_launch)) !! 0
    = Some (Fulfilled runtimeDir)
  ∧ let s := run prod (startup IoOk IoOk IoOk IoOk false) (boot fs_first_launch) in
    let s' := run prod [ChildExit 0 (Some 1%Z) None; CallStartBackend;
                        IoDone 0 IoOk; RunCatch 0; ResumeResolver 1;
                        ResumeStart 1 false] s in
    fs s' = fs s ∧ promises s' = promises s
    ∧ backendExtractPromise s' = Some 0
    ∧ count is_fs_effect (trace s') = count is_fs_effect (trace s).
Proof.
  split; [reflexivity|]. split; [reflexivity|].
  exact (completed_extraction_is_final prod fs_first_launch
           (startup IoOk IoOk IoOk IoOk false)
           [ChildExit 0 (Some 1%Z) None; CallStartBackend;
            IoDone 0 IoOk; RunCatch 0; ResumeResolver 1; ResumeStart 1 false]
           0 runtimeDir eq_refl eq_refl).
Defined.

(** *** The production profile never spawns a missing interpreter *)

Lemma exec_supervision_frame (cfg : Config) (a : Action) (s : Main) :
  match a with
  | IoDone _ _ | RunCatch _ | SigInt | SigTerm | WindowAllClosed
  | BeforeQuit | ProcessExit =>
      calls (exec cfg a s) = calls s ∧ children (exec cfg a s) = children s
  | _ => True
  end.
Proof.
  destruct a; try done; unfold exec; destruct (exited s); try done.
  - by destruct (extract_resume_frame cfg p o s) as (? & _ & ? & _).
  - unfold catch_reaction. by repeat case_match.
  - unfold on_SIGINT, process_exit. rewrite !cleanup_run. by repeat case_match.
  - unfold on_SIGTERM, process_exit. rewrite !cleanup_run. by repeat case_match.
  - unfold on_window_all_closed, app_quit, on_before_quit.
    rewrite !cleanup_run. by repeat case_match.
  - unfold on_before_quit. rewrite !cleanup_run. by repeat case_match.
  - unfold process_exit. rewrite !cleanup_run. by repeat case_match.
Qed.

Lemma resume_resolver_cases (cfg : Config) (i : nat) (s : Main) :
  exec cfg (ResumeResolver i) s = s
  ∨ ∃ who p r,
      calls s !! i = Some {| caller := who; cstate := InResolver p |}
      ∧ exec cfg (ResumeResolver i) s
        = set_call i {| caller := who; cstate := AwaitingCommand r |} s
      ∧ ∀ cmd, r = inr cmd →
               existsSync (fs s) (command cmd) = true
               ∧ ∃ v, promises s !! p = Some (Fulfilled v).
Proof.
  unfold exec. destruct (exited s); [by left|].
  destruct (calls s !! i) as [[who [p| |]]|] eqn:Hi; try (by left).
  destruct (promises s !! p) as [[|v|e [|]]|] eqn:Hp; try (by left).
  - right. exists who, p.
    unfold resolveBackendCommand_resume, bind, settle, get, throw, ret.
    destruct (existsSync (fs s) (pythonIn cfg v)) eqn:He; simpl.
    + eexists. split; [done|]. split; [done|].
      intros cmd [= <-]. simpl. eauto.
    + eexists. split; [done|]. split; [done|]. by intros cmd [=].
  - right. exists who, p.
    unfold resolveBackendCommand_resume, bind, settle, get, throw, ret. simpl.
    eexists. split; [done|]. split; [done|]. by intros cmd [=].
Qed.

Lemma resume_start_cases (cfg : Config) (i : nat) (t : bool) (s : Main) :
  exec cfg (ResumeStart i t) s = s
  ∨ ∃ who r c s1,
      calls s !! i = Some {| caller := who; cstate := AwaitingCommand r |}
      ∧ exec cfg (ResumeStart i t) s = set_call i c s1
      ∧ cstate c = Returned (inr tt)
      ∧ fs s1 = fs s ∧ promises s1 = promises s
      ∧ backendExtractPromise s1 = backendExtractPromise s
      ∧ calls s1 = calls s
      ∧ ((∃ u, children s1 = children s ∧ backendProcess s1 = backendProcess s
               ∧ trace s1 = trace s ++ u ∧ ∀ k, count (is_kill k) u = 0)
         ∨ (∃ cmd u,
              r = inr cmd
              ∧ children s1
                = children s
                  ++ [if existsSync (fs s) (command cmd) then Live else SpawnFailed]
              ∧ backendProcess s1 = Some (length (children s))
              ∧ trace s1 = trace s ++ Spawn (length (children s)) cmd :: u
              ∧ ∀ k, count (is_kill k) u = 0)).
Proof.
  unfold exec. destruct (exited s); [by left|].
  destruct (calls s !! i) as [[who [|r|]]|] eqn:Hi; try (by left).
  right. exists who, r.
  destruct (startBackend_resume_cases r t s)
    as [(msg & ->)|(cmd & st & -> & -> & _ & ->)].
  - unfold return_call, createWindow. destruct who; simpl.
    + eexists _, _. split; [done|]. split; [done|]. simpl.
      repeat (split; [done|]). left.
      exists [ConsoleError msg; CreateWindow]. by rewrite <- app_assoc.
    + eexists _, _. split; [done|]. split; [done|]. simpl.
      repeat (split; [done|]). left. by exists [ConsoleError msg].
  - unfold return_call, createWindow. destruct who; simpl.
    + eexists _, _. split; [done|]. split; [done|]. simpl.
      repeat (split; [done|]). right.
      exists cmd, [CreateWindow]. by rewrite <- app_assoc.
    + eexists _, _. split; [done|]. split; [done|]. simpl.
      repeat (split; [done|]). right. by exists cmd, [].
Qed.

Lemma extracted_frame (s s' : Main) :
  promises s' = promises s → backendExtractPromise s' = backendExtractPromise s →
  extracted s → extracted s'.
Proof. unfold extracted. by intros -> ->. Qed.

Lemma command_ready_frame (s s' : Main) :
  calls s' = calls s → fs s' = fs s → promises s' = promises s →
  backendExtractPromise s' = backendExtractPromise s →
  command_ready s → command_ready s'.
Proof. unfold command_ready, extracted. by intros -> -> -> ->. Qed.

Lemma command_ready_none (s s' : Main) :
  calls s' = calls s → ¬ extracted s → command_ready s → command_ready s'.
Proof.
  intros Hc Hn H i c cmd Hi Hs. rewrite Hc in Hi.
  by destruct (H i c cmd Hi Hs) as [_ ?].
Qed.

Lemma command_ready_insert (s s' : Main) (i : nat) (c : Call) :
  calls s' = <[i := c]> (calls s) → fs s' = fs s → promises s' = promises s →
  backendExtractPromise s' = backendExtractPromise s →
  (∀ cmd, cstate c = AwaitingCommand (inr cmd) →
          existsSync (fs s) (command cmd) = true ∧ extracted s) →
  command_ready s → command_ready s'.
Proof.
  intros Hc Hf Hp Hg Hnew H j d cmd Hj Hs. rewrite Hc in Hj.
  assert (extracted s → extracted s') as He.
  { by apply extracted_frame. }
  rewrite Hf.
  destruct (decide (i = j)) as [->|Hne].
  - destruct (decide (j < length (calls s))).
    + rewrite list_lookup_insert_eq in Hj by done. simplify_eq.
      destruct (Hnew cmd Hs). auto.
    + rewrite list_insert_ge in Hj by lia. destruct (H j d cmd Hj Hs). auto.
  - rewrite list_lookup_insert_ne in Hj by done.
    destruct (H j d cmd Hj Hs). auto.
Qed.

Lemma exec_command_ready (cfg : Config) (a : Action) (s : Main) :
  VITE_DEV_SERVER_URL cfg = false →
  guarded s → command_ready s → command_ready (exec cfg a s).
Proof.
  intros Hv G H.
  pose proof (exec_extraction_frame cfg a s) as F.
  pose proof (exec_supervision_frame cfg a s) as F'.
  cbv zeta in *.
  destruct a.
  1,2: unfold exec; destruct (exited s); [done|];
       match goal with |- context [startBackend ?cf ?w ?st] =>
         destruct (startBackend_cases cf w st)
           as (c & t & Hc & _ & _ & _ & Hf & _ & _ & _
               & [(Hq & Hg & Hs)|(Hn & _ & P & Hq & Hg & Hs)]) end.
  1,3: intros j d cmd Hj Hd; rewrite Hc in Hj; rewrite Hf;
       apply lookup_app_Some in Hj as [Hj|[_ Hj]];
       [destruct (H j d cmd Hj Hd) as [? E]; split; [done|];
        by apply (extracted_frame s)
       |apply list_lookup_singleton_Some in Hj as [_ <-];
        destruct Hs as [?|[[? _]|(? & _ & ?)]]; congruence].
  1,2: intros j d cmd Hj Hd; rewrite Hc in Hj;
       apply lookup_app_Some in Hj as [Hj|[_ Hj]];
       [destruct (H j d cmd Hj Hd) as [_ (p & v & ? & _)]; congruence
       |apply list_lookup_singleton_Some in Hj as [_ <-]; congruence].
  - destruct F' as [Fc _].
    destruct (exec_fs_cases cfg (IoDone p o) s)
      as [Hfs|(p' & o' & pc & [= <- <-] & Hx & Hp & He)].
    + unfold exec in *. destruct (exited s); [done|].
      unfold extract_resume in *.
      destruct (promises s !! p) as [[pc| |]|] eqn:Hp; try done.
      apply (command_ready_none s); [done| |done].
      intros (q & v & Hq & Hv'). pose proof (G p _ Hp eq_refl). congruence.
    + apply (command_ready_none s); [done| |done].
      intros (q & v & Hq & Hv'). pose proof (G p _ Hp eq_refl). congruence.
  - destruct F' as [Fc _]. unfold exec in *. destruct (exited s); [done|].
    unfold catch_reaction in *.
    destruct (promises s !! p) as [[|w|e [|]]|] eqn:Hp; try done.
    apply (command_ready_none s); [done| |done].
    intros (q & v & Hq & Hv'). pose proof (G p _ Hp eq_refl). congruence.
  - destruct F as (F1 & F2 & F3 & _).
    destruct (resume_resolver_cases cfg i s)
      as [->|(who & p & r & Hi & He & Hr)]; [done|].
    eapply (command_ready_insert s); [by rewrite He|done..| |done].
    simpl. intros cmd [= ->]. destruct (Hr cmd eq_refl) as (Hex & v & Hp).
    split; [done|]. exists p, v. split; [|done]. by apply (G p (Fulfilled v)).
  - destruct F as (F1 & F2 & F3 & _).
    destruct (resume_start_cases cfg i spawnThrows s)
      as [->|(who & r & c & s1 & Hi & He & Hc & _ & _ & _ & Hk & _)]; [done|].
    eapply (command_ready_insert s); [by rewrite He; simpl; rewrite Hk|done..| |done].
    rewrite Hc. by intros cmd [=].
  - destruct F as (F1 & F2 & F3 & _).
    apply (command_ready_frame s); try done.
    unfold exec. destruct (exited s); [done|]. by repeat case_match.
  - destruct F as (F1 & F2 & F3 & _).
    apply (command_ready_frame s); try done.
    unfold exec, on_exit. destruct (exited s); [done|]. by repeat case_match.
  - destruct F as (F1 & F2 & F3 & _), F' as [? _].
    by apply (command_ready_frame s).
  - destruct F as (F1 & F2 & F3 & _), F' as [? _].
    by apply (command_ready_frame s).
  - destruct F as (F1 & F2 & F3 & _), F' as [? _].
    by apply (command_ready_frame s).
  - destruct F as (F1 & F2 & F3 & _), F' as [? _].
    by apply (command_ready_frame s).
  - destruct F as (F1 & F2 & F3 & _), F' as [? _].
    by apply (command_ready_frame s).
Qed.

Lemma exec_no_failed_child (cfg : Config) (a : Action) (s : Main) :
  command_ready s → SpawnFailed ∉ children s →
  SpawnFailed ∉ children (exec cfg a s).
Proof.
  intros H Hn.
  pose proof (exec_supervision_frame cfg a s) as F'.
  destruct a; try (by rewrite (proj2 F')).
  - unfold exec. destruct (exited s); [done|].
    destruct (startBackend_cases cfg WhenReady s)
      as (c & t & _ & _ & _ & _ & _ & -> & _). done.
  - unfold exec. destruct (exited s); [done|].
    destruct (startBackend_cases cfg Elsewhere s)
      as (c & t & _ & _ & _ & _ & _ & -> & _). done.
  - destruct (resume_resolver_cases cfg i s)
      as [->|(who & p & r & Hi & -> & Hr)]; done.
  - destruct (resume_start_cases cfg i spawnThrows s)
      as [->|(who & r & c & s1 & Hi & -> & _ & _ & _ & _ & _
              & [(u & Hc & _)|(cmd & u & -> & Hc & _)])];
      [done|by simpl; rewrite Hc|].
    simpl. rewrite Hc. destruct (H i _ cmd Hi eq_refl) as [-> _].
    intros [?|?%list_elem_of_singleton]%elem_of_app; done.
  - unfold exec. destruct (exited s); [done|].
    destruct (children s !! c) as [[| |]|]; try done. simpl.
    intros Hin. apply list_elem_of_lookup in Hin as [j Hj].
    destruct (decide (c = j)) as [->|Hne].
    + destruct (decide (j < length (children s))).
      * rewrite list_lookup_insert_eq in Hj by done. done.
      * rewrite list_insert_ge in Hj by lia. apply Hn, list_elem_of_lookup. eauto.
    + rewrite list_lookup_insert_ne in Hj by done.
      apply Hn, list_elem_of_lookup. eauto.
  - unfold exec, on_exit. destruct (exited s); [done|].
    destruct (children s !! c) as [[| |]|]; try done.
    assert (SpawnFailed ∉ <[c := Gone]> (children s)) as Hg.
    { intros Hin. apply list_elem_of_lookup in Hin as [j Hj].
      destruct (decide (c = j)) as [->|Hne].
      + destruct (decide (j < length (children s))).
        * rewrite list_lookup_insert_eq in Hj by done. done.
        * rewrite list_insert_ge in Hj by lia.
          apply Hn, list_elem_of_lookup. eauto.
      + rewrite list_lookup_insert_ne in Hj by done.
        apply Hn, list_elem_of_lookup. eauto. }
    by repeat case_match.
Qed.

Lemma exec_spawns (cfg : Config) (a : Action) (s : Main) :
  ∃ t, trace (exec cfg a s) = trace s ++ t
       ∧ ∀ c cmd, Spawn c cmd ∈ t →
           ∃ i who, calls s !! i
                    = Some {| caller := who; cstate := AwaitingCommand (inr cmd) |}.
Proof.
  assert (∀ t : list Effect, Forall (λ e, is_spawn e = false) t →
            ∀ c cmd, Spawn c cmd ∈ t →
              ∃ i who, calls s !! i
                       = Some {| caller := who;
                                 cstate := AwaitingCommand (inr cmd) |}) as Hno.
  { intros t Ht c cmd Hin. rewrite Forall_forall in Ht. by apply Ht in Hin. }
  assert (∃ t, trace s = trace s ++ t
               ∧ ∀ c cmd, Spawn c cmd ∈ t →
                   ∃ i who, calls s !! i
                            = Some {| caller := who;
                                      cstate := AwaitingCommand (inr cmd) |}) as Hsame.
  { exists []. split; [by rewrite app_nil_r|]. by intros c cmd ?%elem_of_nil. }
  destruct a; unfold exec; destruct (exited s) eqn:Hx; try exact Hsame.
  - destruct (startBackend_cases cfg WhenReady s)
      as (c & t & _ & _ & -> & Ht & _).
    exists t. split; [done|]. apply Hno.
    destruct Ht as [-> | ->]; by repeat constructor.
  - destruct (startBackend_cases cfg Elsewhere s)
      as (c & t & _ & _ & -> & Ht & _).
    exists t. split; [done|]. apply Hno.
    destruct Ht as [-> | ->]; by repeat constructor.
  - destruct (extract_resume_frame cfg p o s)
      as (_ & _ & _ & _ & _ & _ & [-> |(e & -> & _ & He)]); [exact Hsame|].
    exists [e]. split; [done|]. apply Hno. by repeat constructor.
  - unfold catch_reaction. by repeat case_match.
  - pose proof (resume_resolver_cases cfg i s) as Hr.
    unfold exec in Hr. rewrite Hx in Hr.
    by destruct Hr as [->|(who & q & r & _ & -> & _)].
  - destruct (calls s !! i) as [[who [|r|]]|] eqn:Hi; try exact Hsame.
    destruct (startBackend_resume_cases r spawnThrows s)
      as [(msg & ->)|(cmd & st & -> & -> & _ & _)].
    + unfold return_call, createWindow. destruct who; simpl.
      * exists [ConsoleError msg; CreateWindow].
        split; [by rewrite <- app_assoc|]. apply Hno. by repeat constructor.
      * exists [ConsoleError msg]. split; [done|]. apply Hno.
        by repeat constructor.
    + unfold return_call, createWindow. destruct who; simpl.
      * exists [Spawn (length (children s)) cmd; CreateWindow].
        split; [by rewrite <- app_assoc|].
        intros c cmd' [[= _ <-]|Hin]%elem_of_cons; [by eauto|].
        apply list_elem_of_singleton in Hin. done.
      * exists [Spawn (length (children s)) cmd]. split; [done|].
        intros c cmd' [= _ <-]%list_elem_of_singleton. by eauto.
  - destruct (children s !! c) as [[| |]|]; try exact Hsame.
    exists [ConsoleError "Failed to start backend"]. split; [done|].
    apply Hno. by repeat constructor.
  - destruct (children s !! c) as [[| |]|]; try exact Hsame.
    unfold on_exit. destruct code as [z|]; [case_bool_decide|]; simpl;
      try exact Hsame.
    exists [ConsoleError "Backend process exited"]. split; [done|].
    apply Hno. by repeat constructor.
  - unfold on_SIGINT, process_exit. rewrite !cleanup_run.
    destruct (backendProcess s) as [b|] eqn:Hb; simpl; rewrite ?Hb; simpl.
    + exists [Kill b "SIGINT"; HostExit]. split; [by rewrite <- app_assoc|].
      apply Hno. by repeat constructor.
    + exists [HostExit]. split; [done|]. apply Hno. by repeat constructor.
  - unfold on_SIGTERM, process_exit. rewrite !cleanup_run.
    destruct (backendProcess s) as [b|] eqn:Hb; simpl; rewrite ?Hb; simpl.
    + exists [Kill b "SIGINT"; HostExit]. split; [by rewrite <- app_assoc|].
      apply Hno. by repeat constructor.
    + exists [HostExit]. split; [done|]. apply Hno. by repeat constructor.
  - unfold on_window_all_closed, app_quit, on_before_quit.
    destruct (platform cfg); try exact Hsame.
    all: rewrite !cleanup_run;
      destruct (backendProcess s) as [b|] eqn:Hb; simpl; rewrite ?Hb; simpl.
    1,3: exists [Kill b "SIGINT"; AppQuit]; (split; [by rewrite <- app_assoc|]);
      apply Hno; by repeat constructor.
    all: exists [AppQuit]; (split; [done|]); apply Hno; by repeat constructor.
  - unfold on_before_quit. rewrite !cleanup_run.
    destruct (backendProcess s) as [b|] eqn:Hb; simpl; try exact Hsame.
    exists [Kill b "SIGINT"]. split; [done|]. apply Hno. by repeat constructor.
  - unfold process_exit. rewrite !cleanup_run.
    destruct (backendProcess s) as [b|] eqn:Hb; simpl.
    + exists [Kill b "SIGINT"; HostExit]. split; [by rewrite <- app_assoc|].
      apply Hno. by repeat constructor.
    + exists [HostExit]. split; [done|]. apply Hno. by repeat constructor.
Qed.

Lemma exec_spawned_exist (cfg : Config) (a : Action) (s : Main) :
  guarded s → command_ready s → spawned_exist s →
  spawned_exist (exec cfg a s).
Proof.
  intros G R H c cmd Hin.
  assert (existsSync (fs s) (command cmd) = true ∧ extracted s) as [He Hx].
  { destruct (exec_spawns cfg a s) as (t & Ht & Hs). rewrite Ht in Hin.
    apply elem_of_app in Hin as [Hin|Hin]; [by apply (H c)|].
    destruct (Hs c cmd Hin) as (i & who & Hi).
    by apply (R i _ cmd Hi). }
  destruct (exec_extracted cfg a s G Hx) as (F1 & F2 & F3 & _).
  rewrite F1. split; [done|]. by apply (extracted_frame s).
Qed.

(** In the production profile [spawn] is only ever called with the
    path of an interpreter that exists.  On every schedule (concurrent
    starts, failed and repeated extractions, restarts), [spawn] is reached
    only after the [existsSync] of line 106 has passed, in a file system
    that has not changed since and does not change afterwards: every
    command that has been spawned names a path that exists in the state
    reached, and no child was spawned from a path that was not there, which
    is what happens in the development profile (C8).  Existence is what
    the code checks; that the file can be executed it does not. *)
Theorem production_profile_never_spawns_a_missing_interpreter
    (cfg : Config) (fs0 : Fs) (acts : list Action) :
  VITE_DEV_SERVER_URL cfg = false →
  (SpawnFailed ∉ children (run cfg acts (boot fs0)))
  ∧ ∀ c cmd, Spawn c cmd ∈ trace (run cfg acts (boot fs0)) →
             existsSync (fs (run cfg acts (boot fs0))) (command cmd) = true.
Proof.
  intros Hv.
  assert (∀ s, guarded s → command_ready s → spawned_exist s →
               SpawnFailed ∉ children s →
               (SpawnFailed ∉ children (run cfg acts s))
               ∧ spawned_exist (run cfg acts s)) as H.
  { induction acts as [|a acts IH]; intros s G R E N; [done|].
    simpl. apply IH.
    - by apply exec_guarded.
    - by apply exec_command_ready.
    - by apply exec_spawned_exist.
    - by apply exec_no_failed_child. }
  destruct (H (boot fs0)) as [H1 H2].
  - apply guarded_boot.
  - by intros i c cmd Hi.
  - by intros c cmd ?%elem_of_nil.
  - by intros ?%elem_of_nil.
  - split; [done|]. intros c cmd Hin. by destruct (H2 c cmd Hin).
Qed.

Lemma production_two_starts_spawn_the_extracted_interpreter :
  VITE_DEV_SERVER_URL prod = false
  ∧ children
      (run prod ([AppReady; CallStartBackend]
                 ++ (IoDone 0 <$> [IoOk; IoOk; IoOk; IoOk])
                 ++ [ResumeResolver 0; ResumeResolver 1;
                     ResumeStart 0 false; ResumeStart 1 false])
         (boot fs_first_launch)) = [Live; Live]
  ∧ count is_spawn
      (trace
         (run prod ([AppReady; CallStartBackend]
                    ++ (IoDone 0 <$> [IoOk; IoOk; IoOk; IoOk])
                    ++ [ResumeResolver 0; ResumeResolver 1;
                        ResumeStart 0 false; ResumeStart 1 false])
            (boot fs_first_launch))) = 2
  ∧ (SpawnFailed ∉ children
       (run prod ([AppReady; CallStartBackend]
                  ++ (IoDone 0 <$> [IoOk; IoOk; IoOk; IoOk])
                  ++ [ResumeResolver 0; ResumeResolver 1;
                      ResumeStart 0 false; ResumeStart 1 false])
          (boot fs_first_launch)))
  ∧ ∀ c cmd,
      Spawn c cmd ∈ trace
        (run prod ([AppReady; CallStartBackend]
                   ++ (IoDone 0 <$> [IoOk; IoOk; IoOk; IoOk])
                   ++ [ResumeResolver 0; ResumeResolver 1;
                       ResumeStart 0 false; ResumeStart 1 false])
           (boot fs_first_launch)) →
      existsSync
        (fs (run prod ([AppReady; CallStartBackend]
                       ++ (IoDone 0 <$> [IoOk; IoOk; IoOk; IoOk])
                       ++ [ResumeResolver 0; ResumeResolver 1;
                           ResumeStart 0 false; ResumeStart 1 false])
               (boot fs_first_launch)))
        (command cmd) = true.
Proof.
  split; [reflexivity|]. split; [reflexivity|]. split; [reflexivity|].
  exact (production_profile_never_spawns_a_missing_interpreter prod
           fs_first_launch
           ([AppReady; CallStartBackend]
            ++ (IoDone 0 <$> [IoOk; IoOk; IoOk; IoOk])
            ++ [ResumeResolver 0; ResumeResolver 1;
                ResumeStart 0 false; ResumeStart 1 false]) eq_refl).
Defined.

(** *** No child is signalled twice *)

Lemma count_kill_cons (k c : nat) (sig : string) (t : list Effect) :
  count (is_kill k) (Kill c sig :: t)
  = (if decide (c = k) then 1 else 0) + count (is_kill k) t.
Proof.
  unfold count. rewrite filter_cons. simpl.
  destruct (decide (c = k)) as [->|Hne].
  - rewrite bool_decide_eq_true_2 by done. by rewrite decide_True by done.
  - rewrite bool_decide_eq_false_2 by done. by rewrite decide_False by done.
Qed.

Lemma exec_signal_cases (cfg : Config) (a : Action) (s : Main) :
  let s' := exec cfg a s in
  ((∀ k, count (is_kill k) (trace s') = count (is_kill k) (trace s))
   ∧ ((length (children s') = length (children s)
       ∧ (backendProcess s' = backendProcess s ∨ backendProcess s' = None))
      ∨ (length (children s') = S (length (children s))
         ∧ backendProcess s' = Some (length (children s)))))
  ∨ (∃ c t, backendProcess s = Some c ∧ backendProcess s' = None
       ∧ length (children s') = length (children s)
       ∧ trace s' = trace s ++ Kill c "SIGINT" :: t
       ∧ ∀ k, count (is_kill k) t = 0).
Proof.
  cbv zeta.
  assert (∀ s0, let s' := run_ cleanup s0 in
            children s' = children s0
            ∧ ((backendProcess s0 = None ∧ s' = s0)
               ∨ ∃ c, backendProcess s0 = Some c ∧ backendProcess s' = None
                      ∧ trace s' = trace s0 ++ [Kill c "SIGINT"])) as Hclean.
  { intros s0. cbv zeta. rewrite cleanup_run.
    destruct (backendProcess s0) eqn:Hb; simpl; eauto 8. }
  destruct a; unfold exec; destruct (exited s) eqn:Hx; try (left; by eauto).
  - destruct (startBackend_cases cfg WhenReady s)
      as (c & t & _ & _ & -> & Ht & _ & -> & -> & _).
    left. split; [|by eauto].
    intros k. rewrite count_app. by destruct Ht as [-> | ->].
  - destruct (startBackend_cases cfg Elsewhere s)
      as (c & t & _ & _ & -> & Ht & _ & -> & -> & _).
    left. split; [|by eauto].
    intros k. rewrite count_app. by destruct Ht as [-> | ->].
  - left. destruct (extract_resume_frame cfg p o s) as (-> & -> & _).
    split; [|by eauto]. intros k.
    unfold extract_resume. repeat case_match; simpl; rewrite ?count_app; simpl; done.
  - left. unfold catch_reaction. repeat case_match; simpl; eauto.
  - left. pose proof (resume_resolver_cases cfg i s) as Hr.
    unfold exec in Hr. rewrite Hx in Hr.
    destruct Hr as [->|(who & q & r & _ & -> & _)]; simpl; eauto.
  - left. pose proof (resume_start_cases cfg i spawnThrows s) as Hr.
    unfold exec in Hr. rewrite Hx in Hr.
    destruct Hr as [->|(who & r & c & s1 & _ & -> & _ & _ & _ & _ & _
                        & [(u & E1 & E2 & E3 & Hu)|(cmd & u & _ & E1 & E2 & E3 & Hu)])];
      simpl; [by eauto|rewrite E1, E2, E3..].
    + split; [|by eauto]. intros k. rewrite count_app, Hu. lia.
    + split; [|right; split; [|done]; rewrite length_app; simpl; lia].
      intros k. rewrite count_app.
      change (Spawn (length (children s)) cmd :: u)
        with ([Spawn (length (children s)) cmd] ++ u).
      rewrite count_app, Hu. simpl. lia.
  - left. destruct (children s !! c) as [[| |]|]; simpl; eauto.
    rewrite length_insert. split; [|by eauto].
    intros k. by rewrite count_app.
  - left. destruct (children s !! c) as [[| |]|]; simpl; eauto.
    unfold on_exit. destruct code as [z|]; [case_bool_decide|]; simpl.
    all: rewrite length_insert; split; [|by eauto].
    all: intros k; rewrite ?count_app; simpl; done.
  - unfold on_SIGINT, process_exit.
    destruct (Hclean s) as (C1 & [[Hb ->]|(c & Hb & Hb' & Ht)]).
    + destruct (Hclean s) as (C1' & [[_ ->]|(c & ? & _)]); [|congruence].
      left. simpl. split; [|by eauto]. intros k. by rewrite count_app.
    + destruct (Hclean (run_ cleanup s)) as (C2 & [[_ ->]|(c' & ? & _)]); [|congruence].
      right. exists c, [HostExit]. simpl. rewrite C1, Ht, <- app_assoc. done.
  - unfold on_SIGTERM, process_exit.
    destruct (Hclean s) as (C1 & [[Hb ->]|(c & Hb & Hb' & Ht)]).
    + destruct (Hclean s) as (C1' & [[_ ->]|(c & ? & _)]); [|congruence].
      left. simpl. split; [|by eauto]. intros k. by rewrite count_app.
    + destruct (Hclean (run_ cleanup s)) as (C2 & [[_ ->]|(c' & ? & _)]); [|congruence].
      right. exists c, [HostExit]. simpl. rewrite C1, Ht, <- app_assoc. done.
  - unfold on_window_all_closed, app_quit, on_before_quit.
    destruct (platform cfg); [|left; by eauto|].
    all: rewrite !cleanup_run; destruct (backendProcess s) as [c|] eqn:Hb; simpl;
      rewrite ?Hb; simpl.
    1,3: right; exists c, [AppQuit]; rewrite <- app_assoc; done.
    all: left; split; [|by eauto]; intros k; by rewrite count_app.
  - unfold on_before_quit.
    destruct (Hclean s) as (C1 & [[Hb ->]|(c & Hb & Hb' & Ht)]).
    + left. by eauto.
    + right. exists c, []. by rewrite C1, Ht.
  - unfold process_exit.
    destruct (Hclean s) as (C1 & [[Hb ->]|(c & Hb & Hb' & Ht)]).
    + left. simpl. split; [|by eauto]. intros k. by rewrite count_app.
    + right. exists c, [HostExit]. simpl. rewrite C1, Ht, <- app_assoc. done.
Qed.

Lemma exec_signalled_once (cfg : Config) (a : Action) (s : Main) :
  signalled_once s → signalled_once (exec cfg a s).
Proof.
  intros (H1 & H2 & H3).
  destruct (exec_signal_cases cfg a s)
    as [(Hk & [(Hl & Hb)|(Hl & Hb)])|(c & t & Hb & Hb' & Hl & Ht & Hu)].
  - split; [|split].
    + intros k. rewrite Hk. apply H1.
    + intros k Hk'. rewrite Hk, Hl. apply H2.
      destruct Hb as [Hb|Hb]; congruence.
    + intros k. rewrite Hk, Hl. apply H3.
  - split; [|split].
    + intros k. rewrite Hk. apply H1.
    + intros k Hk'. rewrite Hk, Hl. rewrite Hb in Hk'. simplify_eq.
      split; [lia|]. by apply H3.
    + intros k Hk'. rewrite Hk. apply H3. lia.
  - destruct (H2 c Hb) as [Hc Hz].
    assert (∀ k, count (is_kill k) (trace (exec cfg a s))
                 = (if decide (c = k) then 1 else 0) + count (is_kill k) (trace s))
      as Hk.
    { intros k. rewrite Ht, count_app, count_kill_cons, Hu. lia. }
    split; [|split].
    + intros k. rewrite Hk. destruct (decide (c = k)) as [<-|]; [lia|apply H1].
    + intros k. by rewrite Hb'.
    + intros k. rewrite Hk, Hl. intros Hle.
      rewrite decide_False by lia. by apply H3.
Qed.

(** No child is signalled twice.  On every schedule, whatever the
    number of starts and however the termination handlers pile up
    (SIGINT, SIGTERM, before-quit, window-all-closed, the exit of the
    process), [kill] is called at most once on each child: [cleanup]
    clears the handle as it signals. *)
Theorem no_child_is_signalled_twice
    (cfg : Config) (fs0 : Fs) (acts : list Action) (c : nat) :
  count (is_kill c) (trace (run cfg acts (boot fs0))) ≤ 1.
Proof.
  assert (∀ s, signalled_once s → signalled_once (run cfg acts s)) as H.
  { induction acts as [|a acts IH]; intros s Hs; [done|].
    simpl. by apply IH, exec_signalled_once. }
  destruct (H (boot fs0)) as (H1 & _); [|done].
  split; [|split]; simpl; try done. intros k. unfold count. simpl. lia.
Qed.


(** The "exit" listener of every child clears the handle, whichever
    child the handle points to.  After the two overlapping invocations, when
    the first child exits, the handle is empty although the second child is
    running, and on every way the host goes down [cleanup] signals nothing. *)
Lemma exit_of_the_first_child_clears_the_handle :
  let s := run dev (two_starts ++ [ChildExit 0 (Some 0%Z) None]) (boot fs_dev) in
  children s = [Gone; Live]
  ∧ backendProcess s = None
  ∧ exited s = false
  ∧ Forall (λ a, children (exec dev a s) !! 1 = Some Live
                 ∧ ∀ c, count (is_kill c) (trace (exec dev a s)) = 0)
      termination_paths.
Proof.
  cbv zeta. split; [reflexivity|]. split; [reflexivity|]. split; [reflexivity|].
  unfold termination_paths.
  repeat (apply Forall_cons; split; [split; [reflexivity|intros c; by vm_compute]|]).
  by apply Forall_nil.
Qed.

(** *** Starting again *)

Lemma start_to_end_spawns (cfg : Config) (s : Main) :
  exited s = false → backendProcess s = None → interpreter_in_place cfg s →
  let s' := run cfg (start_to_end s) s in
  backendProcess s' = Some (length (children s))
  ∧ children s' = children s ++ [Live]
  ∧ count is_spawn (trace s') = S (count is_spawn (trace s))
  ∧ exited s' = false.
Proof.
  intros Hx Hb Hi. unfold start_to_end, run. simpl.
  set (i := length (calls s)).
  unfold interpreter_in_place in Hi.
  assert (∃ c0 cmd,
            exec cfg (ResumeResolver i) (exec cfg CallStartBackend s)
            = set_calls (λ cs, cs ++ [c0]) s
            ∧ cstate c0 = AwaitingCommand (inr cmd)
            ∧ existsSync (fs s) (command cmd) = true) as (c0 & cmd & -> & Hc0 & Hex).
  { unfold exec at 2. rewrite Hx. unfold startBackend. rewrite Hb.
    unfold resolveBackendCommand.
    destruct (VITE_DEV_SERVER_URL cfg).
    - eexists _, _. split.
      { unfold exec. simpl. rewrite Hx.
        by rewrite list_lookup_middle by done. }
      split; [reflexivity|exact Hi].
    - destruct Hi as (p & v & Hg & Hp & Hex).
      unfold ensureProductionBackend. rewrite Hg.
      eexists _, _. split.
      { unfold exec. simpl. rewrite Hx.
        rewrite list_lookup_middle by done. rewrite Hp.
        unfold resolveBackendCommand_resume, bind, settle, get, throw, ret.
        simpl. rewrite Hex. simpl. unfold set_call, set_calls. simpl.
        rewrite insert_app_r_alt by (subst i; lia).
        by replace (i - length (calls s)) with 0 by (subst i; lia). }
      split; [reflexivity|exact Hex]. }
  unfold exec. simpl. rewrite Hx.
  rewrite list_lookup_middle by done.
  destruct c0 as [who st]. simpl in Hc0. subst st.
  unfold startBackend_resume, try_catch, bind, settle, spawn, modify. simpl.
  rewrite Hex. unfold return_call, createWindow.
  destruct who; simpl; rewrite !count_app; simpl.
  all: repeat split; try done; unfold count; simpl; lia.
Qed.

(** The backend can be started again after it has gone.  Once the
    child has exited, the handle is clear, and an invocation of
    [startBackend] that runs to its end spawns a new child from the
    interpreter in place and points the handle to it. *)
Theorem backend_starts_again_after_exit
    (cfg : Config) (s : Main) (c : nat) (code : option Z) (signal : option string) :
  exited s = false →
  children s !! c = Some Live →
  interpreter_in_place cfg s →
  let s1 := exec cfg (ChildExit c code signal) s in
  let s2 := run cfg (start_to_end s1) s1 in
  backendProcess s1 = None
  ∧ backendProcess s2 = Some (length (children s))
  ∧ children s2 = <[c := Gone]> (children s) ++ [Live]
  ∧ count is_spawn (trace s2) = S (count is_spawn (trace s)).
Proof.
  intros Hx Hc Hi s1.
  assert (exited s1 = false ∧ backendProcess s1 = None
          ∧ children s1 = <[c := Gone]> (children s)
          ∧ fs s1 = fs s ∧ promises s1 = promises s
          ∧ backendExtractPromise s1 = backendExtractPromise s
          ∧ count is_spawn (trace s1) = count is_spawn (trace s))
    as (X1 & X2 & X3 & X4 & X5 & X6 & X7).
  { subst s1. unfold exec. rewrite Hx, Hc. unfold on_exit.
    destruct code as [z|]; [case_bool_decide|]; simpl; rewrite ?count_app; simpl.
    all: repeat split; try done; unfold count; simpl; lia. }
  assert (interpreter_in_place cfg s1) as Hi1.
  { unfold interpreter_in_place in *. by rewrite X4, X5, X6. }
  destruct (start_to_end_spawns cfg s1 X1 X2 Hi1) as (S1 & S2 & S3 & _).
  cbv zeta. rewrite S1, S2, S3, X3, X7, length_insert. done.
Qed.

Lemma restart_after_crash :
  exited (run prod (startup IoOk IoOk IoOk IoOk false) (boot fs_first_launch)) = false
  ∧ children (run prod (startup IoOk IoOk IoOk IoOk false) (boot fs_first_launch)) !! 0
    = Some Live
  ∧ interpreter_in_place prod
      (run prod (startup IoOk IoOk IoOk IoOk false) (boot fs_first_launch))
  ∧ let s := run prod (startup IoOk IoOk IoOk IoOk false) (boot fs_first_launch) in
    let s1 := exec prod (ChildExit 0 (Some 1%Z) None) s in
    let s2 := run prod (start_to_end s1) s1 in
    backendProcess s1 = None
    ∧ backendProcess s2 = Some (length (children s))
    ∧ children s2 = <[0 := Gone]> (children s) ++ [Live]
    ∧ count is_spawn (trace s2) = S (count is_spawn (trace s)).
Proof.
  assert (interpreter_in_place prod
            (run prod (startup IoOk IoOk IoOk IoOk false) (boot fs_first_launch)))
    as Hi.
  { exists 0, runtimeDir. split; [reflexivity|]. split; reflexivity. }
  split; [reflexivity|]. split; [reflexivity|]. split; [exact Hi|].
  exact (backend_starts_again_after_exit prod
           (run prod (startup IoOk IoOk IoOk IoOk false) (boot fs_first_launch))
           0 (Some 1%Z) None eq_refl eq_refl Hi).
Defined.

(** While the backend runs, starting it is a no-op.  With the handle
    set, an invocation of [startBackend] returns at once and all it
    leaves is its own record: it spawns nothing, makes no promise, and
    the handle, the children and the file system stay as they are; its
    two continuations never become due. *)
Theorem start_while_running_does_nothing
    (cfg : Config) (s : Main) (c : nat) (t : bool) :
  exited s = false →
  backendProcess s = Some c →
  run cfg [CallStartBackend; ResumeResolver (length (calls s));
           ResumeStart (length (calls s)) t] s
  = set_calls
      (λ cs, cs ++ [{| caller := Elsewhere; cstate := Returned (inr tt) |}]) s.
Proof.
  intros Hx Hb. unfold run. simpl.
  unfold exec at 3. rewrite Hx. unfold startBackend. rewrite Hb. simpl.
  unfold exec. simpl. rewrite Hx.
  rewrite list_lookup_middle by done. simpl. rewrite Hx.
  by rewrite list_lookup_middle by done.
Qed.

Lemma second_start_after_startup :
  exited (run dev [AppReady; ResumeStart 0 false] (boot fs_dev)) = false
  ∧ backendProcess (run dev [AppReady; ResumeStart 0 false] (boot fs_dev)) = Some 0
  ∧ run dev [CallStartBackend; ResumeResolver 1; ResumeStart 1 false]
      (run dev [AppReady; ResumeStart 0 false] (boot fs_dev))
    = set_calls
        (λ cs, cs ++ [{| caller := Elsewhere; cstate := Returned (inr tt) |}])
        (run dev [AppReady; ResumeStart 0 false] (boot fs_dev)).
Proof.
  split; [reflexivity|]. split; [reflexivity|].
  exact (start_while_running_does_nothing dev
           (run dev [AppReady; ResumeStart 0 false] (boot fs_dev)) 0 false
           eq_refl eq_refl).
Defined.

End ScheduleFacts.

(** ** Facts about the guards, the downloads and the transcript *)

Module ConversationFacts.
Import Js Chat Conversation ChatFacts.

(** *** White space *)

(** The first byte of a character of two or three bytes is no white
    space of one byte, and no character of two bytes starts one of three. *)
Lemma white2_lead (a b : ascii) : white2 a b = true → white1 a = false.
Proof.
  unfold white2. intros [Ha%Ascii.eqb_eq _]%andb_true_iff. by subst.
Qed.

Lemma white3_lead (a b c : ascii) :
  white3 a b c = true → white1 a = false ∧ white2 a b = false.
Proof.
  unfold white3, white2.
  destruct (Ascii.eqb a "194") eqn:Ha.
  { apply Ascii.eqb_eq in Ha as ->. done. }
  intros H. split; [|done].
  destruct (white1 a) eqn:Hw; [|done].
  unfold white1 in Hw.
  destruct a as [[] [] [] [] [] [] [] []]; done.
Qed.

(** [trimStart] follows [blank] character by character. *)
Lemma blank_strip (n : nat) (s : string) :
  String.length s ≤ n → blank (trimStart s) = blank s.
Proof.
  unfold trimStart. revert s. induction n as [|n IH]; intros s Hn.
  { destruct s; [done|simpl in Hn; lia]. }
  destruct s as [|a [|b [|c s3]]]; simpl in *; try done.
  - destruct (white1 a) eqn:Ha; simpl; by rewrite ?Ha.
  - destruct (white1 a) eqn:Ha.
    + apply (IH (String b "")). simpl. lia.
    + destruct (white2 a b) eqn:Hab; simpl; by rewrite ?Ha, ?Hab.
  - destruct (white1 a) eqn:Ha.
    + apply (IH (String b (String c s3))). simpl. lia.
    + destruct (white2 a b) eqn:Hab.
      * apply (IH (String c s3)). simpl. lia.
      * destruct (white3 a b c) eqn:Habc.
        -- rewrite <- (IH s3) by lia. done.
        -- simpl. by rewrite Ha, Hab, Habc.
Qed.

Lemma strip_blank (n : nat) (s : string) :
  String.length s ≤ n → blank s = bool_decide (trimStart s = "").
Proof.
  unfold trimStart. revert s. induction n as [|n IH]; intros s Hn.
  { destruct s; [done|simpl in Hn; lia]. }
  destruct s as [|a [|b [|c s3]]]; simpl in *; try done.
  - by destruct (white1 a).
  - destruct (white1 a) eqn:Ha.
    + apply (IH (String b "")). simpl. lia.
    + by destruct (white2 a b).
  - destruct (white1 a) eqn:Ha.
    + apply (IH (String b (String c s3))). simpl. lia.
    + destruct (white2 a b) eqn:Hab.
      * apply (IH (String c s3)). simpl. lia.
      * destruct (white3 a b c) eqn:Habc; [|done].
        apply (IH s3). lia.
Qed.

Lemma rev_app_empty (s t : string) : String.rev_app s t = "" → s = "" ∧ t = "".
Proof.
  revert t. induction s as [|a s IH]; intros t H; simpl in H; [done|].
  by apply IH in H as [_ ?].
Qed.

Lemma rev_app_rev_app (s t u : string) :
  String.rev_app (String.rev_app s t) u = String.rev_app t (s +:+ u).
Proof. revert t. induction s as [|a s IH]; intros t; [done|]. simpl. by rewrite IH. Qed.

Lemma append_empty (s : string) : s +:+ "" = s.
Proof.
  induction s as [|a s IH]; [done|].
  change (String a (s +:+ "") = String a s). by rewrite IH.
Qed.

Lemma rev_involutive (s : string) : String.rev (String.rev s) = s.
Proof. unfold String.rev. by rewrite rev_app_rev_app, append_empty. Qed.

(** What [trimEnd] empties, read from its end, is white space only. *)
Lemma blank_rev_app (n : nat) (u acc : string) :
  String.length u ≤ n →
  strip (λ a b, white2 b a) (λ a b c, white3 c b a) u = "" →
  blank acc = true →
  blank (String.rev_app u acc) = true.
Proof.
  revert u acc. induction n as [|n IH]; intros u acc Hn Hs Hacc.
  { destruct u; [done|simpl in Hn; lia]. }
  destruct u as [|a u1]; [done|]. simpl in Hs, Hn.
  destruct (white1 a) eqn:Ha.
  { simpl. apply IH; [lia|done|]. simpl. by rewrite Ha. }
  destruct u1 as [|b u2]; [done|]. simpl in Hn.
  destruct (white2 b a) eqn:Hab.
  { simpl. apply IH; [lia|done|]. simpl.
    by rewrite (white2_lead _ _ Hab), Hab. }
  destruct u2 as [|c u3]; [done|]. simpl in Hn.
  destruct (white3 c b a) eqn:Habc; [|done].
  simpl. apply IH; [lia|done|]. simpl.
  destruct (white3_lead _ _ _ Habc) as [-> ->]. by rewrite Habc.
Qed.

(** [trim] leaves the empty string exactly of a string of white space. *)
Lemma truthy_trim (s : string) : truthy (trim s) = negb (blank s).
Proof.
  unfold trim. rewrite (strip_blank _ s (le_n _)).
  case_bool_decide as Ht; [by rewrite Ht|].
  destruct (trimEnd (trimStart s)) eqn:He; [|done].
  unfold trimEnd in He. apply rev_app_empty in He as [He _].
  apply (blank_rev_app _ _ "" (le_n _)) in He; [|done].
  fold (String.rev (String.rev (trimStart s))) in He.
  rewrite rev_involutive, (blank_strip _ s (le_n _)),
    (strip_blank _ s (le_n _)) in He.
  by apply bool_decide_eq_true in He.
Qed.

(** *** The guards of [send] *)

Lemma send_guard_cases (render live : State) :
  (blank (input render) = false ∧ model render ≠ ""
   ∧ needsDownload (selectedModel render) = false
   ∧ ∃ sess live', send render live = (Some sess, live')
                   ∧ input live' = "" ∧ loading live' = true
                   ∧ length (messages live') = length (messages live) + 2)
  ∨ ((blank (input render) = true ∨ model render = ""
      ∨ needsDownload (selectedModel render) = true)
     ∧ send render live = (None, live)).
Proof.
  unfold send, selectedModel. rewrite truthy_trim, negb_involutive.
  destruct (blank (input render)); [right; split; [by left|done]|].
  destruct (model render) as [|a m] eqn:Hm; simpl;
    [right; split; [by right; left|done]|].
  destruct (needsDownload _) eqn:Hn; [right; split; [by right; right|done]|].
  left. repeat split; try done.
  eexists _, _. split; [done|]. simpl. rewrite length_app. simpl.
  repeat split; lia.
Qed.

(** A no-break space (U+00A0) and an ideographic space (U+3000) are
    trimmed; a no-break space between two words stays. *)
Example trim_no_break_space :
  trim (String "194" (String "160" "")) = ""
  ∧ trim (String "227" (String "128" (String "128" "hi "))) = "hi"
  ∧ trim (" a" +:+ String "194" (String "160" "b "))
    = "a" +:+ String "194" (String "160" "b").
Proof. by vm_compute. Qed.

Lemma trim_empty (s : string) : trim s = "" ↔ blank s = true.
Proof.
  pose proof (truthy_trim s) as H. destruct (blank s), (trim s); naive_solver.
Qed.

(** [send] starts a stream exactly when [input.trim()] is not empty, a
    model is selected, and the selected model is not an open-source model
    still to be downloaded.  Otherwise it returns early and the state is
    left as it is: no message is added, the input is kept. *)
Theorem send_starts_exactly_when_its_guards_pass (render live : State) :
  (trim (input render) ≠ "" ∧ model render ≠ ""
   ∧ needsDownload (selectedModel render) = false
   ∧ ∃ sess live', send render live = (Some sess, live')
                   ∧ input live' = "" ∧ loading live' = true
                   ∧ length (messages live') = length (messages live) + 2)
  ∨ ((trim (input render) = "" ∨ model render = ""
      ∨ needsDownload (selectedModel render) = true)
     ∧ send render live = (None, live)).
Proof.
  destruct (send_guard_cases render live) as [(Hb & H)|([Hb|H] & Hs)].
  - left. split; [|done]. rewrite trim_empty. by rewrite Hb.
  - right. split; [|done]. left. by apply trim_empty.
  - right. split; [|done]. by right.
Qed.

(** *** Downloads *)

Lemma find_fmap {A} (P : A → bool) (f : A → A) (l : list A) :
  (∀ x, P (f x) = P x) → find P (f <$> l) = f <$> find P l.
Proof.
  intros Hf. induction l as [|x l IH]; [done|].
  rewrite fmap_cons. simpl. rewrite Hf. by destruct (P x).
Qed.

Lemma find_mark_downloaded (md sel : string) (v : bool) (l : list Model) :
  find (λ m, bool_decide (id m = sel)) (mark_downloaded md v l)
  = (λ m, if bool_decide (id m = md)
          then {| id := id m; provider := provider m; downloaded := Some v |}
          else m)
    <$> find (λ m, bool_decide (id m = sel)) l.
Proof.
  unfold mark_downloaded. apply find_fmap.
  intros m. by destruct (bool_decide (id m = md)).
Qed.

(** A download that succeeds unlocks [send].  When [downloadModel]
    resolves for the selected model, the entry of that model is marked as
    downloaded, so the download check of [send] passes and, with a
    message typed, [send] starts its stream; the [downloading] flag is
    down again.  When it fails, the list of models is as it was. *)
Theorem download_unlocks_send (render live mid : Panel) :
  handleDownloadConfirm render live = Some mid →
  model (page render) = model (page live) →
  blank (input (page live)) = false →
  let after := handleDownloadConfirm_resume render None mid in
  downloading (composer mid) = true
  ∧ downloading (composer after) = false
  ∧ needsDownload (selectedModel (page after)) = false
  ∧ (∃ sess st, send (page after) (page after) = (Some sess, st))
  ∧ ∀ err, page (handleDownloadConfirm_resume render (Some err) mid) = page live.
Proof.
  intros Hbegin Hm Hb after. unfold handleDownloadConfirm in Hbegin.
  destruct (truthy (model (page render))) eqn:Hne; [|done].
  destruct (downloading (composer render)); [done|].
  simpl in Hbegin. injection Hbegin as <-.
  assert (needsDownload (selectedModel (page after)) = false) as Hn.
  { unfold after, selectedModel, handleDownloadConfirm_resume. simpl.
    rewrite find_mark_downloaded, Hm.
    destruct (find _ (models (page live))) as [m|] eqn:Hf; [|done]. simpl.
    apply find_some in Hf as [_ Hid%bool_decide_eq_true_1].
    rewrite (bool_decide_eq_true_2 _ Hid). simpl.
    apply andb_false_iff. by right. }
  split; [done|]. split; [done|]. split; [done|]. split; [|done].
  destruct (send_guard_cases (page after) (page after))
    as [(_ & _ & _ & sess & st & Hs & _)|([H|[H|H]] & _)]; [by eauto|..].
  - unfold after in H. simpl in H. congruence.
  - unfold after in H. simpl in H. rewrite Hm, H in Hne. done.
  - congruence.
Qed.

Lemma download_of_the_local_model :
  handleDownloadConfirm (panel false) (panel false)
  = Some {| composer := {| downloading := true; deleting := false;
                           showConfirmDialog := false; showDeleteDialog := true;
                           alerts := [] |};
            page := page (panel false) |}
  ∧ model (page (panel false)) = model (page (panel false))
  ∧ blank (input (page (panel false))) = false
  ∧ send (page (panel false)) (page (panel false)) = (None, page (panel false))
  ∧ ∃ sess st, send (page (panel true)) (page (panel true)) = (Some sess, st).
Proof.
  split; [reflexivity|]. split; [reflexivity|]. split; [reflexivity|].
  split; [reflexivity|].
  exact (proj1 (proj2 (proj2 (proj2
           (download_unlocks_send (panel false) (panel false) _
              eq_refl eq_refl eq_refl))))).
Defined.

(** Deleting the local copy locks [send] again: once [deleteModel]
    resolves for the selected open-source model, [send] returns early
    whatever has been typed, and the state stays as it is. *)
Theorem delete_locks_send (render live mid : Panel) (m : Model) :
  handleDelete render live = Some mid →
  model (page render) = model (page live) →
  selectedModel (page live) = Some m →
  provider m = Some "opensource" →
  let after := handleDelete_resume render None mid in
  deleting (composer mid) = true
  ∧ deleting (composer after) = false
  ∧ send (page after) (page after) = (None, page after)
  ∧ ∀ err, page (handleDelete_resume render (Some err) mid) = page live.
Proof.
  intros Hbegin Hm Hs Hp after. unfold handleDelete in Hbegin.
  destruct (negb (truthy (model (page render))) || deleting (composer render));
    [done|].
  injection Hbegin as <-.
  split; [done|]. split; [done|]. split; [|done].
  assert (needsDownload (selectedModel (page after)) = true) as Hn.
  { unfold after, selectedModel, handleDelete_resume. simpl.
    unfold selectedModel in Hs.
    rewrite find_mark_downloaded, Hm, Hs. simpl.
    apply find_some in Hs as [_ Hid%bool_decide_eq_true_1].
    rewrite (bool_decide_eq_true_2 _ Hid). simpl.
    apply andb_true_iff. split; [by apply bool_decide_eq_true_2|done]. }
  destruct (send_guard_cases (page after) (page after))
    as [(_ & _ & ? & _)|(_ & ?)]; [congruence|done].
Qed.

Lemma delete_of_the_local_model :
  handleDelete (panel true) (panel true)
  = Some {| composer := {| downloading := false; deleting := true;
                           showConfirmDialog := true; showDeleteDialog := false;
                           alerts := [] |};
            page := page (panel true) |}
  ∧ model (page (panel true)) = model (page (panel true))
  ∧ selectedModel (page (panel true)) = Some (local_model true)
  ∧ provider (local_model true) = Some "opensource"
  ∧ send (page (panel false)) (page (panel false)) = (None, page (panel false)).
Proof.
  split; [reflexivity|]. split; [reflexivity|]. split; [reflexivity|].
  split; [reflexivity|].
  exact (proj1 (proj2 (proj2
           (delete_locks_send (panel true) (panel true) _ (local_model true)
              eq_refl eq_refl eq_refl eq_refl)))).
Defined.

(** *** The transcript *)

Lemma js_get_set_ne {A} (i j : nat) (v : A) (a : list (option A)) :
  i ≠ j → js_get j (js_set i v a) = js_get j a.
Proof.
  intros Hne. unfold js_get, js_set. case_decide as Hi.
  - by rewrite list_lookup_insert_ne.
  - destruct (decide (j < length a)) as [Hj|Hj].
    + by rewrite lookup_app_l.
    + rewrite lookup_app_r by lia.
      rewrite (lookup_ge_None_2 a j) by lia. simpl.
      destruct (decide (j - length a < i - length a)) as [Hlt|Hge].
      * rewrite lookup_app_l by (rewrite length_replicate; lia).
        by rewrite lookup_replicate_2.
      * rewrite lookup_app_r by (rewrite length_replicate; lia).
        rewrite length_replicate.
        rewrite lookup_ge_None_2; [done|]. simpl. lia.
Qed.

(** [onContent] writes one turn only: every other index of the
    transcript reads as before, and the transcript never gets shorter. *)
Theorem onContent_touches_one_turn
    (sess : Session) (chunk : string) (st : State) (j : nat) :
  j ≠ assistantIndex sess →
  js_get j (messages (onContent sess chunk st)) = js_get j (messages st)
  ∧ length (messages st) ≤ length (messages (onContent sess chunk st)).
Proof.
  intros Hj. unfold onContent.
  destruct (negb (closure_contentStarted sess)); simpl.
  all: split; [by apply js_get_set_ne|].
  all: unfold js_set; case_decide; rewrite ?length_insert, ?length_app; lia.
Qed.

Lemma onContent_leaves_the_question :
  0 ≠ assistantIndex asked_session
  ∧ js_get 0 (messages (onContent asked_session "Hel" asked_started))
    = js_get 0 (messages asked_started)
  ∧ length (messages asked_started)
    ≤ length (messages (onContent asked_session "Hel" asked_started)).
Proof.
  assert (0 ≠ assistantIndex asked_session) as H by (simpl; lia).
  split; [exact H|].
  exact (onContent_touches_one_turn asked_session "Hel" asked_started 0 H).
Defined.

(** A delta that arrives after "New chat" brings its turn back.  The
    transcript was emptied, yet the handler still writes at the index it
    computed when the message was sent: the array grows to that index, the
    slots before it are holes, the welcome screen goes away, and the list
    of messages shows, of the old conversation, the partial answer
    alone. *)
Theorem delta_after_new_chat_revives_the_turn
    (sess : Session) (chunk : string) (st : State) :
  let st' := onContent sess chunk (onNewChat st) in
  showWelcome (onNewChat st) = true
  ∧ messages st'
    = replicate (assistantIndex sess) None
      ++ [Some {| role := assistant; content := chunk |}]
  ∧ visible (messages st') = [{| role := assistant; content := chunk |}]
  ∧ showWelcome st' = false.
Proof.
  assert (messages (onContent sess chunk (onNewChat st))
          = replicate (assistantIndex sess) None
            ++ [Some {| role := assistant; content := chunk |}]) as Hm.
  { unfold onContent, onNewChat.
    destruct (negb (closure_contentStarted sess)); simpl.
    all: unfold js_set, js_get; simpl; rewrite Nat.sub_0_r;
      by destruct (assistantIndex sess). }
  cbv zeta. rewrite Hm. split; [done|]. split; [done|]. split.
  - unfold visible. rewrite omap_app. simpl.
    assert (∀ n, omap (λ m : option ChatMessage, m) (replicate n None) = [])
      as ->; [|done].
    intros n. induction n as [|n IH]; [done|]. simpl. exact IH.
  - unfold showWelcome. rewrite Hm. apply bool_decide_eq_false_2.
    rewrite length_app. simpl. lia.
Qed.

(** *** What a tick does to the transcript *)

Lemma send_none (render live st : State) :
  send render live = (None, st) → st = live.
Proof.
  unfold send.
  destruct (negb (truthy (trim (input render))) || negb (truthy (model render)));
    [congruence|].
  destruct (needsDownload _); [congruence|]. simpl. done.
Qed.

Lemma find_stream_Some (c : nat) (p : Page) (sess : Session) :
  find_stream c p = Some sess → sess ∈ streams p ∧ controller sess = c.
Proof.
  unfold find_stream. intros [Hin Hc%bool_decide_eq_true_1]%find_some.
  split; [|done]. by apply list_elem_of_In.
Qed.

(** A tick is quiet for the transcript, or sends, or stops, or applies a
    content delta, or closes a stream. *)
Lemma tick_cases (t : Tick) (p : Page) :
  let p' := tick t p in
  (messages (state p') = messages (state p)
   ∧ controllers (state p') = controllers (state p)
   ∧ streams p' = streams p
   ∧ ∀ c chunk, t = Arrive c (ContentDelta chunk) → find_stream c p = None)
  ∨ (∃ sess u,
       messages (state p')
       = messages (state p) ++ [Some u; Some {| role := assistant; content := "" |}]
       ∧ controllers (state p') = controllers (state p) ++ [false]
       ∧ streams p' = streams p ++ [sess]
       ∧ assistantIndex sess = length (messages (state p)) + 1
       ∧ controller sess = length (controllers (state p))
       ∧ ∀ c, arrivals c [t] = [])
  ∨ (∃ c0,
       messages (state p') = messages (state p)
       ∧ controllers (state p') = <[c0 := true]> (controllers (state p))
       ∧ streams p' = streams p
       ∧ ∀ c, arrivals c [t] = [])
  ∨ (∃ sess chunk old,
       t = Arrive (controller sess) (ContentDelta chunk)
       ∧ find_stream (controller sess) p = Some sess
       ∧ signal_aborted (controller sess) (state p) = false
       ∧ old = match js_get (assistantIndex sess) (messages (state p)) with
               | Some m => content m
               | None => ""
               end
       ∧ messages (state p')
         = js_set (assistantIndex sess)
             {| role := assistant; content := old +:+ chunk |}
             (messages (state p))
       ∧ controllers (state p') = controllers (state p)
       ∧ streams p' = streams p)
  ∨ (∃ c0,
       messages (state p') = messages (state p)
       ∧ controllers (state p') = controllers (state p)
       ∧ streams p' = close_stream c0 p
       ∧ ∀ c, c ≠ c0 → arrivals c [t] = []).
Proof.
  cbv zeta.
  assert (let p' := call_send p in
          (messages (state p') = messages (state p)
           ∧ controllers (state p') = controllers (state p)
           ∧ streams p' = streams p)
          ∨ (∃ sess u,
               messages (state p')
               = messages (state p)
                 ++ [Some u; Some {| role := assistant; content := "" |}]
               ∧ controllers (state p') = controllers (state p) ++ [false]
               ∧ streams p' = streams p ++ [sess]
               ∧ assistantIndex sess = length (messages (state p)) + 1
               ∧ controller sess = length (controllers (state p)))) as Hsend.
  { unfold call_send.
    destruct (send (state p) (state p)) as [[sess|] st] eqn:Hs.
    - right. destruct (send_started _ _ _ Hs) as (H1 & H2 & H3 & H4 & _).
      exists sess. eexists. simpl. by rewrite H3, H4.
    - left. apply send_none in Hs as ->. done. }
  assert (∀ c sess, find_stream c p = Some sess →
            messages (send_finally sess (state p)) = messages (state p)
            ∧ controllers (send_finally sess (state p)) = controllers (state p))
    as Hfin.
  { intros c sess _. unfold send_finally. by destruct (truthy _). }
  destruct t as [v| | |c e|c]; simpl.
  - left. done.
  - destruct Hsend as [(H1 & H2 & H3)|(sess & u & H)].
    + left. done.
    + right. left. exists sess, u. by repeat split; try apply H.
  - destruct (loading (state p)) eqn:Hl.
    + unfold stopStreaming. rewrite Hl.
      destruct (abortController (state p)) as [c0|]; simpl.
      * right. right. left. by exists c0.
      * left. done.
    + destruct (negb (truthy (trim (input (state p))))
                || negb (truthy (model (state p)))); [by left|].
      destruct Hsend as [(H1 & H2 & H3)|(sess & u & H)].
      * left. done.
      * right. left. exists sess, u. by repeat split; try apply H.
  - destruct (find_stream c p) as [sess|] eqn:Hf.
    2:{ left. repeat split; try done. by intros c' chunk [= <- _]. }
    destruct (find_stream_Some _ _ _ Hf) as [Hin <-].
    unfold streamChat_event.
    destruct (signal_aborted (controller sess) (state p)) eqn:Ha; simpl.
    + do 4 right. exists (controller sess).
      destruct (Hfin _ _ Hf) as [-> ->]. repeat split; try done.
      intros c Hc. simpl. by rewrite bool_decide_eq_false_2 by done.
    + destruct e as [chunk|chunk|i|tag]; simpl.
      * do 3 right. left. exists sess, chunk. eexists.
        split; [done|]. split; [done|]. split; [done|]. split; [reflexivity|].
        unfold onContent. by destruct (negb (closure_contentStarted sess)).
      * left. done.
      * left. done.
      * left. done.
  - destruct (find_stream c p) as [sess|] eqn:Hf.
    2:{ left. done. }
    do 4 right. exists c. simpl.
    destruct (Hfin _ _ Hf) as [-> ->]. done.
Qed.

Lemma tick_controllers (t : Tick) (p : Page) :
  length (controllers (state p)) ≤ length (controllers (state (tick t p))).
Proof.
  destruct (tick_cases t p)
    as [(_ & -> & _)|[(? & ? & _ & -> & _)|[(? & _ & -> & _)
        |[(? & ? & ? & _ & _ & _ & _ & _ & -> & _)|(? & _ & -> & _)]]]];
    rewrite ?length_app, ?length_insert; lia.
Qed.

Lemma elem_of_close_stream (c : nat) (p : Page) (sess : Session) :
  sess ∈ close_stream c p → sess ∈ streams p.
Proof. unfold close_stream. by intros [_ ?]%list_elem_of_filter. Qed.

Lemma tick_well_formed (t : Tick) (p : Page) :
  well_formed p → well_formed (tick t p).
Proof.
  intros (H1 & H2 & H3).
  destruct (tick_cases t p)
    as [(Em & Ec & Es & _)
       |[(sess & u & Em & Ec & Es & Hi & Hc & _)
       |[(c0 & Em & Ec & Es & _)
       |[(sess & chunk & old & _ & Hf & _ & _ & Em & Ec & Es)
        |(c0 & Em & Ec & Es & _)]]]];
    unfold well_formed; rewrite Em, Ec, Es.
  - done.
  - split; [|split].
    + intros [?|Hin]%elem_of_app; [done|].
      apply elem_of_cons in Hin as [?|Hin]; [done|].
      by apply list_elem_of_singleton in Hin.
    + intros x [Hx|Hx%list_elem_of_singleton]%elem_of_app.
      * destruct (H2 x Hx). rewrite !length_app. simpl. lia.
      * subst x. rewrite !length_app. simpl. lia.
    + intros x y [Hx|Hx%list_elem_of_singleton]%elem_of_app
        [Hy|Hy%list_elem_of_singleton]%elem_of_app; subst; [by auto| | |done].
      * destruct (H2 x Hx). lia.
      * destruct (H2 y Hy). lia.
  - rewrite length_insert. done.
  - destruct (find_stream_Some _ _ _ Hf) as [Hin _].
    destruct (H2 sess Hin) as [Hlt _].
    unfold js_set. rewrite decide_True by done.
    rewrite length_insert. split; [|done].
    intros Hn. apply list_elem_of_lookup in Hn as [j Hj].
    destruct (decide (assistantIndex sess = j)) as [<-|Hne].
    + rewrite list_lookup_insert_eq in Hj by done. done.
    + rewrite list_lookup_insert_ne in Hj by done.
      apply H1, list_elem_of_lookup. eauto.
  - split; [done|]. split.
    + intros x Hx%elem_of_close_stream. auto.
    + intros x y Hx%elem_of_close_stream Hy%elem_of_close_stream. auto.
Qed.

Lemma play_well_formed (ts : list Tick) (p : Page) :
  well_formed p → well_formed (play ts p).
Proof.
  revert p. induction ts as [|t ts IH]; intros p H; [done|].
  simpl. by apply IH, tick_well_formed.
Qed.

Lemma mounted_well_formed (m : string) : well_formed (mounted m).
Proof.
  split; [by intros ?%elem_of_nil|]. split.
  - by intros x ?%elem_of_nil.
  - by intros x y ?%elem_of_nil.
Qed.

Lemma visible_no_holes (msgs : list (option ChatMessage)) :
  None ∉ msgs → Some <$> visible msgs = msgs.
Proof.
  unfold visible. induction msgs as [|[m|] l IH]; intros Hn; [done| |].
  - simpl. f_equal. apply IH. intros ?. apply Hn. by right.
  - destruct Hn. by left.
Qed.

(** The transcript has no holes.  Whatever is typed, sent, stopped, and
    whatever arrives on whichever stream in whatever order, every index
    of [messages] up to its length holds a message, so that
    [messages.filter(Boolean)] of the message list drops nothing and the
    indices the list shows are those of the state. *)
Theorem transcript_never_has_holes (m : string) (ts : list Tick) :
  let st := state (play ts (mounted m)) in
  (None ∉ messages st)
  ∧ Some <$> visible (messages st) = messages st
  ∧ length (visible (messages st)) = length (messages st).
Proof.
  destruct (play_well_formed ts (mounted m) (mounted_well_formed m)) as (H & _).
  cbv zeta. split; [done|].
  pose proof (visible_no_holes _ H) as Hv. split; [done|].
  by rewrite <- Hv at 2; rewrite length_fmap.
Qed.

(** *** Streams side by side *)

Lemma find_snoc {A} (P : A → bool) (l : list A) (x : A) :
  find P (l ++ [x])
  = match find P l with
    | Some y => Some y
    | None => if P x then Some x else None
    end.
Proof.
  induction l as [|y l IH]; [done|]. simpl. by destruct (P y).
Qed.

Lemma find_close_other (c c0 : nat) (p : Page) :
  c ≠ c0 →
  find (λ sess, bool_decide (controller sess = c)) (close_stream c0 p)
  = find_stream c p.
Proof.
  intros Hne. unfold close_stream, find_stream.
  induction (streams p) as [|x l IH]; [done|].
  rewrite filter_cons. case_decide as Hx; simpl.
  - by rewrite IH.
  - rewrite IH. by rewrite bool_decide_eq_false_2 by congruence.
Qed.

Lemma signal_aborted_snoc (c : nat) (l : list bool) :
  c < length l → (l ++ [false]) !! c = l !! c.
Proof. intros. by rewrite lookup_app_l. Qed.

(** A stream that is open after a tick was open before it, unless the
    tick has just made it. *)
Lemma is_open_before (t : Tick) (p : Page) (sess : Session) :
  controller sess < length (controllers (state p)) →
  is_open sess (tick t p) → is_open sess p.
Proof.
  intros Hlt [Hf Ha]. unfold is_open, find_stream, signal_aborted in *.
  destruct (tick_cases t p)
    as [(Em & Ec & Es & _)
       |[(new & u & Em & Ec & Es & Hi & Hc & _)
       |[(c0 & Em & Ec & Es & _)
       |[(other & chunk & old & _ & _ & _ & _ & Em & Ec & Es)
        |(c0 & Em & Ec & Es & _)]]]];
    rewrite Ec, Es in *.
  - done.
  - rewrite find_snoc in Hf. rewrite lookup_app_l in Ha by done.
    split; [|done].
    destruct (find _ (streams p)) as [y|]; [done|].
    destruct (bool_decide (controller new = controller sess)); [|done].
    simplify_eq. lia.
  - split; [done|]. apply bool_decide_eq_false_2. intros Hs.
    apply bool_decide_eq_false_1 in Ha. apply Ha.
    destruct (decide (c0 = controller sess)) as [->|Hne].
    + by rewrite list_lookup_insert_eq.
    + by rewrite list_lookup_insert_ne.
  - done.
  - destruct (decide (controller sess = c0)) as [<-|Hne].
    + by rewrite find_closed in Hf.
    + rewrite find_close_other in Hf by done. done.
Qed.

Lemma is_open_before_play (ts : list Tick) (p : Page) (sess : Session) :
  controller sess < length (controllers (state p)) →
  is_open sess (play ts p) → is_open sess p.
Proof.
  revert p. induction ts as [|t ts IH]; intros p Hlt Ho; [done|].
  simpl in Ho. apply (is_open_before t); [done|].
  apply IH; [|done]. pose proof (tick_controllers t p). lia.
Qed.

(** One tick, seen from an open stream: its turn takes the content
    delta of the tick if the tick is an arrival on this stream, and is
    left alone by everything else. *)
Lemma streaming_tick (t : Tick) (p : Page) (sess : Session) (acc : string) :
  well_formed p → streaming sess acc p → is_open sess (tick t p) →
  streaming sess (foldl apply_event acc (arrivals (controller sess) [t]))
    (tick t p).
Proof.
  intros (H1 & H2 & H3) (Hf & Ha & Hg) [Hf' Ha'].
  split; [done|]. split; [done|].
  destruct (find_stream_Some _ _ _ Hf) as [Hin _].
  destruct (H2 sess Hin) as [Hidx Hctl].
  destruct (tick_cases t p)
    as [(Em & Ec & Es & Hq)
       |[(new & u & Em & Ec & Es & Hi & Hc & Hr)
       |[(c0 & Em & Ec & Es & Hr)
       |[(other & chunk & old & -> & Ho & _ & -> & Em & Ec & Es)
        |(c0 & Em & Ec & Es & Hr)]]]];
    rewrite Em.
  - destruct t as [v| | |c e|c]; simpl; try done.
    case_bool_decide as Hc; simpl; [|done]. subst c.
    destruct e as [chunk| | |]; simpl; try done.
    rewrite (Hq _ _ eq_refl) in Hf. done.
  - rewrite Hr. simpl. unfold js_get in *. by rewrite lookup_app_l.
  - by rewrite Hr.
  - simpl. case_bool_decide as Hc; simpl.
    + rewrite Hc in Ho. rewrite Hf in Ho. injection Ho as ->.
      rewrite js_get_set. by rewrite Hg.
    + rewrite js_get_set_ne; [done|].
      destruct (find_stream_Some _ _ _ Ho) as [Hin' _].
      intros Hi. apply Hc. f_equal. by apply H3; [| |right].
  - destruct (decide (controller sess = c0)) as [<-|Hne].
    + unfold find_stream in Hf'. rewrite Es, find_closed in Hf'. done.
    + by rewrite Hr.
Qed.

Lemma arrivals_cons (c : nat) (t : Tick) (ts : list Tick) :
  arrivals c (t :: ts) = arrivals c [t] ++ arrivals c ts.
Proof. unfold arrivals. simpl. by destruct (match t with Arrive _ _ => _ | _ => _ end). Qed.

Lemma streaming_side_by_side (ts : list Tick) (p : Page) (sess : Session)
    (acc : string) :
  well_formed p → streaming sess acc p → is_open sess (play ts p) →
  streaming sess (foldl apply_event acc (arrivals (controller sess) ts))
    (play ts p).
Proof.
  revert p acc. induction ts as [|t ts IH]; intros p acc W S O; [done|].
  rewrite arrivals_cons, foldl_app. simpl in *.
  assert (controller sess < length (controllers (state p))) as Hlt.
  { destruct W as (_ & H2 & _), S as (Hf & _).
    destruct (find_stream_Some _ _ _ Hf) as [Hin _]. by destruct (H2 sess Hin). }
  apply IH; [by apply tick_well_formed| |done].
  apply streaming_tick; [done..|].
  apply (is_open_before_play ts); [|done].
  pose proof (tick_controllers t p). lia.
Qed.

(** Streams that run side by side do not mix.  From a page just
    mounted, after any activity [before], take a stream that is open with
    its turn holding [acc]; then let anything happen: typing, further
    sends, stops, events and ends of other streams, in any interleaving.
    If the stream is still open at the end, its turn holds [acc] followed
    by the content deltas that arrived on this stream, in their order of
    arrival, and nothing else. *)
Theorem concurrent_streams_do_not_mix
    (m : string) (before after : list Tick) (sess : Session) (acc : string) :
  streaming sess acc (play before (mounted m)) →
  is_open sess (play after (play before (mounted m))) →
  content_at (assistantIndex sess) (play after (play before (mounted m)))
  = Some (acc +:+ concat_str (contentDeltas (arrivals (controller sess) after))).
Proof.
  intros S O.
  destruct (streaming_side_by_side after (play before (mounted m)) sess acc)
    as (_ & _ & Hg); [|done..|].
  - apply play_well_formed, mounted_well_formed.
  - unfold content_at. rewrite Hg. simpl. by rewrite apply_events_concat.
Qed.

Lemma two_answers_interleaved :
  streaming asked_session "Hel"
    (play [Type_ "Say hello"; PressEnter; Arrive 0 (ContentDelta "Hel")]
       (mounted "m"))
  ∧ is_open asked_session
      (play [Type_ "again"; PressEnter; Arrive 1 (ContentDelta "Sure");
             Arrive 0 (ContentDelta "lo"); Arrive 1 (ContentDelta ", ok");
             Arrive 0 (ReasoningDelta "hm"); Arrive 0 (ContentDelta " world")]
         (play [Type_ "Say hello"; PressEnter; Arrive 0 (ContentDelta "Hel")]
            (mounted "m")))
  ∧ content_at 1
      (play [Type_ "again"; PressEnter; Arrive 1 (ContentDelta "Sure");
             Arrive 0 (ContentDelta "lo"); Arrive 1 (ContentDelta ", ok");
             Arrive 0 (ReasoningDelta "hm"); Arrive 0 (ContentDelta " world")]
         (play [Type_ "Say hello"; PressEnter; Arrive 0 (ContentDelta "Hel")]
            (mounted "m")))
    = Some "Hello world".
Proof.
  assert (streaming asked_session "Hel"
            (play [Type_ "Say hello"; PressEnter; Arrive 0 (ContentDelta "Hel")]
               (mounted "m"))) as S.
  { split; [reflexivity|]. split; reflexivity. }
  assert (is_open asked_session
            (play [Type_ "again"; PressEnter; Arrive 1 (ContentDelta "Sure");
                   Arrive 0 (ContentDelta "lo"); Arrive 1 (ContentDelta ", ok");
                   Arrive 0 (ReasoningDelta "hm"); Arrive 0 (ContentDelta " world")]
               (play [Type_ "Say hello"; PressEnter; Arrive 0 (ContentDelta "Hel")]
                  (mounted "m")))) as O.
  { split; reflexivity. }
  split; [exact S|]. split; [exact O|].
  exact (concurrent_streams_do_not_mix "m"
           [Type_ "Say hello"; PressEnter; Arrive 0 (ContentDelta "Hel")]
           [Type_ "again"; PressEnter; Arrive 1 (ContentDelta "Sure");
            Arrive 0 (ContentDelta "lo"); Arrive 1 (ContentDelta ", ok");
            Arrive 0 (ReasoningDelta "hm"); Arrive 0 (ContentDelta " world")]
           asked_session "Hel" S O).
Defined.

End ConversationFacts.

(** ** Facts about the settings page and the sidebar *)

Module SettingsFacts.
Import Js Settings.

#[local] Arguments trim : simpl never.

Lemma form_step_invariant (e : FormEvent) (f : Form) :
  (saving (fields f) = bool_decide (inflight f ≠ [])) →
  length (inflight f) ≤ 1 →
  Forall (λ k, truthy k = true) (sent f) →
  (saving (fields (form_step e f)) = bool_decide (inflight (form_step e f) ≠ []))
  ∧ length (inflight (form_step e f)) ≤ 1
  ∧ Forall (λ k, truthy k = true) (sent (form_step e f)).
Proof.
  intros H1 H2 H3.
  assert (saving (fields f) = false →
          (saving (fields (call_save f))
           = bool_decide (inflight (call_save f) ≠ []))
          ∧ length (inflight (call_save f)) ≤ 1
          ∧ Forall (λ k, truthy k = true) (sent (call_save f))) as Hsave.
  { intros Hs. rewrite Hs in H1. symmetry in H1.
    apply bool_decide_eq_false_1 in H1. apply dec_stable in H1.
    unfold call_save, save.
    destruct (truthy (trim (key (fields f)))) eqn:Ht; simpl.
    - rewrite H1. simpl. split; [done|]. split; [lia|].
      apply Forall_app. split; [done|]. by apply Forall_singleton.
    - rewrite H1, Hs. simpl. split; [done|]. split; [lia|done]. }
  destruct e as [v| | |r|]; simpl.
  - done.
  - destruct (saving (fields f)) eqn:Hs; [by rewrite Hs|by apply Hsave].
  - destruct (saving (fields f)) eqn:Hs; simpl; [by rewrite Hs|].
    destruct (negb (truthy (trim (key (fields f))))); [by rewrite Hs|].
    by apply Hsave.
  - destruct (inflight f) as [|k rest] eqn:Hi; [by rewrite Hi|]. simpl.
    destruct rest; simpl in *; [|lia].
    split; [by destruct r|]. split; [lia|done].
  - done.
Qed.

(** Saves never overlap, and no empty key is sent.  Whatever is typed
    and however often Enter and the button are used while requests
    succeed or fail, at most one request of [saveOpenRouterKey] is in
    flight, the page shows [loading] exactly while one is, and the key of
    every request made is not empty. *)
Theorem saves_never_overlap (es : list FormEvent) :
  let f := form_run es form_mounted in
  length (inflight f) ≤ 1
  ∧ saving (fields f) = bool_decide (inflight f ≠ [])
  ∧ Forall (λ k, truthy k = true) (sent f).
Proof.
  assert (∀ f,
            saving (fields f) = bool_decide (inflight f ≠ []) →
            length (inflight f) ≤ 1 →
            Forall (λ k, truthy k = true) (sent f) →
            let f' := form_run es f in
            length (inflight f') ≤ 1
            ∧ saving (fields f') = bool_decide (inflight f' ≠ [])
            ∧ Forall (λ k, truthy k = true) (sent f')) as H.
  { induction es as [|e es IH]; intros f H1 H2 H3; [done|].
    destruct (form_step_invariant e f H1 H2 H3) as (S1 & S2 & S3).
    simpl. by apply IH. }
  apply H; simpl; [done|lia|done].
Qed.

(** The sidebar is between 200 and 500 pixels wide: wherever the
    pointer is dragged, the width handed to [onWidthChange] is the
    position of the pointer clamped to that range. *)
Theorem sidebar_width_is_clamped (clientX : Z) :
  (200 ≤ handleMouseMove clientX ≤ 500)%Z
  ∧ handleMouseMove (handleMouseMove clientX) = handleMouseMove clientX
  ∧ (handleMouseMove clientX = clientX
     ∨ (clientX < 200 ∧ handleMouseMove clientX = 200)%Z
     ∨ (500 < clientX ∧ handleMouseMove clientX = 500)%Z).
Proof. unfold handleMouseMove. lia. Qed.

End SettingsFacts.

(** ** Facts about the packaging script and the build configuration *)

Module PackagingFacts.
Import Js Electron Schedules Packaging ChatFacts ElectronFacts ScheduleFacts.

#[local] Arguments trim : simpl never.
#[local] Arguments existsSync : simpl never.
#[local] Arguments unpack : simpl never.
#[local] Arguments write_version : simpl never.

(** *** Paths that are skipped *)

Lemma prefix_app (p s q : string) :
  String.prefix p s = true → String.prefix p (s +:+ q) = true.
Proof.
  revert s. induction p as [|a p IH]; intros s H.
  - by destruct (s +:+ q).
  - destruct s as [|b s]; [done|]. rewrite append_cons. simpl in *.
    destruct (ascii_dec a b); [by apply IH|done].
Qed.

Lemma includes_unfold (n s : string) :
  includes n s
  = String.prefix n s
    || match s with
       | EmptyString => false
       | String _ s' => includes n s'
       end.
Proof. by destruct s. Qed.

Lemma includes_app (n s q : string) :
  includes n s = true → includes n (s +:+ q) = true.
Proof.
  induction s as [|a s IH]; rewrite includes_unfold.
  - rewrite orb_false_r. intros H. rewrite append_empty_l, includes_unfold.
    apply (prefix_app n "" q) in H. rewrite append_empty_l in H.
    by rewrite H.
  - intros [H|H]%orb_true_iff; rewrite append_cons, includes_unfold.
    + pose proof (prefix_app _ _ q H) as H'. rewrite append_cons in H'.
      by rewrite H'.
    + rewrite (IH H). apply orb_true_r.
Qed.

(** What is skipped stays skipped below.  A path the filter of the
    archive refuses has every path that extends it refused too, so the
    filter, applied entry by entry, leaves out the whole subtree of a
    skipped directory: nothing below [app/manager/myenv],
    [app/manager/test_venv], [venv/share/man] or a [__pycache__] is ever
    packed. *)
Theorem skipped_paths_stay_skipped_below (relativePath more : string) :
  shouldSkipEntry relativePath = true →
  shouldSkipEntry (relativePath +:+ more) = true.
Proof.
  unfold shouldSkipEntry, startsWith.
  intros [[[H|H]%orb_true_iff|H]%orb_true_iff|H]%orb_true_iff.
  - by rewrite (prefix_app _ _ _ H).
  - rewrite (prefix_app _ _ _ H). by rewrite orb_true_r.
  - rewrite (prefix_app _ _ _ H). by rewrite !orb_true_r.
  - rewrite (includes_app _ _ _ H). by rewrite !orb_true_r.
Qed.

Lemma skipped_cache_file :
  shouldSkipEntry "venv/lib/__pycache__" = true
  ∧ shouldSkipEntry ("venv/lib/__pycache__" +:+ "/site.cpython-312.pyc") = true.
Proof.
  split; [reflexivity|].
  exact (skipped_paths_stay_skipped_below "venv/lib/__pycache__"
           "/site.cpython-312.pyc" eq_refl).
Defined.

(** *** What the archive holds *)

Lemma tar_create_elem (accept : string → bool) (roots : list string)
    (tree : list (string * Node)) (e : string * Node) :
  e ∈ tar_create accept roots tree
  ↔ e ∈ tree ∧ accept e.1 = true ∧ ∃ root, root ∈ roots ∧ below root e.1 = true.
Proof.
  unfold tar_create. rewrite list_elem_of_bind. split.
  - intros (root & [[Hb Ha]%andb_true_iff He]%list_elem_of_filter & Hr). eauto.
  - intros (He & Ha & root & Hr & Hb). exists root. split; [|done].
    apply list_elem_of_filter. split; [|done]. by rewrite Hb, Ha.
Qed.

Lemma packageBackend_archive (signing : string + unit)
    (tree entries : list (string * Node)) :
  packageBackend signing tree = inr entries →
  existsIn tree "app" = true ∧ existsIn tree "venv" = true
  ∧ entries
    = tar_create (λ pathName, negb (shouldSkipEntry pathName))
        (filter (λ entry, existsIn tree entry = true) packedRoots) tree.
Proof.
  unfold packageBackend, assertPathExists.
  destruct (existsIn tree "app"); [|done].
  destruct (existsIn tree "venv"); [|done].
  destruct signing; [done|]. by intros [= <-].
Qed.

Lemma packed_root (signing : string + unit) (tree entries : list (string * Node))
    (root : string) :
  packageBackend signing tree = inr entries →
  root ∈ packedRoots → existsIn tree root = true →
  shouldSkipEntry root = false →
  root ∈ fst <$> entries.
Proof.
  intros (_ & _ & ->)%packageBackend_archive Hr He Hs.
  unfold existsIn in He. apply bool_decide_eq_true_1 in He.
  apply list_elem_of_fmap in He as (e & -> & He).
  apply list_elem_of_fmap. exists e. split; [done|].
  apply tar_create_elem. split; [done|]. split; [by rewrite Hs|].
  exists e.1. split.
  - apply list_elem_of_filter. split; [|done].
    unfold existsIn. apply bool_decide_eq_true_2, list_elem_of_fmap. eauto.
  - unfold below. by rewrite bool_decide_eq_true_2.
Qed.

Lemma packed_entry (signing : string + unit) (tree entries : list (string * Node))
    (e : string * Node) :
  packageBackend signing tree = inr entries → e ∈ entries →
  e ∈ tree ∧ shouldSkipEntry e.1 = false
  ∧ ∃ root, root ∈ packedRoots ∧ below root e.1 = true.
Proof.
  intros (_ & _ & ->)%packageBackend_archive
    (He & Ha & root & [_ Hr]%list_elem_of_filter & Hb)%tar_create_elem.
  split; [done|]. split; [by apply negb_true_iff|]. eauto.
Qed.

Lemma packed_no_marker (signing : string + unit)
    (tree entries : list (string * Node)) :
  packageBackend signing tree = inr entries →
  BACKEND_VERSION_FILE ∉ (fst <$> entries).
Proof.
  intros Hp (e & He1 & He)%list_elem_of_fmap.
  destruct (packed_entry _ _ _ _ Hp He) as (_ & _ & root & Hr & Hb).
  rewrite <- He1 in Hb. unfold packedRoots in Hr.
  repeat (apply elem_of_cons in Hr as [->|Hr]; [by vm_compute in Hb|]).
  by apply elem_of_nil in Hr.
Qed.

(** What [packageBackend] puts into backend.tar.gz.  When the script
    succeeds, every entry of the archive is an entry of the backend
    directory that lies at or below one of the five packed roots and that
    the filter does not skip; [app] and [venv] are among them; and no
    entry is named [.version], the marker the main process writes beside
    the extracted files. *)
Theorem packaged_archive_contents (signing : string + unit)
    (tree entries : list (string * Node)) (e : string * Node) :
  packageBackend signing tree = inr entries →
  ("app" ∈ fst <$> entries) ∧ ("venv" ∈ fst <$> entries)
  ∧ (BACKEND_VERSION_FILE ∉ fst <$> entries)
  ∧ (e ∈ entries →
     e ∈ tree ∧ shouldSkipEntry e.1 = false
     ∧ ∃ root, root ∈ packedRoots ∧ below root e.1 = true).
Proof.
  intros Hp. pose proof (packageBackend_archive _ _ _ Hp) as (Ha & Hv & _).
  split; [|split; [|split]].
  - apply (packed_root signing tree); try done. unfold packedRoots. set_solver.
  - apply (packed_root signing tree); try done. unfold packedRoots. set_solver.
  - by apply (packed_no_marker signing tree).
  - by apply (packed_entry signing).
Qed.

Lemma packaged_backend_tree :
  packageBackend (inr tt) backend_tree
  = inr [("app", Dir); ("app/app.py", File "app = FastAPI()");
         ("app/manager", Dir);
         ("venv", Dir); ("venv/bin", Dir); ("venv/bin/python", File "ELF");
         ("venv/share", Dir); ("requirements.txt", File "fastapi")]
  ∧ ("venv" ∈ fst <$> [("app", Dir); ("app/app.py", File "app = FastAPI()");
         ("app/manager", Dir);
         ("venv", Dir); ("venv/bin", Dir); ("venv/bin/python", File "ELF");
         ("venv/share", Dir); ("requirements.txt", File "fastapi")]).
Proof.
  split; [reflexivity|].
  exact (proj1 (proj2 (packaged_archive_contents (inr tt) backend_tree _
                         ("app", Dir) eq_refl))).
Defined.

(** *** From the script to the first launch *)

Lemma start_at_boot (cfg : Config) (fs0 : Fs) (entries : list (string * Node)) :
  VITE_DEV_SERVER_URL cfg = false →
  archive fs0 = Some entries →
  marker fs0 ≠ Some Dir →
  let s := exec cfg AppReady (boot fs0) in
  fs s = fs0 ∧ trace s = [] ∧ exited s = false
  ∧ (extracting 0 s ∨ promises s !! 0 = Some (Fulfilled runtimeDir))
  ∧ (extracting 0 s ↔ outdated cfg fs0).
Proof.
  intros Hv Ha Hm.
  destruct (ensure_fresh cfg (boot fs0) entries eq_refl Ha Hm)
    as (E1 & E2 & E3 & E4 & E5 & E6 & E7 & E8).
  unfold exec, startBackend, resolveBackendCommand. simpl. rewrite Hv.
  destruct (ensureProductionBackend cfg (boot fs0)) as [p s1]. simpl in *.
  unfold extracting in *. simpl. done.
Qed.

(** An archive built by [packageBackend] is extracted once.  On the
    first launch of the packaged application the archive is unpacked,
    once, and the marker written; the runtime directory then holds the
    [venv] of the archive and is current; and the next launch finds
    nothing left to extract: its promise is fulfilled at once and it
    performs no file operation.  (The version is one that [trim] leaves
    as it is.) *)
Theorem packaged_backend_is_extracted_once
    (cfg : Config) (signing : string + unit)
    (tree entries : list (string * Node)) :
  packageBackend signing tree = inr entries →
  VITE_DEV_SERVER_URL cfg = false →
  trim (currentVersion cfg) = currentVersion cfg →
  let s1 := run cfg first_launch (boot (installed entries)) in
  let s2 := exec cfg AppReady (boot (fs s1)) in
  count is_unpack (trace s1) = 1
  ∧ (∃ node, payload (fs s1) = Some node)
  ∧ marker (fs s1) = Some (File (currentVersion cfg))
  ∧ ¬ outdated cfg (fs s1)
  ∧ promises s2 !! 0 = Some (Fulfilled runtimeDir)
  ∧ fs s2 = fs s1
  ∧ count is_fs_effect (trace s2) = 0.
Proof.
  intros Hp Hv Ht.
  assert ("venv" ∈ fst <$> entries) as Hvenv.
  { pose proof (packageBackend_archive _ _ _ Hp) as (_ & Hx & _).
    apply (packed_root signing tree); try done. unfold packedRoots. set_solver. }
  destruct (start_at_boot cfg (installed entries) entries Hv eq_refl)
    as (A1 & A2 & A3 & A4 & A5); [done|].
  assert (extracting 0 (exec cfg AppReady (boot (installed entries)))) as Hex.
  { apply A5. by left. }
  destruct (extraction_run cfg 0 _ entries A3 Hex) as (B1 & B2 & B3 & B4).
  { by rewrite A1. }
  unfold first_launch. cbv zeta.
  change (run cfg (AppReady :: (IoDone 0 <$> [IoOk; IoOk; IoOk; IoOk]))
            (boot (installed entries)))
    with (run cfg (IoDone 0 <$> [IoOk; IoOk; IoOk; IoOk])
            (exec cfg AppReady (boot (installed entries)))).
  set (s1 := run cfg (IoDone 0 <$> [IoOk; IoOk; IoOk; IoOk])
               (exec cfg AppReady (boot (installed entries)))) in *.
  assert (¬ outdated cfg (fs s1)) as Hcur.
  { by apply (extracted_is_current cfg (fs s1) entries). }
  assert (marker (fs s1) = Some (File (currentVersion cfg))) as Hmark.
  { unfold marker. rewrite B2. simpl. unfold write_version.
    by rewrite lookup_insert_eq. }
  assert (archive (fs s1) = Some entries) as Harch.
  { unfold s1. destruct (run_keeps_archive cfg
      (IoDone 0 <$> [IoOk; IoOk; IoOk; IoOk])
      (exec cfg AppReady (boot (installed entries)))) as [-> _].
    by rewrite A1. }
  destruct (start_at_boot cfg (fs s1) entries Hv Harch)
    as (C1 & C2 & C3 & C4 & C5); [by rewrite Hmark|].
  split; [by rewrite B1, A2|]. split.
  { unfold payload. rewrite B2. simpl. unfold write_version.
    rewrite lookup_insert_ne by done.
    by destruct (unpack_lookup_in entries ∅ "venv" Hvenv) as [x ->]; eauto. }
  split; [done|]. split; [done|]. split.
  { destruct C4 as [C4|C4]; [|done]. by apply C5 in C4. }
  split; [done|]. by rewrite C2.
Qed.

Lemma packaged_backend_tree_is_extracted_once :
  packageBackend (inr tt) backend_tree
  = inr [("app", Dir); ("app/app.py", File "app = FastAPI()");
         ("app/manager", Dir);
         ("venv", Dir); ("venv/bin", Dir); ("venv/bin/python", File "ELF");
         ("venv/share", Dir); ("requirements.txt", File "fastapi")]
  ∧ VITE_DEV_SERVER_URL prod = false
  ∧ trim (currentVersion prod) = currentVersion prod
  ∧ count is_unpack
      (trace (run prod first_launch
                (boot (installed
                   [("app", Dir); ("app/app.py", File "app = FastAPI()");
                    ("app/manager", Dir);
                    ("venv", Dir); ("venv/bin", Dir);
                    ("venv/bin/python", File "ELF");
                    ("venv/share", Dir); ("requirements.txt", File "fastapi")]))))
    = 1.
Proof.
  split; [reflexivity|]. split; [reflexivity|]. split; [reflexivity|].
  exact (proj1 (packaged_backend_is_extracted_once prod (inr tt) backend_tree _
                  eq_refl eq_refl eq_refl)).
Defined.

(** *** Mach-O detection *)

Lemma byteZ_bounds (b : Byte.byte) : (0 ≤ byteZ b ≤ 255)%Z.
Proof. unfold byteZ. pose proof (Byte.to_N_bounded b). lia. Qed.

Lemma byteZ_inj (b : Byte.byte) (z : Z) (c : Byte.byte) :
  byteZ b = z → Byte.of_N (Z.to_N z) = Some c → b = c.
Proof.
  unfold byteZ. intros <- Hc. rewrite N2Z.id, Byte.of_to_N in Hc.
  by injection Hc.
Qed.

Lemma magic_bytes (x0 x1 x2 x3 : Z) (m : Z) :
  (0 ≤ x0 ≤ 255 → 0 ≤ x1 ≤ 255 → 0 ≤ x2 ≤ 255 → 0 ≤ x3 ≤ 255 →
   x0 * 2 ^ 24 + x1 * 2 ^ 16 + x2 * 2 ^ 8 + x3 = m →
   x0 = m / 2 ^ 24 ∧ x1 = (m / 2 ^ 16) mod 2 ^ 8
   ∧ x2 = (m / 2 ^ 8) mod 2 ^ 8 ∧ x3 = m mod 2 ^ 8)%Z.
Proof.
  intros H0 H1 H2 H3 <-.
  change (2 ^ 24)%Z with 16777216%Z. change (2 ^ 16)%Z with 65536%Z.
  change (2 ^ 8)%Z with 256%Z.
  repeat split; Z.to_euclidean_division_equations; lia.
Qed.

Lemma be_header (b0 b1 b2 b3 : Byte.byte) :
  readUInt32BE b0 b1 b2 b3 ∈ MACHO_MAGICS → [b0; b1; b2; b3] ∈ macho_headers.
Proof.
  unfold readUInt32BE, MACHO_MAGICS. intros Hin.
  pose proof (byteZ_bounds b0) as B0. pose proof (byteZ_bounds b1) as B1.
  pose proof (byteZ_bounds b2) as B2. pose proof (byteZ_bounds b3) as B3.
  repeat (apply elem_of_cons in Hin as [Hm|Hin];
    [destruct (magic_bytes _ _ _ _ _ B0 B1 B2 B3 Hm) as (E0 & E1 & E2 & E3);
     rewrite (byteZ_inj b0 _ _ E0 eq_refl), (byteZ_inj b1 _ _ E1 eq_refl),
       (byteZ_inj b2 _ _ E2 eq_refl), (byteZ_inj b3 _ _ E3 eq_refl);
     unfold macho_headers; by repeat constructor|]).
  by apply elem_of_nil in Hin.
Qed.

Lemma le_is_be_reversed (b0 b1 b2 b3 : Byte.byte) :
  readUInt32LE b0 b1 b2 b3 = readUInt32BE b3 b2 b1 b0.
Proof. unfold readUInt32LE, readUInt32BE. lia. Qed.

Lemma header_be (h : list Byte.byte) :
  h ∈ macho_headers →
  ∃ b0 b1 b2 b3, h = [b0; b1; b2; b3]
    ∧ readUInt32BE b0 b1 b2 b3 ∈ MACHO_MAGICS
    ∧ [b3; b2; b1; b0] ∈ macho_headers.
Proof.
  unfold macho_headers. intros Hin.
  repeat (apply elem_of_cons in Hin as [->|Hin];
    [eexists _, _, _, _; split; [reflexivity|]; split;
     [vm_compute; by repeat constructor|by repeat constructor]|]).
  by apply elem_of_nil in Hin.
Qed.

(** [hasMachOMagic] accepts exactly the files that begin with FE ED FA
    CE, FE ED FA CF, CE FA ED FE, CF FA ED FE, CA FE BA BE or BE BA FE
    CA.  A file that cannot be read, or that has fewer than four bytes,
    is refused.  The table of magic numbers being closed under reversal
    of the four bytes, the little-endian reading adds nothing to the
    big-endian one. *)
Theorem hasMachOMagic_accepts_the_six_headers (file : option (list Byte.byte)) :
  (hasMachOMagic file = true
   ↔ ∃ h rest, h ∈ macho_headers ∧ file = Some (h ++ rest))
  ∧ hasMachOMagic file
    = match file with
      | Some (b0 :: b1 :: b2 :: b3 :: _) =>
          bool_decide (readUInt32BE b0 b1 b2 b3 ∈ MACHO_MAGICS)
      | _ => false
      end.
Proof.
  assert (∀ b0 b1 b2 b3,
            readUInt32LE b0 b1 b2 b3 ∈ MACHO_MAGICS →
            readUInt32BE b0 b1 b2 b3 ∈ MACHO_MAGICS) as Hle.
  { intros b0 b1 b2 b3. rewrite le_is_be_reversed. intros Hr%be_header.
    destruct (header_be _ Hr) as (c0 & c1 & c2 & c3 & [= -> -> -> ->] & _ & Hh).
    by destruct (header_be _ Hh) as (d0 & d1 & d2 & d3 & [= -> -> -> ->] & ? & _). }
  assert (hasMachOMagic file
          = match file with
            | Some (b0 :: b1 :: b2 :: b3 :: _) =>
                bool_decide (readUInt32BE b0 b1 b2 b3 ∈ MACHO_MAGICS)
            | _ => false
            end) as Heq.
  { destruct file as [[|b0 [|b1 [|b2 [|b3 rest]]]]|]; try done. simpl.
    destruct (bool_decide (readUInt32BE b0 b1 b2 b3 ∈ MACHO_MAGICS)) eqn:Hb;
      [done|]. simpl.
    apply bool_decide_eq_false_2. intros H%Hle.
    by apply bool_decide_eq_false_1 in Hb. }
  split; [|done]. rewrite Heq. split.
  - destruct file as [[|b0 [|b1 [|b2 [|b3 rest]]]]|]; try done.
    intros H%bool_decide_eq_true_1%be_header. by exists [b0; b1; b2; b3], rest.
  - intros (h & rest & Hh & ->).
    destruct (header_be _ Hh) as (b0 & b1 & b2 & b3 & -> & Hb & _). simpl.
    by apply bool_decide_eq_true_2.
Qed.

(** *** The walk over the virtual environment *)

Lemma candidates_dir (current name : string) (entries : list Entry) :
  candidates current (DirEntry name entries)
  = if bool_decide (name ∈ SKIPPED_DIRECTORIES) then []
    else entries ≫= candidates (current +:+ "/" +:+ name).
Proof.
  cbn [candidates]. destruct (bool_decide (name ∈ SKIPPED_DIRECTORIES)); [done|].
  induction entries as [|e es IH]; [done|]. by rewrite bind_cons, IH.
Qed.

Lemma candidates_file (current name : string) (content : option (list Byte.byte)) :
  candidates current (FileEntry name content)
  = if isLikelyMachO (current +:+ "/" +:+ name) && hasMachOMagic content
    then [current +:+ "/" +:+ name] else [].
Proof. reflexivity. Qed.

Lemma candidates_other (current name : string) :
  candidates current (OtherEntry name) = [].
Proof. reflexivity. Qed.

Lemma entered_dir (name : string) (entries : list Entry) :
  entered (DirEntry name entries)
  = if bool_decide (name ∈ SKIPPED_DIRECTORIES) then 0
    else S (sum_list (entered <$> entries)).
Proof.
  cbn [entered]. destruct (bool_decide (name ∈ SKIPPED_DIRECTORIES)); [done|].
  f_equal. induction entries as [|e es IH]; [done|].
  by rewrite fmap_cons, IH.
Qed.

Lemma entered_file (name : string) (content : option (list Byte.byte)) :
  entered (FileEntry name content) = 0.
Proof. reflexivity. Qed.

Lemma entered_other (name : string) : entered (OtherEntry name) = 0.
Proof. reflexivity. Qed.

#[local] Arguments candidates : simpl never.
#[local] Arguments entered : simpl never.

Lemma sum_list_append (l k : list nat) :
  sum_list (l ++ k) = sum_list l + sum_list k.
Proof. induction l as [|x l IH]; [done|]. simpl. rewrite IH. lia. Qed.

Lemma visit_entries (current : string) (entries : list Entry)
    (stack : list (string * list Entry)) (results : list string) :
  ∃ pushed files,
    foldl (visit current) (stack, results) entries
    = (pushed ++ stack, results ++ files)
    ∧ entries ≫= candidates current
      ≡ₚ files ++ (pushed ≫= λ d, d.2 ≫= candidates d.1)
    ∧ sum_list (entered <$> entries)
      = sum_list ((λ d, S (sum_list (entered <$> d.2))) <$> pushed).
Proof.
  revert stack results.
  induction entries as [|e es IH]; intros stack results.
  - exists [], []. by rewrite app_nil_r.
  - simpl foldl. destruct e as [name content|name sub|name]; simpl visit.
    + destruct (isLikelyMachO (current +:+ "/" +:+ name)) eqn:Hl; simpl negb;
        cbv iota; [destruct (hasMachOMagic content) eqn:Hm|].
      * destruct (IH stack (results ++ [current +:+ "/" +:+ name]))
          as (pushed & files & -> & Hp & Hs).
        exists pushed, ((current +:+ "/" +:+ name) :: files).
        split; [by rewrite <- app_assoc|]. split; [|done].
        rewrite bind_cons, candidates_file, Hl, Hm. simpl. by rewrite Hp.
      * destruct (IH stack results) as (pushed & files & -> & Hp & Hs).
        exists pushed, files. split; [done|]. split; [|done].
        by rewrite bind_cons, candidates_file, Hl, Hm.
      * destruct (IH stack results) as (pushed & files & -> & Hp & Hs).
        exists pushed, files. split; [done|]. split; [|done].
        by rewrite bind_cons, candidates_file, Hl.
    + rewrite fmap_cons, bind_cons, candidates_dir, entered_dir.
      destruct (bool_decide (name ∈ SKIPPED_DIRECTORIES)).
      * destruct (IH stack results) as (pushed & files & -> & Hp & Hs).
        by exists pushed, files.
      * simpl fst. simpl snd.
        destruct (IH ((current +:+ "/" +:+ name, sub) :: stack) results)
          as (pushed & files & -> & Hp & Hs).
        exists (pushed ++ [(current +:+ "/" +:+ name, sub)]), files.
        split; [by rewrite <- app_assoc|]. split.
        -- rewrite bind_app, bind_cons. simpl. rewrite app_nil_r, Hp.
           rewrite (Permutation_app_comm (sub ≫= _)). by rewrite app_assoc.
        -- rewrite fmap_app, sum_list_append. simpl. rewrite Hs. lia.
    + destruct (IH stack results) as (pushed & files & -> & Hp & Hs).
      exists pushed, files. split; [done|]. split; [|done].
      by rewrite bind_cons, candidates_other.
Qed.

Lemma collect_loop_spec (fuel : nat) (stack : list (string * list Entry))
    (results : list string) :
  sum_list ((λ d, S (sum_list (entered <$> d.2))) <$> stack) ≤ fuel →
  ∃ found,
    collect_loop fuel stack results = Some (results ++ found)
    ∧ found ≡ₚ stack ≫= λ d, d.2 ≫= candidates d.1.
Proof.
  revert stack results.
  induction fuel as [|fuel IH]; intros stack results Hw.
  - destruct stack as [|[current entries] stack]; simpl in Hw; [|lia].
    exists []. by rewrite app_nil_r.
  - destruct stack as [|[current entries] stack].
    { exists []. by rewrite app_nil_r. }
    simpl collect_loop.
    destruct (visit_entries current entries stack results)
      as (pushed & files & -> & Hp & Hs).
    simpl fst. simpl snd.
    destruct (IH (pushed ++ stack) (results ++ files)) as (found & -> & Hf).
    { rewrite fmap_app, sum_list_append, <- Hs.
      change (S (sum_list (entered <$> entries)
                 + sum_list ((λ d : string * list Entry,
                               S (sum_list (entered <$> d.2))) <$> stack))
              ≤ S fuel) in Hw.
      lia. }
    exists (files ++ found). split; [by rewrite app_assoc|].
    rewrite bind_cons. simpl fst. simpl snd.
    rewrite Hf, bind_app, Hp, <- app_assoc. done.
Qed.

(** The walk ends and finds what it should.  On every directory tree,
    the [while] loop of [collectCandidateBinaries] ends after one turn
    for the root and one for each directory it enters, and what it returns
    is, up to the order, the regular files, at any depth, that
    [isLikelyMachO] and [hasMachOMagic] accept and that lie in no
    directory named [__pycache__], [myenv] or [test_venv]. *)
Theorem collectCandidateBinaries_finds_the_candidates
    (rootDir : string) (entries : list Entry) (fuel : nat) :
  S (sum_list (entered <$> entries)) ≤ fuel →
  ∃ found,
    collectCandidateBinaries fuel rootDir entries = Some found
    ∧ found ≡ₚ entries ≫= candidates rootDir.
Proof.
  intros Hf. unfold collectCandidateBinaries.
  destruct (collect_loop_spec fuel [(rootDir, entries)] []) as (found & -> & Hp).
  { simpl. lia. }
  exists found. split; [done|]. rewrite Hp. simpl. by rewrite app_nil_r.
Qed.

Lemma candidates_of_the_venv :
  S (sum_list (entered <$> venv_listing)) ≤ 3
  ∧ collectCandidateBinaries 3 "venv" venv_listing
    = Some ["venv/lib/_ssl.SO"; "venv/bin/python"]
  ∧ ∃ found,
      collectCandidateBinaries 3 "venv" venv_listing = Some found
      ∧ found ≡ₚ venv_listing ≫= candidates "venv".
Proof.
  assert (S (sum_list (entered <$> venv_listing)) ≤ 3) as H.
  { vm_compute. lia. }
  split; [exact H|]. split; [reflexivity|].
  exact (collectCandidateBinaries_finds_the_candidates "venv" venv_listing 3 H).
Defined.

(** *** The [.env] loaders *)

Lemma loadEnvLine_subseteq (env : gmap string string) (line : string) :
  env ⊆ loadEnvLine env line.
Proof.
  unfold loadEnvLine.
  destruct (negb (truthy (trim line)) || startsWith "#" (trim line)); [done|].
  destruct (split_on "=" (trim line)) as [|key rest]; [done|].
  destruct (negb (truthy key) || bool_decide (length rest = 0)); [done|].
  unfold in_env. case_bool_decide as Hk; [done|].
  destruct (bool_decide (key ∈ inherited_names)); [done|].
  apply insert_subseteq. by apply eq_None_not_Some.
Qed.

Lemma loadEnvFile_subseteq (file : option string) (env : gmap string string) :
  env ⊆ loadEnvFile file env.
Proof.
  destruct file as [content|]; [|done]. simpl.
  generalize (split_on "010" content). intros lines. revert env.
  induction lines as [|line lines IH]; intros env; [done|]. simpl.
  etrans; [apply (loadEnvLine_subseteq env line)|apply IH].
Qed.

(** The script never overrides the environment.  Whatever [.env]
    holds, every variable that is set when [loadEnvFile] runs keeps its
    value; the file only adds variables that are missing (and of two
    lines for one variable the first counts). *)
Theorem loadEnvFile_never_overrides
    (file : option string) (env : gmap string string) (key value : string) :
  env !! key = Some value →
  loadEnvFile file env !! key = Some value.
Proof.
  intros H. by apply (lookup_weaken env _ _ _ H), loadEnvFile_subseteq.
Qed.

Lemma identity_of_the_shell_is_kept :
  ({[ "APPLE_IDENTITY" := "Developer ID (shell)" ]} : gmap string string)
    !! "APPLE_IDENTITY" = Some "Developer ID (shell)"
  ∧ loadEnvFile (Some "APPLE_IDENTITY=Developer ID (file)")
      {[ "APPLE_IDENTITY" := "Developer ID (shell)" ]} !! "APPLE_IDENTITY"
    = Some "Developer ID (shell)".
Proof.
  split; [reflexivity|].
  exact (loadEnvFile_never_overrides (Some "APPLE_IDENTITY=Developer ID (file)")
           {[ "APPLE_IDENTITY" := "Developer ID (shell)" ]}
           "APPLE_IDENTITY" "Developer ID (shell)" eq_refl).
Defined.

Lemma split_on_cons (sep : ascii) (s : string) :
  ∃ x xs, split_on sep s = x :: xs.
Proof.
  induction s as [|a s (x & xs & IH)]; simpl; [by eauto|].
  destruct (Ascii.eqb a sep); [by eauto|]. rewrite IH. by eauto.
Qed.

Lemma prefix_cons (c a : ascii) (p s : string) :
  String.prefix (String c p) (String a s)
  = if ascii_dec c a then String.prefix p s else false.
Proof. reflexivity. Qed.

Lemma not_included (sep a : ascii) (s : string) :
  includes (String sep "") (String a s) = false →
  Ascii.eqb a sep = false ∧ includes (String sep "") s = false.
Proof.
  rewrite includes_unfold, prefix_cons.
  destruct (ascii_dec sep a) as [->|Hne].
  - by destruct s.
  - intros H. split; [|done]. apply Ascii.eqb_neq. congruence.
Qed.

Lemma split_on_first (sep : ascii) (k rest : string) :
  includes (String sep "") k = false →
  split_on sep (k +:+ String sep rest) = k :: split_on sep rest.
Proof.
  induction k as [|a k IH]; intros Hk.
  - rewrite append_empty_l. simpl. by rewrite Ascii.eqb_refl.
  - apply not_included in Hk as [Ha Hk]. rewrite append_cons. simpl.
    by rewrite Ha, (IH Hk).
Qed.

Lemma split_on_none (sep : ascii) (s : string) :
  includes (String sep "") s = false → split_on sep s = [s].
Proof.
  induction s as [|a s IH]; intros Hs; [done|].
  apply not_included in Hs as [Ha Hs]. simpl. by rewrite Ha, (IH Hs).
Qed.

Lemma split_on_last (sep : ascii) (before line : string) :
  includes (String sep "") line = false →
  split_on sep (before +:+ String sep line) = split_on sep before ++ [line].
Proof.
  intros Hl. induction before as [|a before IH].
  - rewrite append_empty_l. simpl.
    by rewrite Ascii.eqb_refl, split_on_none.
  - rewrite append_cons. simpl. rewrite IH.
    destruct (Ascii.eqb a sep); [done|].
    by destruct (split_on_cons sep before) as (x & xs & ->).
Qed.

Lemma join_split (sep : ascii) (s : string) :
  join (String sep "") (split_on sep s) = s.
Proof.
  induction s as [|a s IH]; [done|]. simpl.
  destruct (split_on_cons sep s) as (x & xs & Hs). rewrite Hs in *.
  destruct (Ascii.eqb a sep) eqn:Ha.
  - apply Ascii.eqb_eq in Ha as ->.
    change (join (String sep "") ("" :: x :: xs))
      with ("" +:+ String sep "" +:+ join (String sep "") (x :: xs)).
    by rewrite IH.
  - destruct xs as [|y ys]; simpl in *; [by rewrite IH|].
    by rewrite append_cons, IH.
Qed.

Lemma assignment_line (k rest : string) :
  trim (k +:+ "=" +:+ rest) = k +:+ "=" +:+ rest →
  k ≠ "" → includes "=" k = false → startsWith "#" k = false →
  (∀ env, loadEnvLine env (k +:+ "=" +:+ rest)
          = if in_env env k then env else <[k := trim rest]> env)
  ∧ (∀ env, configEnvLine env (k +:+ "=" +:+ rest)
            = <[trim k := trim rest]> env).
Proof.
  intros Ht Hk Hi Hs.
  assert (truthy (k +:+ "=" +:+ rest) = true) as Htr.
  { by destruct k. }
  assert (startsWith "#" (k +:+ "=" +:+ rest) = false) as Hst.
  { destruct k as [|a k]; [by destruct Hk|]. rewrite append_cons.
    unfold startsWith in *. rewrite prefix_cons in *.
    destruct (ascii_dec "#" a); [by destruct k|done]. }
  assert (truthy k = true) as Hkt.
  { destruct k; [by destruct Hk|done]. }
  destruct (split_on_cons "=" rest) as (x & xs & Hx).
  assert (split_on "=" (k +:+ "=" +:+ rest) = k :: x :: xs) as Hsp.
  { change ("=" +:+ rest) with (String "=" rest).
    by rewrite split_on_first, Hx. }
  assert (join "=" (x :: xs) = rest) as Hj.
  { rewrite <- Hx. apply (join_split "="). }
  split; intros env.
  - unfold loadEnvLine. rewrite Ht, Htr, Hst, Hsp, Hkt. simpl negb.
    destruct (bool_decide (length (x :: xs) = 0)) eqn:Hl;
      [by apply bool_decide_eq_true_1 in Hl|].
    simpl orb. cbv iota. by rewrite Hj.
  - unfold configEnvLine. rewrite Ht, Htr, Hst, Hsp, Hkt. simpl negb.
    destruct (bool_decide (length (x :: xs) = 0)) eqn:Hl;
      [by apply bool_decide_eq_true_1 in Hl|].
    simpl andb. cbv iota. by rewrite Hj.
Qed.

(** The value of a variable is all the text after the first "=".  For
    a line [KEY=...] (no white space around it, the key not empty, free of
    "=" and not a comment), both loaders split at every "=" and join the
    pieces again, so the value is what follows the first "=", further "="
    signs included, trimmed.  The script sets it unless [KEY in process.env]
    holds, which it does when the variable is set already and also when
    [KEY] is a name that [process.env] inherits, such as [constructor] or
    [toString]; the build configuration sets it in any case, under the
    trimmed key. *)
Theorem dotenv_value_is_the_text_after_the_first_equals_sign
    (env : gmap string string) (k rest : string) :
  trim (k +:+ "=" +:+ rest) = k +:+ "=" +:+ rest →
  k ≠ "" → includes "=" k = false → startsWith "#" k = false →
  loadEnvLine env (k +:+ "=" +:+ rest)
  = (if in_env env k then env else <[k := trim rest]> env)
  ∧ configEnvLine env (k +:+ "=" +:+ rest) = <[trim k := trim rest]> env.
Proof.
  intros Ht Hk Hi Hs.
  destruct (assignment_line k rest Ht Hk Hi Hs) as [H1 H2]. by split.
Qed.

Lemma password_with_equals_signs :
  trim ("APPLE_ID_PASS" +:+ "=" +:+ " abcd=efgh==")
  = "APPLE_ID_PASS" +:+ "=" +:+ " abcd=efgh=="
  ∧ "APPLE_ID_PASS" ≠ ""
  ∧ includes "=" "APPLE_ID_PASS" = false
  ∧ startsWith "#" "APPLE_ID_PASS" = false
  ∧ loadEnvLine ∅ "APPLE_ID_PASS= abcd=efgh=="
    = {[ "APPLE_ID_PASS" := "abcd=efgh==" ]}
  ∧ configEnvLine ∅ "APPLE_ID_PASS= abcd=efgh=="
    = {[ "APPLE_ID_PASS" := "abcd=efgh==" ]}.
Proof.
  assert ("APPLE_ID_PASS" ≠ "") as Hk by done.
  split; [reflexivity|]. split; [exact Hk|]. split; [reflexivity|].
  split; [reflexivity|].
  exact (dotenv_value_is_the_text_after_the_first_equals_sign ∅
           "APPLE_ID_PASS" " abcd=efgh==" eq_refl Hk eq_refl eq_refl).
Defined.

(** A line that assigns an inherited name is skipped by the script and
    taken by the build configuration, in an environment that sets no such
    variable. *)
Lemma inherited_name_is_skipped :
  loadEnvLine ∅ "constructor=x" = ∅
  ∧ loadEnvLine ∅ "toString=x" = ∅
  ∧ configEnvLine ∅ "toString=x" = {[ "toString" := "x" ]}.
Proof. by vm_compute. Qed.

(** The two loaders of the same [.env] disagree on precedence.  For a
    variable the shell has set and the last line of the file assigns, the
    packaging script keeps the value of the shell, and the build
    configuration takes the value of the file. *)
Theorem dotenv_precedence_differs
    (env : gmap string string) (before k rest shell : string) :
  trim (k +:+ "=" +:+ rest) = k +:+ "=" +:+ rest →
  k ≠ "" → includes "=" k = false → startsWith "#" k = false →
  trim k = k →
  includes LF (k +:+ "=" +:+ rest) = false →
  env !! k = Some shell →
  loadEnvFile (Some (before +:+ LF +:+ k +:+ "=" +:+ rest)) env !! k = Some shell
  ∧ configEnv (Some (before +:+ LF +:+ k +:+ "=" +:+ rest)) env !! k
    = Some (trim rest).
Proof.
  intros Ht Hk Hi Hs Htk Hn He.
  split; [by apply (lookup_weaken env _ _ _ He), loadEnvFile_subseteq|].
  destruct (assignment_line k rest Ht Hk Hi Hs) as [_ H2].
  unfold configEnv, LF.
  change (String "010" "" +:+ k +:+ "=" +:+ rest)
    with (String "010" (k +:+ "=" +:+ rest)).
  rewrite split_on_last by done. rewrite foldl_app. simpl.
  rewrite H2, Htk. apply lookup_insert_eq.
Qed.

Lemma team_id_in_shell_and_file :
  trim ("APPLE_TEAM_ID" +:+ "=" +:+ "FILE123") = "APPLE_TEAM_ID" +:+ "=" +:+ "FILE123"
  ∧ "APPLE_TEAM_ID" ≠ ""
  ∧ includes "=" "APPLE_TEAM_ID" = false
  ∧ startsWith "#" "APPLE_TEAM_ID" = false
  ∧ trim "APPLE_TEAM_ID" = "APPLE_TEAM_ID"
  ∧ includes LF ("APPLE_TEAM_ID" +:+ "=" +:+ "FILE123") = false
  ∧ ({[ "APPLE_TEAM_ID" := "SHELL99" ]} : gmap string string) !! "APPLE_TEAM_ID"
    = Some "SHELL99"
  ∧ loadEnvFile (Some ("# signing" +:+ LF +:+ "APPLE_TEAM_ID" +:+ "=" +:+ "FILE123"))
      {[ "APPLE_TEAM_ID" := "SHELL99" ]} !! "APPLE_TEAM_ID" = Some "SHELL99"
  ∧ configEnv (Some ("# signing" +:+ LF +:+ "APPLE_TEAM_ID" +:+ "=" +:+ "FILE123"))
      {[ "APPLE_TEAM_ID" := "SHELL99" ]} !! "APPLE_TEAM_ID" = Some "FILE123".
Proof.
  assert ("APPLE_TEAM_ID" ≠ "") as Hk by done.
  split; [reflexivity|]. split; [exact Hk|]. split; [reflexivity|].
  split; [reflexivity|]. split; [reflexivity|]. split; [reflexivity|].
  split; [reflexivity|].
  exact (dotenv_precedence_differs {[ "APPLE_TEAM_ID" := "SHELL99" ]}
           "# signing" "APPLE_TEAM_ID" "FILE123" "SHELL99"
           eq_refl Hk eq_refl eq_refl eq_refl eq_refl eq_refl).
Defined.

End PackagingFacts.
